(** * N.S.C.P. 2.0 -- server_manager.py

    A shallow embedding of [src/server_manager.py]: the RCON client
    [SimpleRCON] (wire framing, authentication, command round trip, scoped
    connection) and the supervisor [MinecraftServerManager] (bounded console
    log, log-derived presence tracking, RCON polling with its failure
    breaker, [stop]).

    Conventions of the embedding:
    - a Python [str] is the list of its code points ([pystr]); [bytes] is a
      list of 8-bit integers;
    - Python integers are [Z] (unbounded, no wrap-around);
    - a method that mutates [self] takes the object and returns the new one;
      a method that can raise returns a [result];
    - the network and the clock are inputs: a peer script per socket, a
      timestamp per call of [time.time()]. *)

From Stdlib Require Import ZArith List Ascii String Lia Bool.
From stdpp Require Import base list gmap sorting pretty.

Open Scope Z_scope.

(* ================================================================== *)
(** ** Python strings *)
(* ================================================================== *)

Module PyStr.

(** A [str] is a sequence of Unicode code points. *)
Definition pystr := list Z.

(** Source literals are ASCII; [py] reads one as a [pystr]. *)
Definition py (s : string) : pystr :=
  List.map (fun a => Z.of_nat (nat_of_ascii a)) (list_ascii_of_string s).

(** [str(n)] for an integer. *)
Definition str_of_int (n : Z) : pystr := py (pretty n).

(** Truth value of a string: empty is false. *)
Definition truthy (s : pystr) : bool :=
  match s with [] => false | _ :: _ => true end.

(** [str.isspace] on one code point (the table behind [str.strip()] and
    the regular expression class [\s]). *)
Definition is_space (c : Z) : bool :=
  ((9 <=? c) && (c <=? 13)) || ((28 <=? c) && (c <=? 32))
  || (c =? 133) || (c =? 160) || (c =? 5760)
  || ((8192 <=? c) && (c <=? 8202))
  || (c =? 8232) || (c =? 8233) || (c =? 8239) || (c =? 8287)
  || (c =? 12288).

(** [s.lstrip(chars)], [s.rstrip(chars)], the character set given as a
    predicate. *)
Fixpoint lstrip_by (p : Z -> bool) (s : pystr) : pystr :=
  match s with
  | [] => []
  | c :: t => if p c then lstrip_by p t else s
  end.

Fixpoint rstrip_by (p : Z -> bool) (s : pystr) : pystr :=
  match s with
  | [] => []
  | c :: t =>
      match rstrip_by p t with
      | [] => if p c then [] else [c]
      | t' => c :: t'
      end
  end.

(** [s.strip()] *)
Definition strip (s : pystr) : pystr := rstrip_by is_space (lstrip_by is_space s).

(** [s.rstrip("\n")] *)
Definition rstrip_nl (s : pystr) : pystr := rstrip_by (fun c => c =? 10) s.

(** [sep in s] for a one-character [sep]. *)
Definition contains (sep : Z) (s : pystr) : bool := existsb (Z.eqb sep) s.

(** [s.split(sep)] for a one-character [sep]: never empty, [""] splits
    to [[""]]. *)
Fixpoint split (sep : Z) (s : pystr) : list pystr :=
  match s with
  | [] => [[]]
  | c :: t =>
      if c =? sep then [] :: split sep t
      else match split sep t with
           | [] => [[c]]
           | h :: r => (c :: h) :: r
           end
  end.

(** [s.split(sep, 1)]: at most one cut, at the first [sep]. *)
Fixpoint split1 (sep : Z) (s : pystr) : list pystr :=
  match s with
  | [] => [[]]
  | c :: t =>
      if c =? sep then [[]; t]
      else match split1 sep t with
           | [] => [[c]]
           | h :: r => (c :: h) :: r
           end
  end.

(** [sep.join(parts)] for a one-character [sep]. *)
Fixpoint join (sep : Z) (parts : list pystr) : pystr :=
  match parts with
  | [] => []
  | [p] => p
  | p :: rest => p ++ sep :: join sep rest
  end.

(** Ordering of [str] values: lexicographic on code points. *)
Fixpoint str_leb (a b : pystr) : bool :=
  match a, b with
  | [], _ => true
  | _ :: _, [] => false
  | x :: a', y :: b' => (x <? y) || ((x =? y) && str_leb a' b')
  end.

Definition COLON : Z := 58.
Definition COMMA : Z := 44.
Definition NEWLINE : Z := 10.

End PyStr.
Import PyStr.

(* ================================================================== *)
(** ** What the interpreter supplies *)
(* ================================================================== *)

(** Tables and texts of the Python runtime that the source relies on and
    does not contain: the decimal digits outside ASCII (class [\d] of a
    [str] pattern) and the texts of two library exceptions. *)
Class PyRuntime := {
  decimal_beyond_ascii : Z -> bool;
  encode_error_text : pystr -> pystr;
  struct_error_text : pystr;
}.

(** A runtime for the closed examples. They contain ASCII text only and
    raise no library exception, so they come out the same under every
    runtime. *)
Definition ascii_runtime : PyRuntime :=
  {| decimal_beyond_ascii := fun _ => false;
     encode_error_text := fun _ => py "surrogates not allowed";
     struct_error_text := py "argument out of range" |}.

(* ================================================================== *)
(** ** Regular expressions, as far as the two patterns need them *)
(* ================================================================== *)

Module Re.

Inductive regex : Type :=
| Eps
| Lit (c : Z)                 (* one literal character *)
| Cls (p : Z -> bool)         (* one character of a class *)
| Star (p : Z -> bool)        (* class*, greedy *)
| Plus (p : Z -> bool)        (* class+, greedy *)
| Seq (r1 r2 : regex)
| Alt (r1 r2 : regex)
| Group (r : regex).          (* the capturing group, number 1 *)

Definition in_range (lo hi c : Z) : bool := (lo <=? c) && (c <=? hi).

(** Simple case mappings, for the code points that map to an ASCII
    letter: besides the ASCII letters themselves, U+0130 (lower i),
    U+212A (lower k), U+0131 (upper I) and U+017F (upper S). No other
    code point reaches ASCII through a case mapping. *)
Definition to_lower (c : Z) : Z :=
  if in_range 65 90 c then c + 32
  else if c =? 304 then 105
  else if c =? 8490 then 107
  else c.

Definition to_upper (c : Z) : Z :=
  if in_range 97 122 c then c - 32
  else if c =? 305 then 73
  else if c =? 383 then 83
  else c.

(** A literal [p] of the pattern against the character [c], under
    [re.IGNORECASE]. *)
Definition lit_matches (p c : Z) : bool :=
  (to_lower c =? to_lower p) || (to_upper c =? to_upper p).

(** A range [lo-hi] of a class under [re.IGNORECASE]: the lowered
    character or its upper case lies in the range. *)
Definition in_range_i (lo hi c : Z) : bool :=
  in_range lo hi (to_lower c) || in_range lo hi (to_upper (to_lower c)).

(** [\d] of a [str] pattern. *)
Definition is_decimal `{PyRuntime} (c : Z) : bool :=
  if c <? 128 then in_range 48 57 c else decimal_beyond_ascii c.

(** Greedy repetition of a class, longest first, backtracking into [k]. *)
Fixpoint star_greedy {X} (p : Z -> bool) (s : pystr) (k : pystr -> option X)
  : option X :=
  match s with
  | c :: t =>
      if p c then
        match star_greedy p t k with
        | Some x => Some x
        | None => k s
        end
      else k s
  | [] => k []
  end.

(** Backtracking matcher anchored at the head of [s]; [g] is the text of
    group 1 so far, [k] the continuation. *)
Fixpoint rmatch {X} (r : regex) (s : pystr) (g : option pystr)
         (k : pystr -> option pystr -> option X) : option X :=
  match r with
  | Eps => k s g
  | Lit c =>
      match s with
      | x :: t => if lit_matches c x then k t g else None
      | [] => None
      end
  | Cls p =>
      match s with
      | x :: t => if p x then k t g else None
      | [] => None
      end
  | Star p => star_greedy p s (fun t => k t g)
  | Plus p =>
      match s with
      | x :: t => if p x then star_greedy p t (fun t' => k t' g) else None
      | [] => None
      end
  | Seq r1 r2 => rmatch r1 s g (fun t g' => rmatch r2 t g' k)
  | Alt r1 r2 =>
      match rmatch r1 s g k with
      | Some x => Some x
      | None => rmatch r2 s g k
      end
  | Group r1 =>
      rmatch r1 s g
        (fun t _ => k t (Some (firstn (length s - length t)%nat s)))
  end.

(** [pattern.search(s)]: the leftmost match; the result is group 1. *)
Fixpoint search (r : regex) (s : pystr) : option (option pystr) :=
  match rmatch r s None (fun _ g => Some g) with
  | Some g => Some g
  | None =>
      match s with
      | [] => None
      | _ :: t => search r t
      end
  end.

(** A literal text. *)
Definition text (s : string) : regex :=
  fold_right (fun c r => Seq (Lit c) r) Eps (py s).

End Re.
Import Re.

(* ================================================================== *)
(** ** Wire protocol codec: [struct] and UTF-8 *)
(* ================================================================== *)

Module Wire.

(** [bytes]: each element is in [0, 256). *)
Definition bytes := list Z.

Definition is_byte (b : Z) : Prop := 0 <= b < 256.

Definition blen (b : bytes) : Z := Z.of_nat (length b).

(** [l[a:b]] for a list, Python's slice with negative indices counted
    from the end and both ends clamped. *)
Definition clamp_index (n i : Z) : Z :=
  if i <? 0 then Z.max 0 (n + i) else Z.min i n.

Definition pyslice {A} (a b : Z) (l : list A) : list A :=
  let n := Z.of_nat (length l) in
  let lo := clamp_index n a in
  let hi := clamp_index n b in
  firstn (Z.to_nat (hi - lo)) (skipn (Z.to_nat lo) l).

(** [struct.pack("<i", v)]: four bytes, little endian, two's complement;
    [struct.error] when [v] is not a 32-bit signed integer. *)
Definition int32_ok (v : Z) : bool :=
  (-2147483648 <=? v) && (v <=? 2147483647).

Definition le32 (v : Z) : bytes :=
  let u := v mod 4294967296 in
  [u mod 256; (u / 256) mod 256; (u / 65536) mod 256; (u / 16777216) mod 256].

Definition pack_i (v : Z) : option bytes :=
  if int32_ok v then Some (le32 v) else None.

(** [struct.pack("<iii", a, b, c)] *)
Definition pack_iii (a b c : Z) : option bytes :=
  match pack_i a, pack_i b, pack_i c with
  | Some x, Some y, Some z => Some (x ++ y ++ z)
  | _, _, _ => None
  end.

(** [struct.unpack("<i", raw)]: exactly four bytes are required. *)
Definition unpack_i (raw : bytes) : option Z :=
  match raw with
  | [b0; b1; b2; b3] =>
      let u := b0 + 256 * b1 + 65536 * b2 + 16777216 * b3 in
      Some (if u <? 2147483648 then u else u - 4294967296)
  | _ => None
  end.

(** [struct.unpack("<ii", raw)]: exactly eight bytes are required. *)
Definition unpack_ii (raw : bytes) : option (Z * Z) :=
  match raw with
  | [a0; a1; a2; a3; b0; b1; b2; b3] =>
      match unpack_i [a0; a1; a2; a3], unpack_i [b0; b1; b2; b3] with
      | Some a, Some b => Some (a, b)
      | _, _ => None
      end
  | _ => None
  end.

(** One code point in UTF-8. Surrogates (U+D800..U+DFFF) are refused,
    as [str.encode("utf-8")] refuses them. *)
Definition utf8_encode_cp (c : Z) : option bytes :=
  if c <? 0 then None
  else if c <? 0x80 then Some [c]
  else if c <? 0x800 then Some [0xC0 + c / 64; 0x80 + c mod 64]
  else if c <? 0x10000 then
    if (0xD800 <=? c) && (c <=? 0xDFFF) then None
    else Some [0xE0 + c / 4096; 0x80 + (c / 64) mod 64; 0x80 + c mod 64]
  else if c <? 0x110000 then
    Some [0xF0 + c / 262144; 0x80 + (c / 4096) mod 64;
          0x80 + (c / 64) mod 64; 0x80 + c mod 64]
  else None.

(** [s.encode("utf-8")]; [None] stands for [UnicodeEncodeError]. *)
Fixpoint utf8_encode (s : pystr) : option bytes :=
  match s with
  | [] => Some []
  | c :: t =>
      match utf8_encode_cp c, utf8_encode t with
      | Some b, Some r => Some (b ++ r)
      | _, _ => None
      end
  end.

Definition REPLACEMENT : Z := 0xFFFD.

Definition is_cont (b : Z) : bool := (0x80 <=? b) && (b <? 0xC0).

(** Second byte of a three-byte form: a continuation byte, not an
    overlong form after E0 and not a surrogate after ED. *)
Definition second_ok3 (b1 b2 : Z) : bool :=
  is_cont b2 && negb (if b2 <? 0xA0 then b1 =? 0xE0 else b1 =? 0xED).

(** Second byte of a four-byte form: a continuation byte, not an
    overlong form after F0 and not beyond U+10FFFF after F4. *)
Definition second_ok4 (b1 b2 : Z) : bool :=
  is_cont b2 && negb (if b2 <? 0x90 then b1 =? 0xF0 else b1 =? 0xF4).

(** [b.decode("utf-8", errors="replace")]: never fails; an invalid start
    byte, the valid prefix of a broken sequence, and a sequence cut by
    the end of the data are each replaced by U+FFFD. *)
Fixpoint utf8_decode (bs : bytes) : pystr :=
  match bs with
  | [] => []
  | b1 :: t1 =>
      if b1 <? 0x80 then b1 :: utf8_decode t1
      else if b1 <? 0xC2 then REPLACEMENT :: utf8_decode t1
      else if b1 <? 0xE0 then
        match t1 with
        | [] => [REPLACEMENT]
        | b2 :: t2 =>
            if is_cont b2
            then ((b1 - 0xC0) * 64 + (b2 - 0x80)) :: utf8_decode t2
            else REPLACEMENT :: utf8_decode t1
        end
      else if b1 <? 0xF0 then
        match t1 with
        | [] => [REPLACEMENT]
        | b2 :: t2 =>
            if second_ok3 b1 b2 then
              match t2 with
              | [] => [REPLACEMENT]
              | b3 :: t3 =>
                  if is_cont b3
                  then ((b1 - 0xE0) * 4096 + (b2 - 0x80) * 64 + (b3 - 0x80))
                         :: utf8_decode t3
                  else REPLACEMENT :: utf8_decode t2
              end
            else REPLACEMENT :: utf8_decode t1
        end
      else if b1 <? 0xF5 then
        match t1 with
        | [] => [REPLACEMENT]
        | b2 :: t2 =>
            if second_ok4 b1 b2 then
              match t2 with
              | [] => [REPLACEMENT]
              | b3 :: t3 =>
                  if is_cont b3 then
                    match t3 with
                    | [] => [REPLACEMENT]
                    | b4 :: t4 =>
                        if is_cont b4
                        then ((b1 - 0xF0) * 262144 + (b2 - 0x80) * 4096
                              + (b3 - 0x80) * 64 + (b4 - 0x80))
                               :: utf8_decode t4
                        else REPLACEMENT :: utf8_decode t3
                    end
                  else REPLACEMENT :: utf8_decode t2
              end
            else REPLACEMENT :: utf8_decode t1
        end
      else REPLACEMENT :: utf8_decode t1
  end.

(** Message types. *)
Definition SERVERDATA_AUTH : Z := 3.
Definition SERVERDATA_EXECCOMMAND : Z := 2.
Definition SERVERDATA_RESPONSE_VALUE : Z := 0.

(** The frame [_send_packet] builds before handing it to [sendall]:
    [payload = body.encode("utf-8") + b"\x00\x00"],
    [length = 4 + 4 + len(payload)],
    [struct.pack("<iii", length, req_id, p_type) + payload]. *)
Inductive frame_error := EncodeError | PackError.

Definition build_packet (req_id p_type : Z) (body : pystr)
  : bytes + frame_error :=
  match utf8_encode body with
  | None => inr EncodeError
  | Some b =>
      let payload := b ++ [0; 0] in
      let length := 4 + 4 + blen payload in
      match pack_iii length req_id p_type with
      | None => inr PackError
      | Some hdr => inl (hdr ++ payload)
      end
  end.

End Wire.
Import Wire.

(* ================================================================== *)
(** ** class SimpleRCON *)
(* ================================================================== *)

Module Rcon.

(** Exceptions: the class and [str(e)]. *)
Inductive exn_kind : Type :=
| RuntimeError | ConnectionError | PermissionError | OSError
| StructError | UnicodeEncodeError | AttributeError.

Record exn : Type := Exn { exn_class : exn_kind; exn_text : pystr }.

(** Outcome of a call: a value, a raised exception, or no outcome within
    the fuel given to a loop. *)
Inductive result (A : Type) : Type :=
| Ok (a : A)
| Raise (e : exn)
| Diverge.
Arguments Ok {A} a.
Arguments Raise {A} e.
Arguments Diverge {A}.

(** What the other end does on one socket: whether [connect] fails, what
    each [recv] delivers in turn (a chunk of bytes or an error such as a
    timeout; after the last event the peer has closed and [recv] returns
    [b""]), and whether each [sendall] in turn fails. *)
Inductive recv_event : Type :=
| Data (chunk : bytes)
| RecvFails (e : exn).

Record Peer : Type := {
  connect_error : option exn;
  incoming : list recv_event;
  send_errors : list (option exn);
}.

(** The network: the peer met by the n-th socket this process creates. *)
Definition Net := nat -> Peer.

Record Socket : Type := {
  fd : nat;
  inbox : list recv_event;
  sendq : list (option exn);
  sent : bytes;
}.

(** Sockets created so far, and those created and not yet closed. *)
Record World : Type := {
  created : nat;
  open_fds : list nat;
}.

Record SimpleRCON : Type := {
  host : pystr;
  port : Z;
  password : pystr;
  sock : option Socket;
  req_id : Z;
}.

(** [__init__] (the [timeout] attribute, a float handed to
    [settimeout], has no counterpart here: a timeout is a [RecvFails]
    event of the peer). *)
Definition init (h : pystr) (p : Z) (pw : pystr) : SimpleRCON :=
  {| host := h; port := p; password := pw; sock := None; req_id := 0 |}.

Definition set_sock (o : option Socket) (c : SimpleRCON) : SimpleRCON :=
  {| host := host c; port := port c; password := password c;
     sock := o; req_id := req_id c |}.

Definition set_req_id (n : Z) (c : SimpleRCON) : SimpleRCON :=
  {| host := host c; port := port c; password := password c;
     sock := sock c; req_id := n |}.

Definition set_inbox (evs : list recv_event) (sk : Socket) : Socket :=
  {| fd := fd sk; inbox := evs; sendq := sendq sk; sent := sent sk |}.

Definition close_fd (h : nat) (w : World) : World :=
  {| created := created w;
     open_fds := List.filter (fun x => negb (x =? h)%nat) (open_fds w) |}.

(** The client object together with the world it acts on. *)
Record Session : Type := { self : SimpleRCON; world : World }.

Definition M (A : Type) : Type := Session -> result A * Session.

Definition ret {A} (a : A) : M A := fun s => (Ok a, s).
Definition raise {A} (e : exn) : M A := fun s => (Raise e, s).
Definition bind {A B} (m : M A) (k : A -> M B) : M B :=
  fun s =>
    match m s with
    | (Ok a, s') => k a s'
    | (Raise e, s') => (Raise e, s')
    | (Diverge, s') => (Diverge, s')
    end.
Definition get_self : M SimpleRCON := fun s => (Ok (self s), s).
Definition put_self (c : SimpleRCON) : M unit :=
  fun s => (Ok tt, {| self := c; world := world s |}).

Declare Scope rcon_scope.
Delimit Scope rcon_scope with rcon.
Notation "x <- m ;; k" := (bind m (fun x => k))
  (at level 100, m at next level, right associativity) : rcon_scope.
Notation "m ;; k" := (bind m (fun _ => k))
  (at level 100, right associativity) : rcon_scope.
Local Open Scope rcon_scope.

Definition not_connected : exn :=
  Exn RuntimeError (py "RCON socket not connected").
Definition connection_closed : exn :=
  Exn ConnectionError (py "RCON connection closed").
Definition auth_failed : exn :=
  Exn PermissionError (py "RCON auth failed").
Definition no_recv_attribute : exn :=
  Exn AttributeError (py "'NoneType' object has no attribute 'recv'").

(** [sock.sendall(packet)] *)
Definition sendall (packet : bytes) (sk : Socket) : result unit * Socket :=
  match sendq sk with
  | Some e :: q =>
      (Raise e, {| fd := fd sk; inbox := inbox sk; sendq := q; sent := sent sk |})
  | None :: q =>
      (Ok tt, {| fd := fd sk; inbox := inbox sk; sendq := q;
                 sent := sent sk ++ packet |})
  | [] =>
      (Ok tt, {| fd := fd sk; inbox := inbox sk; sendq := [];
                 sent := sent sk ++ packet |})
  end.

(** The loop of [_recv_exact], by recursion on the events still to be
    delivered, with [sock.recv(size - len(buf))] in place: a chunk no
    longer than what is missing is taken whole, a longer one is cut and
    its rest stays in the socket; an empty chunk or no event at all is
    [recv] returning [b""]. *)
Fixpoint recv_loop (size : Z) (buf : bytes) (evs : list recv_event)
  : result bytes * list recv_event :=
  if blen buf <? size then
    match evs with
    | [] => (Raise connection_closed, [])
    | RecvFails e :: rest => (Raise e, rest)
    | Data chunk :: rest =>
        let n := Z.to_nat (size - blen buf) in
        if (length chunk <=? n)%nat then
          match chunk with
          | [] => (Raise connection_closed, rest)
          | _ :: _ => recv_loop size (buf ++ chunk) rest
          end
        else (Ok (buf ++ firstn n chunk), Data (skipn n chunk) :: rest)
    end
  else (Ok buf, evs).

Section Methods.
Context `{PyRuntime}.
Variable net : Net.

Definition _connect : M unit :=
  fun s =>
    let h := created (world s) in
    let p := net h in
    let sk := {| fd := h; inbox := incoming p;
                 sendq := send_errors p; sent := [] |} in
    let s' := {| self := set_sock (Some sk) (self s);
                 world := {| created := S h;
                             open_fds := h :: open_fds (world s) |} |} in
    match connect_error p with
    | Some e => (Raise e, s')
    | None => (Ok tt, s')
    end.

Definition _close : M unit :=
  fun s =>
    match sock (self s) with
    | Some sk =>
        (Ok tt, {| self := set_sock None (self s);
                   world := close_fd (fd sk) (world s) |})
    | None =>
        (Ok tt, {| self := set_sock None (self s); world := world s |})
    end.

Definition _next_id : M Z :=
  c <- get_self ;;
  put_self (set_req_id (req_id c + 1) c) ;;
  c' <- get_self ;;
  ret (req_id c').

Definition _send_packet (rid p_type : Z) (body : pystr) : M unit :=
  fun s =>
    match sock (self s) with
    | None => (Raise not_connected, s)
    | Some sk =>
        match build_packet rid p_type body with
        | inr EncodeError =>
            (Raise (Exn UnicodeEncodeError (encode_error_text body)), s)
        | inr PackError => (Raise (Exn StructError struct_error_text), s)
        | inl packet =>
            let (r, sk') := sendall packet sk in
            (r, {| self := set_sock (Some sk') (self s); world := world s |})
        end
    end.

Definition _recv_exact (size : Z) : M bytes :=
  fun s =>
    match sock (self s) with
    | None => (Raise no_recv_attribute, s)
    | Some sk =>
        let (r, evs) := recv_loop size [] (inbox sk) in
        (r, {| self := set_sock (Some (set_inbox evs sk)) (self s);
               world := world s |})
    end.

(** The result triple; [None] is [(None, None, None)]. *)
Definition packet : Type := option (Z * Z * pystr).

Definition _read_packet : M packet :=
  c <- get_self ;;
  match sock c with
  | None => raise not_connected
  | Some _ =>
      raw_len <- _recv_exact 4 ;;
      match raw_len with
      | [] => ret None
      | _ :: _ =>
          match unpack_i raw_len with
          | None => raise (Exn StructError struct_error_text)
          | Some length =>
              data <- _recv_exact length ;;
              match data with
              | [] => ret None
              | _ :: _ =>
                  if blen data <? 8 then ret None
                  else
                    match unpack_ii (pyslice 0 8 data) with
                    | None => raise (Exn StructError struct_error_text)
                    | Some (rid, p_type) =>
                        ret (Some (rid, p_type,
                                   utf8_decode (pyslice 8 (-2) data)))
                    end
              end
          end
      end
  end.

Definition auth : M unit :=
  rid <- _next_id ;;
  c <- get_self ;;
  _send_packet rid SERVERDATA_AUTH (password c) ;;
  _ <- _read_packet ;;
  p2 <- _read_packet ;;
  match p2 with
  | Some (rid2, ptype2, _) =>
      if (rid2 =? -1) || negb (ptype2 =? SERVERDATA_RESPONSE_VALUE)
      then raise auth_failed
      else ret tt
  | None => raise auth_failed   (* None != 0 *)
  end.

(** The [while True] loop of [command]; every round that goes on has
    taken at least the four bytes of a length field out of the
    socket, which bounds the number of rounds. *)
Fixpoint command_loop (fuel : nat) (rid : Z) (responses : list pystr)
  : M (list pystr) :=
  match fuel with
  | O => fun s => (Diverge, s)
  | S fuel' =>
      p <- _read_packet ;;
      match p with
      | None => ret responses
      | Some (resp_id, _, body) =>
          let responses' := responses ++ [body] in
          if resp_id =? rid then ret responses'
          else command_loop fuel' rid responses'
      end
  end.

Fixpoint pending_bytes (evs : list recv_event) : nat :=
  match evs with
  | [] => O
  | Data chunk :: rest => (length chunk + pending_bytes rest)%nat
  | RecvFails _ :: rest => pending_bytes rest
  end.

Definition rounds_bound (c : SimpleRCON) : nat :=
  match sock c with
  | Some sk => S (pending_bytes (inbox sk))
  | None => 1%nat
  end.

Definition command (cmd : pystr) : M pystr :=
  c <- get_self ;;
  match sock c with
  | None => _connect ;; auth
  | Some _ => ret tt
  end ;;
  rid <- _next_id ;;
  _send_packet rid SERVERDATA_EXECCOMMAND cmd ;;
  c' <- get_self ;;
  responses <- command_loop (rounds_bound c') rid [] ;;
  ret (join NEWLINE responses).

Definition close : M unit := _close.

Definition __enter__ : M unit := _connect ;; auth.

Definition __exit__ : M unit := _close.

(** [with SimpleRCON(host, port, password) as r: body]. When
    [__enter__] raises, [__exit__] is not called; otherwise it is
    called whether the body returns or raises, and what the body
    raised goes on to the caller. The object is new, the world is the
    caller's. *)
Definition with_SimpleRCON {A} (h : pystr) (p : Z) (pw : pystr)
           (body : M A) (w : World) : result A * Session :=
  let s0 := {| self := init h p pw; world := w |} in
  match __enter__ s0 with
  | (Ok _, s1) =>
      match body s1 with
      | (Diverge, s2) => (Diverge, s2)
      | (r, s2) => let (_, s3) := __exit__ s2 in (r, s3)
      end
  | (Raise e, s1) => (Raise e, s1)
  | (Diverge, s1) => (Diverge, s1)
  end.

End Methods.

End Rcon.
Import Rcon.

(* ================================================================== *)
(** ** class MinecraftServerManager *)
(* ================================================================== *)

Module Mgr.

(** A reading of [time.time()]; it is stored and handed back, never
    computed with. *)
Definition timestamp := Z.

(** An entry of [console_log]: [{"id": ..., "line": ...}]. *)
Record LogEntry : Type := { entry_id : Z; entry_line : pystr }.

(** [collections.deque(maxlen=...)] as the list of its items, oldest
    first; [append] adds on the right and, once the length exceeds
    [maxlen], drops on the left. *)
Definition deque_append {A} (maxlen : nat) (d : list A) (x : A) : list A :=
  let d' := d ++ [x] in
  if (maxlen <? length d')%nat then tail d' else d'.

Definition MAXLEN : nat := 2000.

(** The child process as [subprocess.Popen] shows it: [poll()] is [None]
    while it runs and the exit code afterwards. *)
Record Popen : Type := { pid : nat; returncode : option Z }.

Definition poll (p : Popen) : option Z := returncode p.

(** Background threads the manager has started. *)
Inductive Thread : Type :=
| StopWorker (proc : Popen).

(** An item of the answer of [get_online_players]:
    [{"name": n, "last_seen": player_last_seen.get(n)}]. *)
Record PlayerInfo : Type := { name : pystr; last_seen : option timestamp }.

Record Manager : Type := {
  start_command : pystr;
  server_dir : pystr;
  auto_restart : bool;
  process : option Popen;
  console_log : list LogEntry;
  running : bool;
  _log_id : Z;
  user_requested_stop : bool;
  players_online : gset pystr;
  player_last_seen : gmap pystr timestamp;
  rcon_host : pystr;
  rcon_port : Z;
  rcon_pass : pystr;
  rcon_enabled : bool;
  _rcon_fail_count : Z;
  _rcon_disabled_reason : option pystr;
  threads_started : list Thread;
}.

(** [__init__]; the three RCON settings are the values read from the
    environment ([RCON_HOST], [RCON_PORT], [RCON_PASS]) after their
    defaults. *)
Definition init (cmd dir : pystr) (restart : bool)
           (env_host : pystr) (env_port : Z) (env_pass : pystr) : Manager :=
  {| start_command := cmd; server_dir := dir; auto_restart := restart;
     process := None; console_log := []; running := false; _log_id := 0;
     user_requested_stop := false;
     players_online := ∅; player_last_seen := ∅;
     rcon_host := env_host; rcon_port := env_port; rcon_pass := env_pass;
     rcon_enabled := truthy env_pass;
     _rcon_fail_count := 0; _rcon_disabled_reason := None;
     threads_started := [] |}.

Definition set_log (n : Z) (l : list LogEntry) (m : Manager) : Manager :=
  {| start_command := start_command m; server_dir := server_dir m;
     auto_restart := auto_restart m; process := process m;
     console_log := l; running := running m; _log_id := n;
     user_requested_stop := user_requested_stop m;
     players_online := players_online m;
     player_last_seen := player_last_seen m;
     rcon_host := rcon_host m; rcon_port := rcon_port m;
     rcon_pass := rcon_pass m; rcon_enabled := rcon_enabled m;
     _rcon_fail_count := _rcon_fail_count m;
     _rcon_disabled_reason := _rcon_disabled_reason m;
     threads_started := threads_started m |}.

Definition set_players (o : gset pystr) (seen : gmap pystr timestamp)
           (m : Manager) : Manager :=
  {| start_command := start_command m; server_dir := server_dir m;
     auto_restart := auto_restart m; process := process m;
     console_log := console_log m; running := running m;
     _log_id := _log_id m;
     user_requested_stop := user_requested_stop m;
     players_online := o; player_last_seen := seen;
     rcon_host := rcon_host m; rcon_port := rcon_port m;
     rcon_pass := rcon_pass m; rcon_enabled := rcon_enabled m;
     _rcon_fail_count := _rcon_fail_count m;
     _rcon_disabled_reason := _rcon_disabled_reason m;
     threads_started := threads_started m |}.

Definition set_rcon_failures (n : Z) (reason : option pystr) (m : Manager)
  : Manager :=
  {| start_command := start_command m; server_dir := server_dir m;
     auto_restart := auto_restart m; process := process m;
     console_log := console_log m; running := running m;
     _log_id := _log_id m;
     user_requested_stop := user_requested_stop m;
     players_online := players_online m;
     player_last_seen := player_last_seen m;
     rcon_host := rcon_host m; rcon_port := rcon_port m;
     rcon_pass := rcon_pass m; rcon_enabled := rcon_enabled m;
     _rcon_fail_count := n; _rcon_disabled_reason := reason;
     threads_started := threads_started m |}.

Definition set_stop_requested (b : bool) (ts : list Thread) (m : Manager)
  : Manager :=
  {| start_command := start_command m; server_dir := server_dir m;
     auto_restart := auto_restart m; process := process m;
     console_log := console_log m; running := running m;
     _log_id := _log_id m;
     user_requested_stop := b;
     players_online := players_online m;
     player_last_seen := player_last_seen m;
     rcon_host := rcon_host m; rcon_port := rcon_port m;
     rcon_pass := rcon_pass m; rcon_enabled := rcon_enabled m;
     _rcon_fail_count := _rcon_fail_count m;
     _rcon_disabled_reason := _rcon_disabled_reason m;
     threads_started := ts |}.

(** [_parse_list_response] *)
Definition _parse_list_response (resp : pystr) : list pystr :=
  if negb (truthy resp) then []
  else
    let names_part :=
      if contains COLON resp
      then strip (nth 1 (split1 COLON resp) [])
      else [] in
    if negb (truthy names_part) then []
    else
      List.map strip
        (List.filter (fun n => truthy (strip n)) (split COMMA names_part)).

Definition str_le (a b : pystr) : Prop := Is_true (str_leb a b).

(** [sorted(a_set_of_str)] *)
Definition sorted_names (names : gset pystr) : list pystr :=
  merge_sort str_le (elements names).

Section Methods.
Context `{PyRuntime}.
Variable net : Net.

(** [A-Za-z0-9_] and [0-9A-Fa-f\.:] under [re.IGNORECASE]. *)
Definition name_class (c : Z) : bool :=
  in_range_i 65 90 c || in_range_i 97 122 c || in_range_i 48 57 c
  || lit_matches 95 c.

Definition addr_class (c : Z) : bool :=
  in_range_i 48 57 c || in_range_i 65 70 c || in_range_i 97 102 c
  || lit_matches 46 c || lit_matches 58 c.

(** r"]:\s*([A-Za-z0-9_]+)\[/[0-9A-Fa-f\.:]+:\d+\]\s+logged in with entity id" *)
Definition _join_re : regex :=
  Seq (text "]:") (Seq (Star is_space) (Seq (Group (Plus name_class))
  (Seq (text "[/") (Seq (Plus addr_class) (Seq (Lit 58)
  (Seq (Plus is_decimal) (Seq (Lit 93) (Seq (Plus is_space)
  (text "logged in with entity id"))))))))).

(** r"]:\s*([A-Za-z0-9_]+)\s+(?:lost connection|disconnected|left the game|timed out)" *)
Definition _quit_re : regex :=
  Seq (text "]:") (Seq (Star is_space) (Seq (Group (Plus name_class))
  (Seq (Plus is_space)
     (Alt (text "lost connection") (Alt (text "disconnected")
     (Alt (text "left the game") (text "timed out"))))))).

(** The event a line carries, if any: the first part of
    [_process_player_events], up to [if not name: return]. *)
Inductive event : Type :=
| Joined (who : pystr)
| Left (who : pystr).

Definition player_event (line : pystr) : option event :=
  let txt := strip line in
  match search _join_re txt with
  | Some g =>
      match g with
      | Some n => if truthy n then Some (Joined n) else None
      | None => None
      end
  | None =>
      match search _quit_re txt with
      | Some (Some n) => if truthy n then Some (Left n) else None
      | _ => None
      end
  end.

Definition _process_player_events (line : pystr) (now : timestamp)
           (m : Manager) : Manager :=
  match player_event line with
  | None => m
  | Some (Joined n) =>
      set_players ({[n]} ∪ players_online m)
                  (<[n := now]> (player_last_seen m)) m
  | Some (Left n) =>
      set_players (players_online m ∖ {[n]})
                  (<[n := now]> (player_last_seen m)) m
  end.

(** [_add_log_line]; [now] is what [time.time()] returns should the
    line carry an event. *)
Definition _add_log_line (line : pystr) (now : timestamp) (m : Manager)
  : Manager :=
  let n := _log_id m + 1 in
  let m1 :=
    set_log n
      (deque_append MAXLEN (console_log m)
         {| entry_id := n; entry_line := rstrip_nl line |}) m in
  _process_player_events line now m1.

Definition get_logs_since (last_id : Z) (m : Manager) : list LogEntry :=
  List.filter (fun entry => last_id <? entry_id entry) (console_log m).

(** The manager together with the world its RCON clients act on. *)
Record System : Type := { mgr : Manager; sys_world : World }.

Definition failed_line (count : Z) (msg : pystr) : pystr :=
  py "[PANEL] RCON /list failed (attempt " ++ str_of_int count
     ++ py "): " ++ msg.

Definition disabled_line (msg : pystr) : pystr :=
  py "[PANEL] RCON permanently disabled after repeated failures: "
     ++ msg ++ py ". "
     ++ py "Falling back to log-based player tracking only.".

(** The [except Exception as e] branch of [_rcon_list]. *)
Definition rcon_failure (e : exn) (now1 now2 : timestamp) (m : Manager)
  : Manager :=
  let count := _rcon_fail_count m + 1 in
  let m1 := set_rcon_failures count (_rcon_disabled_reason m) m in
  let msg := exn_text e in
  let m2 := _add_log_line (failed_line count msg) now1 m1 in
  if 3 <=? _rcon_fail_count m2
  then _add_log_line (disabled_line msg) now2
         (set_rcon_failures (_rcon_fail_count m2) (Some msg) m2)
  else m2.

(** [_rcon_list]; [now1], [now2] are the clock readings of the two
    log lines of the failure branch. *)
Definition _rcon_list (now1 now2 : timestamp) (st : System)
  : result (option (list pystr)) * System :=
  let m := mgr st in
  if negb (rcon_enabled m) || negb (truthy (rcon_pass m))
  then (Ok None, st)
  else
    match _rcon_disabled_reason m with
    | Some _ => (Ok None, st)
    | None =>
        match with_SimpleRCON net (rcon_host m) (rcon_port m) (rcon_pass m)
                (command net (py "list")) (sys_world st) with
        | (Ok resp, s) =>
            (Ok (Some (_parse_list_response resp)),
             {| mgr := m; sys_world := world s |})
        | (Raise e, s) =>
            (Ok None,
             {| mgr := rcon_failure e now1 now2 m; sys_world := world s |})
        | (Diverge, s) =>
            (Diverge, {| mgr := m; sys_world := world s |})
        end
    end.

(** The answer built at the end of [get_online_players]. *)
Definition online_report (m : Manager) : list PlayerInfo :=
  List.map (fun n => {| name := n; last_seen := player_last_seen m !! n |})
           (sorted_names (players_online m)).

(** The update after a successful poll. *)
Definition poll_update (names : list pystr) (now : timestamp) (m : Manager)
  : Manager :=
  set_players (list_to_set names)
    (fold_left (fun seen n => <[n := now]> seen) names (player_last_seen m))
    m.

Definition get_online_players (now now1 now2 : timestamp) (st : System)
  : result (list PlayerInfo) * System :=
  match _rcon_list now1 now2 st with
  | (Ok names, st1) =>
      let m1 :=
        match names with
        | Some ns => poll_update ns now (mgr st1)
        | None => mgr st1
        end in
      (Ok (online_report m1), {| mgr := m1; sys_world := sys_world st1 |})
  | (Raise e, st1) => (Raise e, st1)
  | (Diverge, st1) => (Diverge, st1)
  end.

Definition is_running (m : Manager) : bool :=
  match process m with
  | Some proc => match poll proc with None => true | Some _ => false end
  | None => false
  end.

(** [stop]; the thread it starts is recorded, its run is not part of
    the call. *)
Definition stop (now : timestamp) (m : Manager) : bool * Manager :=
  match process m with
  | None => (false, m)
  | Some proc =>
      match poll proc with
      | Some _ => (false, m)
      | None =>
          let m1 :=
            set_stop_requested true
              (threads_started m ++ [StopWorker proc]) m in
          (true, _add_log_line (py "[PANEL] Stop requested.") now m1)
      end
  end.

End Methods.

End Mgr.
Import Mgr.

(* ================================================================== *)
(** ** Vocabulary of the statements *)
(* ================================================================== *)

Module Props.

(** The last [k] items of a list. *)
Definition lastn {A} (k : nat) (l : list A) : list A :=
  skipn (length l - k) l.

(** The entries a run of appends produces when ids are dealt from
    [start] upwards. *)
Fixpoint numbered (start : Z) (lines : list pystr) : list LogEntry :=
  match lines with
  | [] => []
  | l :: rest =>
      {| entry_id := start; entry_line := rstrip_nl l |}
        :: numbered (start + 1) rest
  end.

(** Ids that go up by exactly one from item to item. *)
Fixpoint consecutive (ids : list Z) : Prop :=
  match ids with
  | a :: (b :: _) as rest => b = a + 1 /\ consecutive rest
  | _ => True
  end.

(** The cut at the first [sep]: what stands before it and what stands
    after it; [None] when there is no [sep]. *)
Fixpoint split_at_first (sep : Z) (s : pystr) : option (pystr * pystr) :=
  match s with
  | [] => None
  | c :: t =>
      if c =? sep then Some ([], t)
      else match split_at_first sep t with
           | Some (l, r) => Some (c :: l, r)
           | None => None
           end
  end.

(** The parsing of a list reply in the words of the specification:
    split once on the first colon; no colon, or a right-hand side that
    is empty after trimming, gives the empty list; otherwise split the
    right-hand side on commas, trim each token, drop the empty ones. *)
Definition parse_list_spec (resp : pystr) : list pystr :=
  match split_at_first COLON resp with
  | None => []
  | Some (_, rhs) =>
      if truthy (strip rhs)
      then List.filter truthy (List.map strip (split COMMA rhs))
      else []
  end.

(** A Unicode scalar value: a code point that is not a surrogate.
    These are the characters UTF-8 can carry. *)
Definition is_scalar (c : Z) : bool :=
  ((0 <=? c) && (c <? 0xD800)) || ((0xE000 <=? c) && (c <=? 0x10FFFF)).

(** Number of bytes a string takes in UTF-8. *)
Definition utf8_width (c : Z) : Z :=
  if c <? 0x80 then 1 else if c <? 0x800 then 2
  else if c <? 0x10000 then 3 else 4.

Definition utf8_size (s : pystr) : Z :=
  fold_right (fun c n => utf8_width c + n) 0 s.

(** The bytes a run of receive events delivers, and the runs that
    deliver without failing: only data, no empty chunk. *)
Fixpoint stream_bytes (evs : list recv_event) : bytes :=
  match evs with
  | [] => []
  | Data chunk :: rest => chunk ++ stream_bytes rest
  | RecvFails _ :: rest => stream_bytes rest
  end.

Definition delivers (ev : recv_event) : Prop :=
  match ev with
  | Data (_ :: _) => True
  | _ => False
  end.

Definition clean (evs : list recv_event) : Prop := List.Forall delivers evs.

(** A list of pieces with one character added at the end of the last. *)
Fixpoint extend_last (w : Z) (pieces : list pystr) : list pystr :=
  match pieces with
  | [] => [[w]]
  | [p] => [p ++ [w]]
  | p :: rest => p :: extend_last w rest
  end.

(** The client holds socket [h] and the world is [w]. *)
Definition holds (h : nat) (w : World) (s : Session) : Prop :=
  world s = w /\ exists sk, sock (self s) = Some sk /\ fd sk = h.

(** A computation under which the client goes on holding its socket. *)
Definition keeps {A} (h : nat) (w : World) (m : M A) : Prop :=
  forall s, holds h w s -> holds h w (snd (m s)).

(** A computation that always comes to an outcome. *)
Definition total {A} (m : M A) : Prop :=
  forall s, fst (m s) <> Diverge.

(** Bytes the socket of the client has still to deliver. *)
Definition pending (s : Session) : nat :=
  match sock (self s) with
  | Some sk => pending_bytes (inbox sk)
  | None => O
  end.

(** The frame of a packet, for the examples. *)
Definition frame (rid p_type : Z) (body : pystr) : bytes :=
  match build_packet rid p_type body with
  | inl pkt => pkt
  | inr _ => []
  end.


(** A server whose second answer to AUTH repeats the request id and
    has type 2. *)
Definition type2_net : Net :=
  fun _ =>
    {| connect_error := None;
       incoming := [Data (frame 1 SERVERDATA_RESPONSE_VALUE (py ""));
                    Data (frame 1 2 (py ""))];
       send_errors := [] |}.

(** A server that refuses the password: the second answer has id -1. *)
Definition refusing_net : Net :=
  fun _ =>
    {| connect_error := None;
       incoming := [Data (frame 1 SERVERDATA_RESPONSE_VALUE (py ""));
                    Data (frame (-1) SERVERDATA_RESPONSE_VALUE (py ""))];
       send_errors := [] |}.

(** A server that cannot be reached. *)
Definition unreachable_net : Net :=
  fun _ =>
    {| connect_error :=
         Some (Exn OSError (py "[Errno 111] Connection refused"));
       incoming := [];
       send_errors := [] |}.

(** A manager whose process handle is [p]. *)
Definition with_process (p : option Popen) (m : Manager) : Manager :=
  {| start_command := start_command m; server_dir := server_dir m;
     auto_restart := auto_restart m; process := p;
     console_log := console_log m; running := running m;
     _log_id := _log_id m;
     user_requested_stop := user_requested_stop m;
     players_online := players_online m;
     player_last_seen := player_last_seen m;
     rcon_host := rcon_host m; rcon_port := rcon_port m;
     rcon_pass := rcon_pass m; rcon_enabled := rcon_enabled m;
     _rcon_fail_count := _rcon_fail_count m;
     _rcon_disabled_reason := _rcon_disabled_reason m;
     threads_started := threads_started m |}.

Section WithRuntime.
Context `{PyRuntime}.

(** A run of [_add_log_line] calls, each line with the clock reading
    of its call. *)
Definition add_lines (lines : list (pystr * timestamp)) (m : Manager)
  : Manager :=
  fold_left (fun acc lt => _add_log_line (fst lt) (snd lt) acc) lines m.

Variable net : Net.

(** The private methods of a client, called in any order. *)
Inductive call : Type :=
| CallNextId
| CallConnect
| CallClose
| CallSend (rid p_type : Z) (body : pystr)
| CallRead.

(** One call; the id it generated, if it is [_next_id]. *)
Definition run_call (k : call) (s : Session) : option Z * Session :=
  match k with
  | CallNextId =>
      match _next_id s with
      | (Ok i, s') => (Some i, s')
      | (_, s') => (None, s')
      end
  | CallConnect => (None, snd (_connect net s))
  | CallClose => (None, snd (_close s))
  | CallSend rid p_type body => (None, snd (_send_packet rid p_type body s))
  | CallRead => (None, snd (_read_packet s))
  end.

(** A run of calls; the ids generated, in order. *)
Fixpoint run_calls (ks : list call) (s : Session) : list Z * Session :=
  match ks with
  | [] => ([], s)
  | k :: rest =>
      let (o, s1) := run_call k s in
      let (ids, s2) := run_calls rest s1 in
      (match o with Some i => i :: ids | None => ids end, s2)
  end.

Definition is_next_id (k : call) : bool :=
  match k with CallNextId => true | _ => false end.


(** The poll of [_rcon_list]:
    [with SimpleRCON(...) as r: resp = r.command("list")]. *)
Definition poll_attempt (st : System) : result pystr * Session :=
  with_SimpleRCON net (rcon_host (mgr st)) (rcon_port (mgr st))
    (rcon_pass (mgr st)) (command net (py "list")) (sys_world st).


(** Polling is on: configured and not yet disabled. *)
Definition polling (m : Manager) : Prop :=
  rcon_enabled m = true /\ truthy (rcon_pass m) = true
  /\ _rcon_disabled_reason m = None.

(** The public operations of the manager that this development
    models, called in any order. *)
Inductive mgr_call : Type :=
| CallRconList (now1 now2 : timestamp)
| CallGetOnlinePlayers (now now1 now2 : timestamp)
| CallAddLogLine (line : pystr) (now : timestamp)
| CallGetLogsSince (last_id : Z)
| CallStop (now : timestamp).

Definition run_mgr_call (st : System) (k : mgr_call) : System :=
  match k with
  | CallRconList now1 now2 => snd (_rcon_list net now1 now2 st)
  | CallGetOnlinePlayers now now1 now2 =>
      snd (get_online_players net now now1 now2 st)
  | CallAddLogLine line now =>
      {| mgr := _add_log_line line now (mgr st);
         sys_world := sys_world st |}
  | CallGetLogsSince _ => st
  | CallStop now =>
      {| mgr := snd (stop now (mgr st)); sys_world := sys_world st |}
  end.

Definition run_mgr_calls (ks : list mgr_call) (st : System) : System :=
  fold_left run_mgr_call ks st.


End WithRuntime.

End Props.
Import Props.

Module Notions.

(** Every identity that is online has a last-seen entry. *)
Definition presence_ok (m : Manager) : Prop :=
  forall n, n ∈ players_online m -> is_Some (player_last_seen m !! n).

(** The failure counter and the breaker agree: the counter stays within
    0..3 and the breaker is closed exactly below 3. *)
Definition breaker_ok (m : Manager) : Prop :=
  0 <= _rcon_fail_count m <= 3
  /\ (_rcon_disabled_reason m = None <-> _rcon_fail_count m < 3).

End Notions.
Import Notions.

Module Marks.

(** The two characters every event pattern starts with: a closing
    bracket followed at once by a colon. *)
Fixpoint has_marker (s : pystr) : bool :=
  match s with
  | [] => false
  | c :: t =>
      ((c =? 93) && match t with d :: _ => d =? 58 | [] => false end)
      || has_marker t
  end.

(** A pattern without a capturing group. *)
Fixpoint groupless (r : regex) : bool :=
  match r with
  | Group _ => false
  | Seq r1 r2 | Alt r1 r2 => groupless r1 && groupless r2
  | _ => true
  end.

(** Two texts that [re.IGNORECASE] does not tell apart: the first is the
    text of the pattern. *)
Definition same_ignoring_case (pattern text : pystr) : Prop :=
  List.Forall2 (fun p c => lit_matches p c = true) pattern text.

(** The four phrases of the quit pattern. *)
Definition quit_phrases : list pystr :=
  [py "lost connection"; py "disconnected"; py "left the game";
   py "timed out"].

End Marks.
Import Marks.

Module Samples.

(** A server that accepts the password and reports two players. *)
Definition listing_net : Net :=
  fun _ =>
    {| connect_error := None;
       incoming := [Data (frame 1 SERVERDATA_RESPONSE_VALUE (py "")
                          ++ frame 1 SERVERDATA_RESPONSE_VALUE (py ""));
                    Data (frame 2 SERVERDATA_RESPONSE_VALUE
                            (py "There are 2 of a max 20 players online: Kai, Alex"))];
       send_errors := [] |}.

(** A new manager with and without an RCON password, in a world with
    no socket yet. *)
Definition configured : System :=
  {| mgr := Mgr.init (py "java -jar server.jar") (py "/srv/mc") true
                     (py "127.0.0.1") 25575 (py "hunter2");
     sys_world := {| created := 0; open_fds := [] |} |}.

Definition unconfigured : System :=
  {| mgr := Mgr.init (py "java -jar server.jar") (py "/srv/mc") true
                     (py "127.0.0.1") 25575 (py "");
     sys_world := {| created := 0; open_fds := [] |} |}.

(** A client that has authenticated on socket 0, whose peer delivers
    [evs], and the world in which that socket is the only one. *)
Definition connected_to (evs : list recv_event) : SimpleRCON :=
  {| host := py "127.0.0.1"; port := 25575; password := py "hunter2";
     sock := Some {| fd := 0; inbox := evs; sendq := []; sent := [] |};
     req_id := 1 |}.

Definition one_socket : World := {| created := 1; open_fds := [0%nat] |}.

(** A manager that has seen one player. *)
Definition one_seen : Manager :=
  set_players ∅ {[ py "Kai" := 10 ]} (mgr configured).

End Samples.
Import Samples.

Module Streams.

(** A packet as [_read_packet] returns it: request id, type, body. *)
Definition reply : Type := (Z * Z * pystr)%type.

Definition reply_id (p : reply) : Z := fst (fst p).
Definition reply_body (p : reply) : pystr := snd p.

(** A packet that the framing of [_send_packet] accepts. *)
Definition buildable (p : reply) : bool :=
  match build_packet (fst (fst p)) (snd (fst p)) (snd p) with
  | inl _ => true
  | inr _ => false
  end.

(** The bytes of a run of packets on the wire. *)
Definition wire (ps : list reply) : bytes :=
  List.concat (List.map (fun p => frame (fst (fst p)) (snd (fst p)) (snd p)) ps).

End Streams.
Import Streams.

Module History.

(** [items.sort(key=lambda kv: kv[1], reverse=True)]: descending by
    the time stamp; the sort is stable, so items with the same stamp
    stay in the order they had. By insertion, from the right. *)
Fixpoint insert_desc (x : pystr * timestamp) (l : list (pystr * timestamp))
  : list (pystr * timestamp) :=
  match l with
  | [] => [x]
  | y :: r => if snd y <=? snd x then x :: y :: r else y :: insert_desc x r
  end.

Definition sort_desc (l : list (pystr * timestamp))
  : list (pystr * timestamp) :=
  fold_right insert_desc [] l.

(** [get_recent_players]; [items] is
    [list(self.player_last_seen.items())], the entries of the map in
    the order of the dict. *)
Definition get_recent_players (limit : Z) (items : list (pystr * timestamp))
  : list PlayerInfo :=
  List.map (fun kv => {| name := fst kv; last_seen := Some (snd kv) |})
           (pyslice 0 limit (sort_desc items)).

(** [a] was seen no earlier than [b]. *)
Definition seen_no_earlier (a b : PlayerInfo) : Prop :=
  exists x y, last_seen a = Some x /\ last_seen b = Some y /\ y <= x.

End History.
Import History.

Module Life.

(** The children the manager has launched, as the operating system has
    them: how many were launched (children are numbered in the order
    of their launch, and that number is the [pid] of the handle), the
    exit code of those that have ended, what was written to the
    standard input of each, and who was sent SIGKILL. *)
Record Os : Type := {
  launched : nat;
  exit_codes : gmap nat Z;
  stdin_log : list (nat * pystr);
  killed : list nat;
}.

(** Threads started with [target=self._reader_loop] and
    [target=self._watcher_loop]. *)
Inductive task : Type := ReaderLoop | WatcherLoop.

(** The manager, the children, and the reader and watcher threads
    started so far. *)
Record Site : Type := {
  site_mgr : Manager;
  site_os : Os;
  site_tasks : list task;
}.

Definition set_running (b : bool) (m : Manager) : Manager :=
  {| start_command := start_command m; server_dir := server_dir m;
     auto_restart := auto_restart m; process := process m;
     console_log := console_log m; running := b;
     _log_id := _log_id m;
     user_requested_stop := user_requested_stop m;
     players_online := players_online m;
     player_last_seen := player_last_seen m;
     rcon_host := rcon_host m; rcon_port := rcon_port m;
     rcon_pass := rcon_pass m; rcon_enabled := rcon_enabled m;
     _rcon_fail_count := _rcon_fail_count m;
     _rcon_disabled_reason := _rcon_disabled_reason m;
     threads_started := threads_started m |}.

(** The settings page of the panel assigns [start_command] and
    [auto_restart] of the running manager. *)
Definition configure (cmd : pystr) (restart : bool) (m : Manager) : Manager :=
  {| start_command := cmd; server_dir := server_dir m;
     auto_restart := restart; process := process m;
     console_log := console_log m; running := running m;
     _log_id := _log_id m;
     user_requested_stop := user_requested_stop m;
     players_online := players_online m;
     player_last_seen := player_last_seen m;
     rcon_host := rcon_host m; rcon_port := rcon_port m;
     rcon_pass := rcon_pass m; rcon_enabled := rcon_enabled m;
     _rcon_fail_count := _rcon_fail_count m;
     _rcon_disabled_reason := _rcon_disabled_reason m;
     threads_started := threads_started m |}.

Definition with_mgr (m : Manager) (s : Site) : Site :=
  {| site_mgr := m; site_os := site_os s; site_tasks := site_tasks s |}.

(** [proc.poll()] for a handle somebody holds: what the operating
    system says about that child now. *)
Definition poll_at (o : Os) (proc : Popen) : option Z :=
  exit_codes o !! pid proc.

(** [a is b] for two handles. *)
Definition same_handle (a b : Popen) : bool := (pid a =? pid b)%nat.

(** [subprocess.Popen(...)]: a new child and its handle, or the error
    the call raises (a working directory that does not exist, no
    process left to fork). *)
Definition spawn (launch : option exn) (o : Os) : result Popen * Os :=
  match launch with
  | Some e => (Raise e, o)
  | None =>
      (Ok {| pid := launched o; returncode := None |},
       {| launched := S (launched o); exit_codes := exit_codes o;
          stdin_log := stdin_log o; killed := killed o |})
  end.

(** The environment: child [p] ends with [code]. The handle of the
    manager, if it is that child's, shows it from then on. *)
Definition child_exits (p : nat) (code : Z) (s : Site) : Site :=
  let o := site_os s in
  if (p <? launched o)%nat && negb (bool_decide (is_Some (exit_codes o !! p)))
  then
    let m := site_mgr s in
    let m' :=
      match process m with
      | Some proc =>
          if (pid proc =? p)%nat
          then with_process (Some {| pid := p; returncode := Some code |}) m
          else m
      | None => m
      end in
    {| site_mgr := m';
       site_os := {| launched := launched o;
                     exit_codes := <[p := code]> (exit_codes o);
                     stdin_log := stdin_log o; killed := killed o |};
       site_tasks := site_tasks s |}
  else s.

(** [proc.kill()] *)
Definition kill (proc : Popen) (s : Site) : Site :=
  let o := site_os s in
  {| site_mgr := site_mgr s;
     site_os := {| launched := launched o; exit_codes := exit_codes o;
                   stdin_log := stdin_log o;
                   killed := killed o ++ [pid proc] |};
     site_tasks := site_tasks s |}.

Section Methods.
Context `{PyRuntime}.

Definition log_line (line : pystr) (now : timestamp) (s : Site) : Site :=
  with_mgr (_add_log_line line now (site_mgr s)) s.

(** The line [start] ends with. *)
Definition rcon_status_line (m : Manager) : pystr :=
  if negb (truthy (rcon_pass m))
  then py "[PANEL] RCON disabled: RCON_PASS env var is empty or not set."
  else py "[PANEL] RCON configured on " ++ rcon_host m ++ py ":"
          ++ str_of_int (rcon_port m)
          ++ py " (SimpleRCON; will auto-disable on repeated failures).".

(** [start]; [launch] is what [Popen] does, [now1] and [now2] are the
    clock readings of the two log lines. *)
Definition start (launch : option exn) (now1 now2 : timestamp) (s : Site)
  : result bool * Site :=
  let m := site_mgr s in
  if is_running m then (Ok false, s)
  else
    let m1 := set_stop_requested false (threads_started m) m in
    match spawn launch (site_os s) with
    | (Ok proc, o1) =>
        let m2 := set_running true (with_process (Some proc) m1) in
        let m3 := _add_log_line (py "[PANEL] Server started.") now1 m2 in
        let m4 := _add_log_line (rcon_status_line m3) now2 m3 in
        (Ok true,
         {| site_mgr := m4; site_os := o1;
            site_tasks := site_tasks s ++ [ReaderLoop; WatcherLoop] |})
    | (Raise e, o1) =>
        (Raise e, {| site_mgr := m1; site_os := o1;
                     site_tasks := site_tasks s |})
    | (Diverge, o1) =>
        (Diverge, {| site_mgr := m1; site_os := o1;
                     site_tasks := site_tasks s |})
    end.

(** [stop], on a site. *)
Definition call_stop (now : timestamp) (s : Site) : bool * Site :=
  let (r, m) := stop now (site_mgr s) in (r, with_mgr m s).

(** [send_command]; [wr] is what writing to the pipe and flushing it
    does. The handle's [stdin] is a pipe object and as such never
    false, so the third test of the guard never decides. *)
Definition send_command (cmd : pystr) (wr : option exn) (now : timestamp)
           (s : Site) : result bool * Site :=
  let m := site_mgr s in
  match process m with
  | None => (Ok false, s)
  | Some proc =>
      match poll proc with
      | Some _ => (Ok false, s)
      | None =>
          match wr with
          | Some e => (Raise e, s)
          | None =>
              let o := site_os s in
              (Ok true,
               {| site_mgr := _add_log_line (py "> " ++ cmd) now m;
                  site_os :=
                    {| launched := launched o; exit_codes := exit_codes o;
                       stdin_log := stdin_log o ++ [(pid proc, cmd ++ [10])];
                       killed := killed o |};
                  site_tasks := site_tasks s |})
          end
      end
  end.

(** [_do_restart_locked] *)
Definition _do_restart_locked (launch : option exn) (now : timestamp)
           (s : Site) : result unit * Site :=
  match spawn launch (site_os s) with
  | (Ok proc, o1) =>
      let m1 := set_running true (with_process (Some proc) (site_mgr s)) in
      (Ok tt,
       {| site_mgr :=
            _add_log_line (py "[PANEL] Server restarted (auto-restart).")
                          now m1;
          site_os := o1;
          site_tasks := site_tasks s ++ [ReaderLoop; WatcherLoop] |})
  | (Raise e, _) => (Raise e, s)
  | (Diverge, _) => (Diverge, s)
  end.

(** One round of the loop of [_watcher_loop], after its sleep: whether
    the loop goes on. *)
Inductive verdict : Type := GoOn | Break.

Definition stopped_line (ret : Z) : pystr :=
  py "[PANEL] Server stopped with code " ++ str_of_int ret ++ py ".".

Definition watcher_round (launch : option exn) (now1 now2 now3 : timestamp)
           (s : Site) : result verdict * Site :=
  let m := site_mgr s in
  match process m with
  | None => (Ok Break, s)
  | Some proc =>
      match poll proc with
      | None => (Ok GoOn, s)
      | Some ret =>
          let m1 := set_running false m in
          let m2 := _add_log_line (stopped_line ret) now1 m1 in
          if auto_restart m2 && negb (user_requested_stop m2)
          then
            let m3 :=
              _add_log_line
                (py "[PANEL] Auto-restart enabled, restarting server...")
                now2 m2 in
            match _do_restart_locked launch now3 (with_mgr m3 s) with
            | (Ok _, s') => (Ok Break, s')
            | (Raise e, s') => (Raise e, s')
            | (Diverge, s') => (Diverge, s')
            end
          else
            let m3 :=
              if user_requested_stop m2
              then _add_log_line
                     (py "[PANEL] Server stopped by user request.") now2 m2
              else m2 in
            (Ok Break,
             with_mgr (set_stop_requested false (threads_started m3) m3) s)
      end
  end.

(** The wait of [_stop_worker]: up to [n] sleeps of a second, each
    followed by a look at the child; [during i] is what the other
    threads and the children do during sleep number [i]. *)
Fixpoint wait_for_exit (n i : nat) (during : nat -> Site -> Site)
         (proc : Popen) (s : Site) : Site :=
  match n with
  | O => s
  | S n' =>
      let s1 := during i s in
      match poll_at (site_os s1) proc with
      | Some _ => s1
      | None => wait_for_exit n' (S i) during proc s1
      end
  end.

(** [_stop_worker]; whatever [send_command] does, returning or
    raising, is dropped. *)
Definition _stop_worker (proc : Popen) (wr : option exn)
           (now1 now2 now3 : timestamp) (during : nat -> Site -> Site)
           (s : Site) : Site :=
  let s1 := snd (send_command (py "stop") wr now1 s) in
  let s2 :=
    log_line (py "[PANEL] Sent 'stop' command. Waiting for shutdown...")
             now2 s1 in
  let s3 := wait_for_exit 30 0 during proc s2 in
  let s4 :=
    match poll_at (site_os s3) proc with
    | None => kill proc (log_line (py "[PANEL] Forcing server kill.") now3 s3)
    | Some _ => s3
    end in
  match process (site_mgr s4) with
  | Some p =>
      if same_handle p proc
      then with_mgr (with_process None (set_running false (site_mgr s4))) s4
      else s4
  | None => s4
  end.


(** The restart of the scheduler of the panel: [stop()], five seconds
    of sleep, [start()]; what [start] returns is the result. [during]
    is what the other threads and the children do during the sleep. *)
Definition scheduled_restart (now : timestamp) (during : Site -> Site)
           (launch : option exn) (now1 now2 : timestamp) (s : Site)
  : result bool * Site :=
  let s1 := snd (call_stop now s) in
  start launch now1 now2 (during s1).

End Methods.

(** A site whose handle, if any, shows what the operating system
    knows, and where only launched children have ended. *)
Definition in_step (s : Site) : Prop :=
  (forall p, is_Some (exit_codes (site_os s) !! p) ->
             (p < launched (site_os s))%nat)
  /\ match process (site_mgr s) with
     | Some proc =>
         (pid proc < launched (site_os s))%nat
         /\ returncode proc = exit_codes (site_os s) !! pid proc
     | None => True
     end.

(** Sleeps during which the child [proc] goes on, the handle of the
    manager stays, and nobody is killed. *)
Definition child_survives (during : nat -> Site -> Site) (proc : Popen)
  : Prop :=
  forall i s,
    poll_at (site_os s) proc = None ->
    poll_at (site_os (during i s)) proc = None
    /\ process (site_mgr (during i s)) = process (site_mgr s)
    /\ killed (site_os (during i s)) = killed (site_os s).

(** Sleeps during which nothing happens but at second [k]. *)
Definition only_at (k : nat) (event : Site -> Site) : nat -> Site -> Site :=
  fun i s => if (i =? k)%nat then event s else s.

End Life.
Import Life.

Module Sites.

(** A new manager that has launched nothing yet. *)
Definition idle_site : Site :=
  {| site_mgr := mgr configured;
     site_os := {| launched := 0; exit_codes := ∅; stdin_log := [];
                   killed := [] |};
     site_tasks := [] |}.

(** The first child and its handle while it runs. *)
Definition first_child : Popen := {| pid := 0; returncode := None |}.

(** A manager whose first child runs. *)
Definition running_site : Site :=
  {| site_mgr :=
       set_running true (with_process (Some first_child) (mgr configured));
     site_os := {| launched := 1; exit_codes := ∅; stdin_log := [];
                   killed := [] |};
     site_tasks := [ReaderLoop; WatcherLoop] |}.

(** A manager whose first child has ended with code 1. *)
Definition crashed_site : Site :=
  {| site_mgr :=
       set_running true
         (with_process (Some {| pid := 0; returncode := Some 1 |})
                       (mgr configured));
     site_os := {| launched := 1; exit_codes := {[ 0%nat := 1 ]};
                   stdin_log := []; killed := [] |};
     site_tasks := [ReaderLoop; WatcherLoop] |}.

End Sites.
Import Sites.

(* ================================================================== *)
(** ** The console log: ids and retention (C1, C8) *)
(* ================================================================== *)

Section ConsoleLog.
Context `{PyRuntime}.

Lemma process_player_events_log line now m :
  console_log (_process_player_events line now m) = console_log m
  /\ _log_id (_process_player_events line now m) = _log_id m.
Proof.
  unfold _process_player_events.
  destruct (player_event line) as [[n|n]|]; simpl; auto.
Qed.

Lemma add_log_line_log line now m :
  console_log (_add_log_line line now m)
  = deque_append MAXLEN (console_log m)
      {| entry_id := _log_id m + 1; entry_line := rstrip_nl line |}
  /\ _log_id (_add_log_line line now m) = _log_id m + 1.
Proof.
  unfold _add_log_line.
  destruct (process_player_events_log line now
    (set_log (_log_id m + 1)
       (deque_append MAXLEN (console_log m)
          {| entry_id := _log_id m + 1; entry_line := rstrip_nl line |}) m))
    as [-> ->].
  simpl. auto.
Qed.

Lemma lastn_length {A} k (l : list A) :
  length (lastn k l) = Nat.min k (length l).
Proof. unfold lastn. rewrite length_skipn. lia. Qed.

Lemma deque_append_lastn {A} k (d : list A) x :
  (length d <= k)%nat -> deque_append k d x = lastn k (d ++ [x]).
Proof.
  intros Hd. unfold deque_append, lastn.
  rewrite length_app. simpl.
  destruct (Nat.ltb_spec k (length d + 1)) as [Hlt|Hge].
  - replace (length d + 1 - k)%nat with 1%nat by lia.
    destruct (d ++ [x]); reflexivity.
  - replace (length d + 1 - k)%nat with 0%nat by lia. reflexivity.
Qed.

Lemma lastn_app_lastn {A} k (a b : list A) :
  lastn k (lastn k a ++ b) = lastn k (a ++ b).
Proof.
  unfold lastn.
  destruct (Nat.le_gt_cases (length a) k) as [Hle|Hgt].
  - replace (length a - k)%nat with 0%nat by lia. reflexivity.
  - rewrite !length_app, length_skipn.
    replace (length a - (length a - k) + length b - k)%nat
      with (length b) by lia.
    replace (length a + length b - k)%nat
      with (length b + (length a - k))%nat by lia.
    rewrite <- skipn_skipn. f_equal.
    rewrite skipn_app.
    replace (length a - k - length a)%nat with 0%nat by lia.
    reflexivity.
Qed.

Lemma numbered_length start lines :
  length (numbered start lines) = length lines.
Proof. revert start. induction lines; simpl; intros; auto. Qed.

(** After any run of appends the buffer holds the last [MAXLEN] of what
    it held plus the new entries, numbered on from the counter. *)
Lemma add_lines_log lines : forall m,
  (length (console_log m) <= MAXLEN)%nat ->
  console_log (add_lines lines m)
  = lastn MAXLEN (console_log m ++ numbered (_log_id m + 1) (List.map fst lines))
  /\ _log_id (add_lines lines m) = _log_id m + Z.of_nat (length lines).
Proof.
  induction lines as [|[l t] rest IH]; intros m Hm.
  - simpl. rewrite app_nil_r. split; [|lia].
    unfold lastn. replace (length (console_log m) - MAXLEN)%nat with 0%nat by lia.
    reflexivity.
  - cbn [add_lines fold_left fst snd List.map numbered].
    destruct (add_log_line_log l t m) as [Hlog Hid].
    fold (add_lines rest (_add_log_line l t m)).
    destruct (IH (_add_log_line l t m)) as [IH1 IH2].
    { rewrite Hlog, deque_append_lastn by exact Hm.
      rewrite lastn_length. lia. }
    rewrite IH1, IH2, Hlog, Hid. split.
    + rewrite deque_append_lastn by exact Hm.
      rewrite lastn_app_lastn. rewrite <- app_assoc. reflexivity.
    + simpl length. lia.
Qed.

Lemma numbered_ids lines : forall start,
  List.map entry_id (numbered start lines)
  = List.map (fun i => start + Z.of_nat i) (seq 0 (length lines)).
Proof.
  induction lines as [|l rest IH]; intros start; [reflexivity|].
  simpl. rewrite IH. f_equal; [lia|].
  rewrite <- seq_shift, List.map_map.
  apply List.map_ext. intros i. lia.
Qed.

Lemma lastn_numbered_ids k lines :
  List.map entry_id (lastn k (numbered 1 lines))
  = List.map Z.of_nat
      (seq (S (length lines - k)) (Nat.min (length lines) k)).
Proof.
  unfold lastn. rewrite <- skipn_map, numbered_ids, numbered_length.
  rewrite skipn_map, skipn_seq.
  replace (Nat.min (length lines) k)
    with (length lines - (length lines - k))%nat by lia.
  simpl. rewrite <- seq_shift, List.map_map.
  apply List.map_ext. intros i. lia.
Qed.

Lemma seq_consecutive len : forall start,
  consecutive (List.map Z.of_nat (seq start len)).
Proof.
  induction len as [|len IH]; intros start; [exact I|].
  destruct len as [|len]; [exact I|].
  specialize (IH (S start)).
  cbn [seq List.map consecutive] in *. split; [lia|exact IH].
Qed.

Lemma filter_all {A} (f : A -> bool) (l : list A) :
  List.Forall (fun x => f x = true) l -> List.filter f l = l.
Proof.
  induction 1 as [|x l Hx _ IH]; [reflexivity|].
  simpl. rewrite Hx, IH. reflexivity.
Qed.

Lemma numbered_ids_positive lines : forall start,
  1 <= start ->
  List.Forall (fun e => (0 <? entry_id e) = true) (numbered start lines).
Proof.
  induction lines as [|l rest IH]; intros start Hs; constructor.
  - simpl. apply Z.ltb_lt. lia.
  - apply IH. lia.
Qed.

Lemma Forall_skipn {A} (P : A -> Prop) n (l : list A) :
  List.Forall P l -> List.Forall P (skipn n l).
Proof.
  intros Hl. revert n. induction Hl; intros [|n]; simpl; auto.
Qed.

Variables (cmd dir : pystr) (restart : bool).
Variables (env_host : pystr) (env_port : Z) (env_pass : pystr).

Local Abbreviation fresh :=
  (Mgr.init cmd dir restart env_host env_port env_pass).

(** The buffer of a fresh manager after a run of appends. *)
Lemma fresh_log lines :
  console_log (add_lines lines fresh)
  = lastn MAXLEN (numbered 1 (List.map fst lines))
  /\ _log_id (add_lines lines fresh) = Z.of_nat (length lines).
Proof.
  destruct (add_lines_log lines fresh) as [Hlog Hid].
  { simpl. unfold MAXLEN. lia. }
  split; [exact Hlog|]. rewrite Hid. reflexivity.
Qed.

(** C1 (as amended). For every run of appends on a fresh manager,
    [get_logs_since 0] returns the retained entries -- the last
    [min N 2000] of the [N] appended -- in append order; the k-th append
    got id k, so the ids returned are [max (N - 2000) 0 + 1 .. N],
    strictly increasing without gaps, and they start at 1 as long as no
    entry has been evicted. *)
Theorem get_logs_since_zero_ids (lines : list (pystr * timestamp)) :
  let N := length lines in
  let out := get_logs_since 0 (add_lines lines fresh) in
  out = lastn MAXLEN (numbered 1 (List.map fst lines))
  /\ List.map entry_id out
     = List.map Z.of_nat (seq (S (N - MAXLEN)) (Nat.min N MAXLEN))
  /\ consecutive (List.map entry_id out)
  /\ _log_id (add_lines lines fresh) = Z.of_nat N.
Proof.
  intros N out.
  destruct (fresh_log lines) as [Hlog Hid].
  assert (Hout : out = lastn MAXLEN (numbered 1 (List.map fst lines))).
  { unfold out, get_logs_since. rewrite Hlog.
    apply filter_all. unfold lastn.
    apply Forall_skipn, numbered_ids_positive. lia. }
  assert (Hids : List.map entry_id out
     = List.map Z.of_nat (seq (S (N - MAXLEN)) (Nat.min N MAXLEN))).
  { rewrite Hout, lastn_numbered_ids, length_map. reflexivity. }
  repeat split; auto.
  rewrite Hids. apply seq_consecutive.
Qed.

(** C8. Once more than 2000 lines have been appended, the buffer holds
    exactly the 2000 most recent entries in order (the oldest went
    first), their ids are the 2000 highest ones dealt, [N - 1999 .. N],
    and every evicted entry has a smaller id than every retained one. *)
Theorem ring_buffer_keeps_most_recent (lines : list (pystr * timestamp)) :
  (MAXLEN < length lines)%nat ->
  let N := length lines in
  let all := numbered 1 (List.map fst lines) in
  let log := console_log (add_lines lines fresh) in
  length log = MAXLEN
  /\ log = skipn (N - MAXLEN) all
  /\ all = firstn (N - MAXLEN) all ++ log
  /\ List.map entry_id log
     = List.map Z.of_nat (seq (S (N - MAXLEN)) MAXLEN)
  /\ List.Forall (fun old =>
       List.Forall (fun kept => entry_id old < entry_id kept) log)
       (firstn (N - MAXLEN) all).
Proof.
  intros HN N all log.
  destruct (fresh_log lines) as [Hlog _].
  assert (Hlen : length all = N).
  { unfold all. rewrite numbered_length, length_map. reflexivity. }
  assert (Hsk : log = skipn (N - MAXLEN) all).
  { unfold log. rewrite Hlog. unfold lastn. fold all. rewrite Hlen.
    reflexivity. }
  assert (Hids : List.map entry_id log
     = List.map Z.of_nat (seq (S (N - MAXLEN)) MAXLEN)).
  { unfold log. rewrite Hlog. unfold all.
    rewrite lastn_numbered_ids, length_map. fold N.
    replace (Nat.min N MAXLEN) with MAXLEN by lia. reflexivity. }
  split; [|split; [exact Hsk|split; [|split; [exact Hids|]]]].
  - rewrite Hsk, length_skipn, Hlen. lia.
  - rewrite Hsk. symmetry. apply firstn_skipn.
  - assert (Hold : List.map entry_id (firstn (N - MAXLEN) all)
                   = List.map (fun i => 1 + Z.of_nat i) (seq 0 (N - MAXLEN))).
    { rewrite <- firstn_map. unfold all. rewrite numbered_ids, length_map.
      fold N. rewrite firstn_map, take_seq.
      replace (Nat.min (N - MAXLEN) N) with (N - MAXLEN)%nat by lia.
      reflexivity. }
    apply List.Forall_forall. intros old Hin.
    apply List.Forall_forall. intros kept Hin'.
    apply (List.in_map entry_id) in Hin, Hin'.
    rewrite Hold in Hin. rewrite Hids in Hin'.
    apply List.in_map_iff in Hin as [i [Hi Hini]].
    apply List.in_map_iff in Hin' as [j [Hj Hinj]].
    apply List.in_seq in Hini, Hinj. lia.
Qed.

End ConsoleLog.

Section ConsoleLogExamples.
#[local] Existing Instance ascii_runtime.

Local Abbreviation fresh :=
  (Mgr.init (py "java -jar server.jar") (py "/srv/mc") true
            (py "127.0.0.1") 25575 (py "")).

Local Abbreviation ticks := (repeat (py "tick", 0) 2001).

(** C1, counterexample to the claim as stated: after 2001 appends the
    ids returned by [get_logs_since 0] start at 2, not at 1. *)
Lemma get_logs_since_zero_not_from_one :
  let out := get_logs_since 0 (add_lines ticks fresh) in
  List.hd_error (List.map entry_id out) = Some 2
  /\ List.map entry_id out <> List.map Z.of_nat (seq 1 (length out)).
Proof.
  vm_compute. split; [reflexivity|discriminate].
Qed.

Lemma ring_buffer_keeps_most_recent_witness :
  (MAXLEN < length ticks)%nat
  /\ length (console_log (add_lines ticks fresh)) = MAXLEN.
Proof.
  assert (Hlen : (MAXLEN < length ticks)%nat).
  { rewrite repeat_length. unfold MAXLEN. lia. }
  split; [exact Hlen|].
  exact (proj1 (ring_buffer_keeps_most_recent _ _ _ _ _ _ ticks Hlen)).
Defined.

End ConsoleLogExamples.

(* ================================================================== *)
(** ** Parsing the reply to "list" (C5) *)
(* ================================================================== *)

Section ParseList.

Lemma split_at_first_spec sep s l r :
  split_at_first sep s = Some (l, r) ->
  s = l ++ sep :: r /\ contains sep l = false.
Proof.
  revert l r. induction s as [|c t IH]; intros l r; simpl; [discriminate|].
  destruct (Z.eqb_spec c sep) as [->|Hne].
  - intros [= <- <-]. auto.
  - destruct (split_at_first sep t) as [[l' r']|]; [|discriminate].
    intros [= <- <-]. destruct (IH l' r' eq_refl) as [-> Hl].
    split; [reflexivity|]. simpl. rewrite Hl.
    destruct (Z.eqb_spec sep c); [congruence|reflexivity].
Qed.

Lemma split_at_first_none sep s :
  split_at_first sep s = None <-> contains sep s = false.
Proof.
  induction s as [|c t IH]; simpl; [tauto|].
  rewrite (Z.eqb_sym sep c).
  destruct (c =? sep); simpl; [split; discriminate|].
  destruct (split_at_first sep t) as [[l r]|]; rewrite <- IH;
    split; congruence.
Qed.

(** [split(sep, 1)[1]] is what stands after the first [sep]. *)
Lemma split1_second sep s l r :
  split_at_first sep s = Some (l, r) -> nth 1 (split1 sep s) [] = r.
Proof.
  revert l r. induction s as [|c t IH]; intros l r; simpl; [discriminate|].
  destruct (c =? sep); [intros [= <- <-]; reflexivity|].
  destruct (split_at_first sep t) as [[l' r']|] eqn:E; [|discriminate].
  intros [= <- <-]. specialize (IH l' r' eq_refl).
  destruct (split1 sep t) as [|h [|h2 rest]]; simpl in *; auto.
Qed.

Lemma split_nonempty sep s : split sep s <> [].
Proof.
  destruct s as [|c t]; simpl; [discriminate|].
  destruct (c =? sep); [discriminate|].
  destruct (split sep t); discriminate.
Qed.

(** [split] cuts at every [sep] and nowhere else. *)
Lemma join_split sep s : join sep (split sep s) = s.
Proof.
  induction s as [|c t IH]; [reflexivity|].
  simpl. destruct (c =? sep) eqn:E.
  - apply Z.eqb_eq in E. subst c.
    destruct (split sep t) as [|h r] eqn:Es.
    + exfalso. exact (split_nonempty _ _ Es).
    + change (join sep ([] :: h :: r)) with (sep :: join sep (h :: r)).
      rewrite IH. reflexivity.
  - destruct (split sep t) as [|h r] eqn:Es.
    + exfalso. exact (split_nonempty _ _ Es).
    + rewrite <- IH. destruct r; reflexivity.
Qed.

Lemma split_pieces_free sep s :
  List.Forall (fun piece => contains sep piece = false) (split sep s).
Proof.
  induction s as [|c t IH]; simpl; [repeat constructor|].
  destruct (Z.eqb_spec c sep) as [->|Hne]; [constructor; auto|].
  destruct (split sep t) as [|h r]; [repeat constructor; simpl|].
  - destruct (Z.eqb_spec sep c); [congruence|reflexivity].
  - inversion IH; subst. constructor; [|assumption].
    simpl. destruct (Z.eqb_spec sep c); [congruence|assumption].
Qed.

Section Trimming.
Variable p : Z -> bool.

Lemma rstrip_by_snoc_in s w :
  p w = true -> rstrip_by p (s ++ [w]) = rstrip_by p s.
Proof.
  intros Hw. induction s as [|c t IH]; simpl.
  - rewrite Hw. reflexivity.
  - rewrite IH. reflexivity.
Qed.

Lemma rstrip_by_snoc_out s x :
  p x = false -> rstrip_by p (s ++ [x]) = s ++ [x].
Proof.
  intros Hx. induction s as [|c t IH]; simpl.
  - rewrite Hx. reflexivity.
  - rewrite IH. destruct (t ++ [x]) eqn:E; [|reflexivity].
    destruct t; discriminate.
Qed.

Lemma lstrip_by_snoc_in s w :
  p w = true ->
  lstrip_by p (s ++ [w])
  = match lstrip_by p s with [] => [] | l => l ++ [w] end.
Proof.
  intros Hw. induction s as [|c t IH]; simpl.
  - rewrite Hw. reflexivity.
  - destruct (p c); [exact IH|reflexivity].
Qed.
End Trimming.

Lemma strip_snoc_space q w :
  is_space w = true -> strip (q ++ [w]) = strip q.
Proof.
  intros Hw. unfold strip. rewrite lstrip_by_snoc_in by exact Hw.
  destruct (lstrip_by is_space q) as [|c l]; [reflexivity|].
  apply rstrip_by_snoc_in. exact Hw.
Qed.

Lemma strip_cons_space w q :
  is_space w = true -> strip (w :: q) = strip q.
Proof. intros Hw. unfold strip. simpl. rewrite Hw. reflexivity. Qed.

Lemma split_snoc sep s w :
  w <> sep -> split sep (s ++ [w]) = extend_last w (split sep s).
Proof.
  intros Hne. induction s as [|c t IH]; simpl.
  - destruct (Z.eqb_spec w sep); [contradiction|reflexivity].
  - rewrite IH. destruct (c =? sep).
    + destruct (split sep t) eqn:E; [|reflexivity].
      exfalso. exact (split_nonempty _ _ E).
    + destruct (split sep t) as [|h [|h2 r]] eqn:E.
      * exfalso. exact (split_nonempty _ _ E).
      * reflexivity.
      * simpl. reflexivity.
Qed.

Lemma map_strip_extend_last w pieces :
  is_space w = true -> pieces <> [] ->
  List.map strip (extend_last w pieces) = List.map strip pieces.
Proof.
  intros Hw. induction pieces as [|q rest IH]; [contradiction|].
  intros _. destruct rest as [|q2 rest].
  - simpl. rewrite strip_snoc_space by exact Hw. reflexivity.
  - change (extend_last w (q :: q2 :: rest))
      with (q :: extend_last w (q2 :: rest)).
    cbn [List.map]. rewrite IH by discriminate. reflexivity.
Qed.

Lemma space_not_sep sep w : is_space sep = false -> is_space w = true -> w <> sep.
Proof. intros Hs Hw ->. congruence. Qed.

(** Trimming the whole text first does not change the trimmed tokens. *)
Lemma map_strip_split_rstrip sep s :
  is_space sep = false ->
  List.map strip (split sep (rstrip_by is_space s))
  = List.map strip (split sep s).
Proof.
  intros Hsep. induction s as [|x s IH] using rev_ind; [reflexivity|].
  destruct (is_space x) eqn:Hx.
  - rewrite rstrip_by_snoc_in by exact Hx. rewrite IH.
    rewrite split_snoc by (eapply space_not_sep; eassumption).
    rewrite map_strip_extend_last; auto using split_nonempty.
  - rewrite rstrip_by_snoc_out by exact Hx. reflexivity.
Qed.

Lemma map_strip_split_lstrip sep s :
  is_space sep = false ->
  List.map strip (split sep (lstrip_by is_space s))
  = List.map strip (split sep s).
Proof.
  intros Hsep. induction s as [|c t IH]; [reflexivity|].
  simpl lstrip_by. destruct (is_space c) eqn:Hc; [|reflexivity].
  rewrite IH. simpl.
  destruct (Z.eqb_spec c sep) as [->|_]; [congruence|].
  destruct (split sep t) as [|h r] eqn:E.
  - exfalso. exact (split_nonempty _ _ E).
  - simpl. rewrite strip_cons_space by exact Hc. reflexivity.
Qed.

Lemma map_strip_split_strip sep s :
  is_space sep = false ->
  List.map strip (split sep (strip s)) = List.map strip (split sep s).
Proof.
  intros Hsep. unfold strip at 2.
  rewrite map_strip_split_rstrip, map_strip_split_lstrip; auto.
Qed.

Lemma map_filter_strip (tokens : list pystr) :
  List.map strip (List.filter (fun n => truthy (strip n)) tokens)
  = List.filter truthy (List.map strip tokens).
Proof.
  induction tokens as [|q rest IH]; [reflexivity|].
  simpl. destruct (truthy (strip q)); simpl; rewrite IH; reflexivity.
Qed.

(** C5. [_parse_list_response] does what the specification says, on
    every input; and on the two replies of the specification it
    returns Alice and Bob, and nothing. *)
Theorem parse_list_response_correct :
  (forall resp, _parse_list_response resp = parse_list_spec resp)
  /\ _parse_list_response
       (py "There are 2 of a max 20 players online: Alice, Bob")
     = [py "Alice"; py "Bob"]
  /\ _parse_list_response (py "There are 0 of a max 20 players online:")
     = [].
Proof.
  split; [|split; reflexivity].
  intros resp. unfold _parse_list_response, parse_list_spec.
  destruct resp as [|c t]; [reflexivity|].
  cbn [truthy negb].
  destruct (split_at_first COLON (c :: t)) as [[l rhs]|] eqn:E.
  - assert (Hc : contains COLON (c :: t) = true).
    { destruct (contains COLON (c :: t)) eqn:Hc; [reflexivity|].
      apply split_at_first_none in Hc. congruence. }
    rewrite Hc, (split1_second _ _ _ _ E).
    destruct (truthy (strip rhs)); [|reflexivity].
    cbn [negb]. rewrite map_filter_strip.
    rewrite map_strip_split_strip by reflexivity. reflexivity.
  - apply split_at_first_none in E. rewrite E. reflexivity.
Qed.

End ParseList.

(* ================================================================== *)
(** ** The codec: encode, then decode (C6) *)
(* ================================================================== *)

Section Codec.
Context `{PyRuntime}.

Lemma unpack_le32 v : int32_ok v = true -> unpack_i (le32 v) = Some v.
Proof.
  unfold int32_ok. intros Hv.
  apply andb_true_iff in Hv as [Hlo Hhi].
  apply Z.leb_le in Hlo, Hhi.
  unfold le32, unpack_i. f_equal.
  destruct (Z.ltb_spec
    (v mod 4294967296 mod 256 + 256 * ((v mod 4294967296 / 256) mod 256)
     + 65536 * ((v mod 4294967296 / 65536) mod 256)
     + 16777216 * ((v mod 4294967296 / 16777216) mod 256)) 2147483648);
    Z.div_mod_to_equations; lia.
Qed.

Lemma le32_length v : length (le32 v) = 4%nat.
Proof. reflexivity. Qed.

Lemma decode_1 b1 rest :
  b1 < 0x80 -> utf8_decode (b1 :: rest) = b1 :: utf8_decode rest.
Proof.
  intros Hb. simpl. destruct (Z.ltb_spec b1 128); [reflexivity|lia].
Qed.

Ltac decide_tests :=
  repeat match goal with
    | |- context [?a <? ?b] => destruct (Z.ltb_spec a b); try lia
    | |- context [?a <=? ?b] => destruct (Z.leb_spec a b); try lia
    | |- context [?a =? ?b] => destruct (Z.eqb_spec a b); try lia
    end.

Lemma decode_2 b1 b2 rest :
  0xC2 <= b1 < 0xE0 -> 0x80 <= b2 < 0xC0 ->
  utf8_decode (b1 :: b2 :: rest)
  = ((b1 - 0xC0) * 64 + (b2 - 0x80)) :: utf8_decode rest.
Proof.
  intros H1 H2. cbn [utf8_decode]. unfold is_cont.
  decide_tests. reflexivity.
Qed.

Lemma decode_3 b1 b2 b3 rest :
  0xE0 <= b1 < 0xF0 -> 0x80 <= b2 < 0xC0 -> 0x80 <= b3 < 0xC0 ->
  (b1 = 0xE0 -> 0xA0 <= b2) -> (b1 = 0xED -> b2 < 0xA0) ->
  utf8_decode (b1 :: b2 :: b3 :: rest)
  = ((b1 - 0xE0) * 4096 + (b2 - 0x80) * 64 + (b3 - 0x80))
      :: utf8_decode rest.
Proof.
  intros H1 H2 H3 Hlow Hsur. cbn [utf8_decode].
  unfold second_ok3, is_cont.
  decide_tests; reflexivity.
Qed.

Lemma decode_4 b1 b2 b3 b4 rest :
  0xF0 <= b1 < 0xF5 -> 0x80 <= b2 < 0xC0 -> 0x80 <= b3 < 0xC0 ->
  0x80 <= b4 < 0xC0 ->
  (b1 = 0xF0 -> 0x90 <= b2) -> (b1 = 0xF4 -> b2 < 0x90) ->
  utf8_decode (b1 :: b2 :: b3 :: b4 :: rest)
  = ((b1 - 0xF0) * 262144 + (b2 - 0x80) * 4096 + (b3 - 0x80) * 64
     + (b4 - 0x80)) :: utf8_decode rest.
Proof.
  intros H1 H2 H3 H4 Hlow Hhigh. cbn [utf8_decode].
  unfold second_ok4, is_cont.
  decide_tests; reflexivity.
Qed.

Lemma decode_encode_cp c bc rest :
  utf8_encode_cp c = Some bc ->
  utf8_decode (bc ++ rest) = c :: utf8_decode rest.
Proof.
  unfold utf8_encode_cp.
  destruct (Z.ltb_spec c 0); [discriminate|].
  destruct (Z.ltb_spec c 0x80).
  { intros [= <-]. apply decode_1. assumption. }
  destruct (Z.ltb_spec c 0x800).
  { intros [= <-]. cbn [app]. rewrite decode_2.
    - f_equal. Z.div_mod_to_equations; lia.
    - Z.div_mod_to_equations; lia.
    - Z.div_mod_to_equations; lia. }
  destruct (Z.ltb_spec c 0x10000).
  { destruct (Z.leb_spec 0xD800 c); destruct (Z.leb_spec c 0xDFFF);
      cbn [andb]; try discriminate;
      intros [= <-]; cbn [app]; rewrite decode_3;
      try (f_equal; Z.div_mod_to_equations; lia);
      try (Z.div_mod_to_equations; lia). }
  destruct (Z.ltb_spec c 0x110000); [|discriminate].
  intros [= <-]. cbn [app]. rewrite decode_4;
    try (f_equal; Z.div_mod_to_equations; lia);
    try (Z.div_mod_to_equations; lia).
Qed.

Lemma decode_encode s : forall b,
  utf8_encode s = Some b -> utf8_decode b = s.
Proof.
  induction s as [|c t IH]; intros b; simpl.
  - intros [= <-]. reflexivity.
  - destruct (utf8_encode_cp c) as [bc|] eqn:Ec; [|discriminate].
    destruct (utf8_encode t) as [bt|]; [|discriminate].
    intros [= <-]. rewrite (decode_encode_cp _ _ _ Ec).
    rewrite (IH bt eq_refl). reflexivity.
Qed.

Lemma encode_cp_scalar c :
  is_scalar c = true ->
  exists bc, utf8_encode_cp c = Some bc /\ blen bc = utf8_width c.
Proof.
  unfold is_scalar, utf8_encode_cp, utf8_width. intros Hc.
  apply orb_true_iff in Hc as [Hc|Hc];
    apply andb_true_iff in Hc as [Hlo Hhi];
    apply Z.leb_le in Hlo;
    first [apply Z.ltb_lt in Hhi | apply Z.leb_le in Hhi].
  - destruct (Z.ltb_spec c 0); [lia|].
    destruct (Z.ltb_spec c 0x80); [eauto|].
    destruct (Z.ltb_spec c 0x800); [eauto|].
    destruct (Z.ltb_spec c 0x10000); [|lia].
    destruct (Z.leb_spec 0xD800 c); [lia|]. cbn [andb]. eauto.
  - destruct (Z.ltb_spec c 0); [lia|].
    destruct (Z.ltb_spec c 0x80); [lia|].
    destruct (Z.ltb_spec c 0x800); [lia|].
    destruct (Z.ltb_spec c 0x10000).
    + destruct (Z.leb_spec 0xD800 c); destruct (Z.leb_spec c 0xDFFF);
        try lia; cbn [andb]; eauto.
    + destruct (Z.ltb_spec c 0x110000); [eauto|lia].
Qed.

Lemma encode_scalars s :
  forallb is_scalar s = true ->
  exists b, utf8_encode s = Some b /\ blen b = utf8_size s.
Proof.
  induction s as [|c t IH]; simpl.
  - intros _. exists []. auto.
  - intros Hs. apply andb_true_iff in Hs as [Hc Ht].
    destruct (encode_cp_scalar c Hc) as [bc [-> Hbc]].
    destruct (IH Ht) as [bt [-> Hbt]].
    exists (bc ++ bt). split; [reflexivity|].
    unfold blen in *. rewrite length_app. lia.
Qed.

Lemma utf8_size_nonneg s : 0 <= utf8_size s.
Proof.
  induction s as [|c t IH]; simpl; [lia|].
  unfold utf8_width.
  destruct (c <? 0x80), (c <? 0x800), (c <? 0x10000); lia.
Qed.

(** [_recv_exact] on a run that delivers: it returns exactly the next
    [size] bytes, however they are cut into chunks, and leaves the
    rest in the socket. *)
Lemma recv_loop_delivers evs : forall size buf,
  clean evs ->
  blen buf <= size ->
  size - blen buf <= blen (stream_bytes evs) ->
  exists evs',
    recv_loop size buf evs
    = (Ok (buf ++ firstn (Z.to_nat (size - blen buf)) (stream_bytes evs)),
       evs')
    /\ clean evs'
    /\ stream_bytes evs'
       = skipn (Z.to_nat (size - blen buf)) (stream_bytes evs).
Proof.
  induction evs as [|ev rest IH]; intros size buf Hclean Hbuf Havail.
  - simpl in *. unfold blen in *. simpl in Havail.
    destruct (Z.ltb_spec (Z.of_nat (length buf)) size); [lia|].
    exists []. rewrite firstn_nil, app_nil_r, skipn_nil. auto.
  - inversion Hclean as [|? ? Hev Hrest]; subst.
    destruct ev as [chunk|e]; [|contradiction].
    destruct chunk as [|b chunk]; [contradiction|].
    cbn [recv_loop stream_bytes] in *.
    destruct (Z.ltb_spec (blen buf) size) as [Hlt|Hge].
    2:{ replace (size - blen buf) with 0 by lia. simpl.
        rewrite app_nil_r. exists (Data (b :: chunk) :: rest). auto. }
    set (n := Z.to_nat (size - blen buf)).
    assert (Hn : Z.of_nat n = size - blen buf) by (unfold n; lia).
    assert (Happ : blen (buf ++ b :: chunk)
                   = blen buf + Z.of_nat (length (b :: chunk))).
    { unfold blen. rewrite length_app. lia. }
    assert (Hall : blen ((b :: chunk) ++ stream_bytes rest)
                   = Z.of_nat (length (b :: chunk)) + blen (stream_bytes rest)).
    { unfold blen. rewrite length_app. lia. }
    destruct (Nat.leb_spec (length (b :: chunk)) n) as [Hle|Hgt].
    + destruct (IH size (buf ++ b :: chunk) Hrest) as [evs' [Hr [Hc Hs]]];
        [lia|lia|].
      assert (Hk : Z.to_nat (size - blen (buf ++ b :: chunk))
                   = (n - length (b :: chunk))%nat) by lia.
      rewrite Hk in Hr, Hs.
      exists evs'. rewrite Hr. split; [|split; [exact Hc|]].
      * f_equal. rewrite <- app_assoc. f_equal. f_equal.
        rewrite firstn_app.
        rewrite (firstn_all2 (b :: chunk)) by exact Hle. reflexivity.
      * rewrite Hs. rewrite skipn_app.
        rewrite (skipn_all2 (b :: chunk)) by exact Hle.
        reflexivity.
    + exists (Data (skipn n (b :: chunk)) :: rest).
      split; [|split].
      * f_equal. f_equal. f_equal. rewrite firstn_app.
        replace (n - length (b :: chunk))%nat with 0%nat by lia.
        rewrite firstn_O, app_nil_r. reflexivity.
      * constructor; [|exact Hrest]. simpl.
        destruct (skipn n (b :: chunk)) eqn:E; [|exact I].
        apply (f_equal (@length Z)) in E.
        rewrite length_skipn in E. simpl in E. simpl in Hgt. lia.
      * cbn [stream_bytes]. rewrite skipn_app.
        replace (n - length (b :: chunk))%nat with 0%nat by lia.
        reflexivity.
Qed.

Lemma recv_exact_delivers c sk w size :
  sock c = Some sk -> clean (inbox sk) ->
  0 <= size <= blen (stream_bytes (inbox sk)) ->
  exists evs',
    _recv_exact size {| self := c; world := w |}
    = (Ok (firstn (Z.to_nat size) (stream_bytes (inbox sk))),
       {| self := set_sock (Some (set_inbox evs' sk)) c; world := w |})
    /\ clean evs'
    /\ stream_bytes evs' = skipn (Z.to_nat size) (stream_bytes (inbox sk)).
Proof.
  intros Hsock Hclean Hsize.
  destruct (recv_loop_delivers (inbox sk) size [] Hclean) as [evs' [Hr [Hc Hs]]].
  { unfold blen. simpl. lia. }
  { unfold blen in *. simpl. lia. }
  exists evs'. unfold _recv_exact. cbn [self world]. rewrite Hsock, Hr.
  unfold blen in *. simpl length in *. rewrite Z.sub_0_r in *. auto.
Qed.

Lemma build_packet_shape rid ty body pkt :
  build_packet rid ty body = inl pkt ->
  exists enc,
    utf8_encode body = Some enc
    /\ int32_ok (blen enc + 10) = true
    /\ int32_ok rid = true /\ int32_ok ty = true
    /\ pkt = le32 (blen enc + 10) ++ (le32 rid ++ le32 ty ++ enc ++ [0; 0]).
Proof.
  unfold build_packet, pack_iii, pack_i.
  destruct (utf8_encode body) as [enc|]; [|discriminate].
  assert (Hlen : 4 + 4 + blen (enc ++ [0; 0]) = blen enc + 10).
  { unfold blen. rewrite length_app. simpl. lia. }
  rewrite Hlen.
  destruct (int32_ok (blen enc + 10)) eqn:El; [|discriminate].
  destruct (int32_ok rid) eqn:Er; [|discriminate].
  destruct (int32_ok ty) eqn:Et; [|discriminate].
  intros [= <-]. exists enc. auto.
Qed.

Lemma pyslice_prefix {A} (pre post : list A) :
  pyslice 0 (Z.of_nat (length pre)) (pre ++ post) = pre.
Proof.
  unfold pyslice, clamp_index. rewrite !length_app. simpl Z.ltb. cbn iota.
  destruct (Z.ltb_spec (Z.of_nat (length pre)) 0); [lia|].
  replace (Z.min 0 _) with 0 by lia.
  replace (Z.min _ _) with (Z.of_nat (length pre)) by lia.
  rewrite Z.sub_0_r, Nat2Z.id. change (Z.to_nat 0) with 0%nat.
  rewrite skipn_O.
  rewrite firstn_app, firstn_all, Nat.sub_diag. simpl. apply app_nil_r.
Qed.

Lemma pyslice_middle {A} (pre mid post : list A) :
  post <> [] ->
  pyslice (Z.of_nat (length pre)) (- Z.of_nat (length post))
          (pre ++ mid ++ post) = mid.
Proof.
  intros Hpost.
  assert (0 < length post)%nat by (destruct post; simpl; [congruence|lia]).
  unfold pyslice, clamp_index. rewrite !length_app.
  destruct (Z.ltb_spec (Z.of_nat (length pre)) 0); [lia|].
  destruct (Z.ltb_spec (- Z.of_nat (length post)) 0); [|lia].
  replace (Z.min (Z.of_nat (length pre)) _)
    with (Z.of_nat (length pre)) by lia.
  replace (Z.max 0 _ - _) with (Z.of_nat (length mid)) by lia.
  rewrite !Nat2Z.id, skipn_app, skipn_all, Nat.sub_diag, skipn_O.
  cbn [app].
  rewrite firstn_app, firstn_all, Nat.sub_diag. simpl. apply app_nil_r.
Qed.

Lemma take4_le32 v (tl : bytes) : firstn 4 (le32 v ++ tl) = le32 v.
Proof. reflexivity. Qed.

Lemma drop4_le32 v (tl : bytes) : skipn 4 (le32 v ++ tl) = tl.
Proof. reflexivity. Qed.

Lemma le32_cons v : exists b t, le32 v = b :: t.
Proof. unfold le32. eauto. Qed.

Lemma unpack_ii_le32 a b :
  int32_ok a = true -> int32_ok b = true ->
  unpack_ii (le32 a ++ le32 b) = Some (a, b).
Proof.
  intros Ha Hb.
  change (unpack_ii (le32 a ++ le32 b))
    with (match unpack_i (le32 a), unpack_i (le32 b) with
          | Some x, Some y => Some (x, y)
          | _, _ => None
          end).
  rewrite !unpack_le32 by assumption. reflexivity.
Qed.

(** [_read_packet] on a socket that delivers a frame built by
    [_send_packet]'s framing, in whatever chunks, followed by [more]. *)
Lemma read_packet_frame c sk w rid ty body pkt more :
  build_packet rid ty body = inl pkt ->
  sock c = Some sk -> clean (inbox sk) ->
  stream_bytes (inbox sk) = pkt ++ more ->
  exists evs',
    _read_packet {| self := c; world := w |}
    = (Ok (Some (rid, ty, body)),
       {| self := set_sock (Some (set_inbox evs' sk)) c; world := w |})
    /\ clean evs' /\ stream_bytes evs' = more.
Proof.
  intros Hpkt Hsock Hclean Hstream.
  destruct (build_packet_shape _ _ _ _ Hpkt)
    as [enc (Henc & Hl & Hr & Ht & ->)].
  set (L := blen enc + 10) in *.
  remember (le32 rid ++ le32 ty ++ enc ++ [0; 0]) as data eqn:Hdef.
  assert (Hdata : blen data = L).
  { rewrite Hdef. unfold L, blen. rewrite !length_app. simpl. lia. }
  assert (Hall : blen (stream_bytes (inbox sk)) = 4 + L + blen more).
  { rewrite Hstream. unfold blen in *. rewrite !length_app.
    rewrite le32_length. lia. }
  assert (0 <= blen more) by (unfold blen; lia).
  assert (0 <= blen enc) by (unfold blen; lia).
  destruct (recv_exact_delivers c sk w 4 Hsock Hclean)
    as [evs1 (E1 & C1 & S1)]; [lia|].
  rewrite Hstream in E1, S1.
  change (Z.to_nat 4) with 4%nat in E1, S1.
  rewrite <- app_assoc in E1, S1.
  rewrite take4_le32 in E1. rewrite drop4_le32 in S1.
  set (c1 := set_sock (Some (set_inbox evs1 sk)) c) in *.
  destruct (recv_exact_delivers c1 (set_inbox evs1 sk) w L eq_refl C1)
    as [evs2 (E2 & C2 & S2)].
  { cbn [inbox set_inbox]. rewrite S1. unfold blen in *.
    rewrite length_app. lia. }
  cbn [inbox set_inbox] in E2, S2. rewrite S1 in E2, S2.
  replace (Z.to_nat L) with (length data) in E2, S2
    by (unfold blen in Hdata; lia).
  rewrite firstn_app, firstn_all, Nat.sub_diag in E2.
  rewrite skipn_app, skipn_all, Nat.sub_diag in S2.
  simpl in E2, S2. rewrite app_nil_r in E2.
  exists evs2. split; [|split; assumption].
  unfold _read_packet, bind, get_self. cbn [self]. rewrite Hsock, E1.
  destruct (le32_cons L) as (b0 & t0 & Hb). rewrite Hb. rewrite <- Hb.
  rewrite unpack_le32 by exact Hl. rewrite E2.
  destruct (le32_cons rid) as (b1 & t1 & Hb1).
  assert (Hd : data = b1 :: (t1 ++ le32 ty ++ enc ++ [0; 0])).
  { rewrite Hdef, Hb1. reflexivity. }
  rewrite Hd. rewrite <- Hd.
  destruct (Z.ltb_spec (blen data) 8); [lia|].
  rewrite Hdef. rewrite app_assoc.
  change 8 with (Z.of_nat (length (le32 rid ++ le32 ty))).
  rewrite pyslice_prefix. rewrite unpack_ii_le32 by assumption.
  change (-2) with (- Z.of_nat (length [0; 0])).
  rewrite <- app_assoc. 
  unfold ret.
  replace (pyslice _ _ _) with enc.
  - rewrite (decode_encode _ _ Henc). reflexivity.
  - symmetry.
    rewrite (app_assoc (le32 rid)).
    apply (pyslice_middle (le32 rid ++ le32 ty) enc [0; 0]). discriminate.
Qed.

(** C6. A frame built by [_send_packet] -- request id and type that fit
    a 32-bit signed integer, a payload of Unicode scalar values (the
    strings UTF-8 can carry, the empty one included), a length that fits
    the length field -- is put on the wire as it is, and [_read_packet],
    reading it back in whatever chunks it arrives, returns the same
    request id, type and payload, and consumes exactly that frame. *)
Theorem frame_round_trip (rid p_type : Z) (body : pystr) :
  int32_ok rid = true -> int32_ok p_type = true ->
  forallb is_scalar body = true ->
  utf8_size body + 10 <= 2147483647 ->
  exists pkt,
    build_packet rid p_type body = inl pkt
    /\ (forall c sk w,
          sock c = Some sk -> hd None (sendq sk) = None ->
          _send_packet rid p_type body {| self := c; world := w |}
          = (Ok tt,
             {| self := set_sock
                          (Some {| fd := fd sk; inbox := inbox sk;
                                   sendq := tl (sendq sk);
                                   sent := sent sk ++ pkt |}) c;
                world := w |}))
    /\ (forall c sk w more,
          sock c = Some sk -> clean (inbox sk) ->
          stream_bytes (inbox sk) = pkt ++ more ->
          exists evs',
            _read_packet {| self := c; world := w |}
            = (Ok (Some (rid, p_type, body)),
               {| self := set_sock (Some (set_inbox evs' sk)) c;
                  world := w |})
            /\ clean evs' /\ stream_bytes evs' = more).
Proof.
  intros Hrid Hty Hbody Hsize.
  destruct (encode_scalars body Hbody) as [enc [Henc Hlen]].
  pose proof (utf8_size_nonneg body) as Hpos.
  assert (Hpkt : exists pkt, build_packet rid p_type body = inl pkt).
  { unfold build_packet, pack_iii, pack_i. rewrite Henc.
    assert (Hl : int32_ok (4 + 4 + blen (enc ++ [0; 0])) = true).
    { unfold int32_ok, blen in *. rewrite length_app. simpl length.
      apply andb_true_iff. split; apply Z.leb_le; lia. }
    rewrite Hl, Hrid, Hty. eauto. }
  destruct Hpkt as [pkt Hpkt]. exists pkt.
  split; [exact Hpkt|split].
  - intros c sk w Hsock Hsend.
    unfold _send_packet. cbn [self world]. rewrite Hsock, Hpkt.
    unfold sendall.
    destruct (sendq sk) as [|[e|] q]; simpl in Hsend;
      try discriminate; reflexivity.
  - intros c sk w more Hsock Hclean Hstream.
    exact (read_packet_frame c sk w rid p_type body pkt more
             Hpkt Hsock Hclean Hstream).
Qed.

End Codec.

Section CodecExamples.
#[local] Existing Instance ascii_runtime.

(** The empty payload: fourteen bytes on the wire, and back. *)
Example empty_payload_frame :
  build_packet 1 SERVERDATA_AUTH (py "")
  = inl [10; 0; 0; 0; 1; 0; 0; 0; 3; 0; 0; 0; 0; 0]
  /\ fst (_read_packet
            {| self := set_sock
                 (Some {| fd := 0%nat;
                          inbox := [Data [10; 0; 0]; Data [0; 1; 0; 0; 0; 3];
                                    Data [0; 0; 0; 0; 0]];
                          sendq := []; sent := [] |})
                 (Rcon.init (py "127.0.0.1") 25575 (py ""));
               world := {| created := 1; open_fds := [0%nat] |} |})
     = Ok (Some (1, SERVERDATA_AUTH, py "")).
Proof. split; reflexivity. Qed.

Lemma frame_round_trip_witness :
  let body := [104; 233; 8364; 128512] in
  int32_ok 7 = true /\ int32_ok SERVERDATA_EXECCOMMAND = true
  /\ forallb is_scalar body = true
  /\ utf8_size body + 10 <= 2147483647
  /\ exists pkt,
       build_packet 7 SERVERDATA_EXECCOMMAND body = inl pkt
       /\ forall c sk w more,
            sock c = Some sk -> clean (inbox sk) ->
            stream_bytes (inbox sk) = pkt ++ more ->
            exists evs',
              _read_packet {| self := c; world := w |}
              = (Ok (Some (7, SERVERDATA_EXECCOMMAND, body)),
                 {| self := set_sock (Some (set_inbox evs' sk)) c;
                    world := w |})
              /\ clean evs' /\ stream_bytes evs' = more.
Proof.
  intros body.
  assert (H1 : int32_ok 7 = true) by reflexivity.
  assert (H2 : int32_ok SERVERDATA_EXECCOMMAND = true) by reflexivity.
  assert (H3 : forallb is_scalar body = true) by reflexivity.
  assert (H4 : utf8_size body + 10 <= 2147483647) by (vm_compute; discriminate).
  repeat (split; [assumption|]).
  destruct (frame_round_trip 7 SERVERDATA_EXECCOMMAND body H1 H2 H3 H4)
    as [pkt [Hp [_ Hr]]].
  exists pkt. split; [exact Hp|exact Hr].
Defined.

End CodecExamples.

(* ================================================================== *)
(** ** Authentication (C2) *)
(* ================================================================== *)

Section Auth.
Context `{PyRuntime}.

(** A frame of any content: a length field and that many bytes. *)
Lemma read_packet_any c sk w n (content : bytes) more :
  int32_ok n = true -> blen content = n ->
  sock c = Some sk -> clean (inbox sk) ->
  stream_bytes (inbox sk) = le32 n ++ content ++ more ->
  exists p evs',
    _read_packet {| self := c; world := w |}
    = (Ok p, {| self := set_sock (Some (set_inbox evs' sk)) c; world := w |})
    /\ clean evs' /\ stream_bytes evs' = more.
Proof.
  intros Hn Hlen Hsock Hclean Hstream.
  assert (Hall : blen (stream_bytes (inbox sk)) = 4 + n + blen more).
  { rewrite Hstream. unfold blen in *. rewrite !length_app.
    rewrite le32_length. lia. }
  assert (0 <= blen more) by (unfold blen; lia).
  assert (0 <= n) by (unfold blen in Hlen; lia).
  destruct (recv_exact_delivers c sk w 4 Hsock Hclean)
    as [evs1 (E1 & C1 & S1)]; [lia|].
  rewrite Hstream in E1, S1.
  change (Z.to_nat 4) with 4%nat in E1, S1.
  rewrite take4_le32 in E1. rewrite drop4_le32 in S1.
  set (c1 := set_sock (Some (set_inbox evs1 sk)) c) in *.
  destruct (recv_exact_delivers c1 (set_inbox evs1 sk) w n eq_refl C1)
    as [evs2 (E2 & C2 & S2)].
  { cbn [inbox set_inbox]. rewrite S1. unfold blen in *.
    rewrite length_app. lia. }
  cbn [inbox set_inbox] in E2, S2. rewrite S1 in E2, S2.
  replace (Z.to_nat n) with (length content) in E2, S2
    by (unfold blen in Hlen; lia).
  rewrite firstn_app, firstn_all, Nat.sub_diag in E2.
  rewrite skipn_app, skipn_all, Nat.sub_diag in S2.
  simpl in E2, S2. rewrite app_nil_r in E2.
  unfold _read_packet, bind, get_self. cbn [self]. rewrite Hsock, E1.
  destruct (le32_cons n) as (b0 & t0 & Hb). rewrite Hb. rewrite <- Hb.
  rewrite unpack_le32 by exact Hn. rewrite E2.
  destruct content as [|x content'] eqn:Hc.
  { exists None, evs2. unfold ret. auto. }
  rewrite <- Hc in *. clear Hc.
  destruct (Z.ltb_spec (blen content) 8) as [Hshort|Hlong].
  { exists None, evs2. unfold ret. auto. }
  assert (Hhead : exists a0 a1 a2 a3 a4 a5 a6 a7 tl,
             content = [a0; a1; a2; a3; a4; a5; a6; a7] ++ tl).
  { unfold blen in Hlong.
    destruct content as [|a0 [|a1 [|a2 [|a3 [|a4 [|a5 [|a6 [|a7 tl]]]]]]]];
      simpl in Hlong; try lia.
    repeat eexists. }
  destruct Hhead as (a0 & a1 & a2 & a3 & a4 & a5 & a6 & a7 & tl & Hhead).
  assert (Hs : pyslice 0 8 content = [a0; a1; a2; a3; a4; a5; a6; a7]).
  { rewrite Hhead.
    change 8 with (Z.of_nat (length [a0; a1; a2; a3; a4; a5; a6; a7])).
    apply pyslice_prefix. }
  rewrite Hs. cbn [unpack_ii unpack_i].
  eexists _, evs2. unfold ret. split; [reflexivity|auto].
Qed.

Lemma next_id_eq c w :
  _next_id {| self := c; world := w |}
  = (Ok (req_id c + 1),
     {| self := set_req_id (req_id c + 1) c; world := w |}).
Proof. reflexivity. Qed.

Lemma send_packet_ok rid ty body pkt c sk w :
  build_packet rid ty body = inl pkt ->
  sock c = Some sk -> hd None (sendq sk) = None ->
  _send_packet rid ty body {| self := c; world := w |}
  = (Ok tt,
     {| self := set_sock
                  (Some {| fd := fd sk; inbox := inbox sk;
                           sendq := tl (sendq sk);
                           sent := sent sk ++ pkt |}) c;
        world := w |}).
Proof.
  intros Hpkt Hsock Hsend.
  unfold _send_packet. cbn [self world]. rewrite Hsock, Hpkt.
  unfold sendall.
  destruct (sendq sk) as [|[e|] q]; simpl in Hsend;
    try discriminate; reflexivity.
Qed.

(** C2 (as amended). With the AUTH request sent, [auth] reads two
    packets. The first may hold anything. The second decides: [auth]
    raises [PermissionError] exactly when its request id is -1 or its
    type is not RESPONSE_VALUE, and returns otherwise; its request id
    is not compared with the id sent. Nothing beyond the two packets
    is taken from the socket. *)
Theorem auth_decided_by_second_packet
        c sk w pkt_auth n1 (content1 : bytes) rid2 ty2 body2 pkt2 more :
  sock c = Some sk -> hd None (sendq sk) = None ->
  build_packet (req_id c + 1) SERVERDATA_AUTH (password c) = inl pkt_auth ->
  clean (inbox sk) ->
  int32_ok n1 = true -> blen content1 = n1 ->
  build_packet rid2 ty2 body2 = inl pkt2 ->
  stream_bytes (inbox sk) = (le32 n1 ++ content1) ++ pkt2 ++ more ->
  exists evs',
    auth {| self := c; world := w |}
    = (if (rid2 =? -1) || negb (ty2 =? SERVERDATA_RESPONSE_VALUE)
       then Raise auth_failed else Ok tt,
       {| self := set_req_id (req_id c + 1)
                    (set_sock
                       (Some {| fd := fd sk; inbox := evs';
                                sendq := tl (sendq sk);
                                sent := sent sk ++ pkt_auth |}) c);
          world := w |})
    /\ clean evs' /\ stream_bytes evs' = more.
Proof.
  intros Hsock Hsend Hauth Hclean Hn1 Hlen1 Hpkt2 Hstream.
  unfold auth. unfold bind at 1. rewrite next_id_eq.
  unfold bind at 1. unfold get_self at 1. cbn [self].
  unfold bind at 1.
  rewrite (send_packet_ok _ _ _ pkt_auth _ sk) by assumption.
  set (sk1 := {| fd := fd sk; inbox := inbox sk; sendq := tl (sendq sk);
                 sent := sent sk ++ pkt_auth |}).
  set (c1 := set_sock (Some sk1) (set_req_id (req_id c + 1) c)).
  rewrite <- app_assoc in Hstream.
  destruct (read_packet_any c1 sk1 w n1 content1 (pkt2 ++ more)
              Hn1 Hlen1 eq_refl Hclean Hstream)
    as (p1 & evs1 & E1 & C1 & S1).
  unfold bind at 1. rewrite E1.
  set (c2 := set_sock (Some (set_inbox evs1 sk1)) c1).
  destruct (read_packet_frame c2 (set_inbox evs1 sk1) w rid2 ty2 body2
              pkt2 more Hpkt2 eq_refl C1 S1)
    as (evs2 & E2 & C2 & S2).
  unfold bind at 1. rewrite E2.
  exists evs2. split; [|split; assumption].
  destruct ((rid2 =? -1) || negb (ty2 =? SERVERDATA_RESPONSE_VALUE));
    reflexivity.
Qed.
End Auth.

(* ================================================================== *)
(** ** Request ids (C10) *)
(* ================================================================== *)

Section RequestIds.
Context `{PyRuntime}.
Variable net : Net.

Lemma recv_exact_req_id n s :
  req_id (self (snd (_recv_exact n s))) = req_id (self s).
Proof.
  unfold _recv_exact. destruct (sock (self s)); [|reflexivity].
  destruct (recv_loop n [] (inbox s0)). reflexivity.
Qed.

Lemma send_packet_req_id rid ty body s :
  req_id (self (snd (_send_packet rid ty body s))) = req_id (self s).
Proof.
  unfold _send_packet. destruct (sock (self s)); [|reflexivity].
  destruct (build_packet rid ty body) as [pkt|[|]]; try reflexivity.
  destruct (sendall pkt s0). reflexivity.
Qed.

Lemma read_packet_req_id s :
  req_id (self (snd (_read_packet s))) = req_id (self s).
Proof.
  unfold _read_packet, bind, get_self, ret, raise.
  destruct (sock (self s)); [|reflexivity].
  pose proof (recv_exact_req_id 4 s) as H1.
  destruct (_recv_exact 4 s) as [[raw| |] s1]; simpl in H1; try exact H1.
  destruct raw as [|b raw]; [exact H1|].
  destruct (unpack_i (b :: raw)) as [len|]; [|exact H1].
  pose proof (recv_exact_req_id len s1) as H2.
  destruct (_recv_exact len s1) as [[data| |] s2]; simpl in H2;
    try (simpl; congruence).
  destruct data as [|d data]; [simpl; congruence|].
  destruct (blen (d :: data) <? 8); [simpl; congruence|].
  destruct (unpack_ii (pyslice 0 8 (d :: data))) as [[rid ty]|];
    simpl; congruence.
Qed.

Lemma run_call_req_id k s :
  match fst (run_call net k s) with
  | Some i =>
      i = req_id (self s) + 1 /\ req_id (self (snd (run_call net k s))) = i
  | None => req_id (self (snd (run_call net k s))) = req_id (self s)
  end.
Proof.
  destruct k; cbn [run_call fst snd].
  - destruct s as [c w]. rewrite next_id_eq. simpl. auto.
  - unfold _connect. destruct (connect_error _); reflexivity.
  - unfold _close. destruct (sock (self s)); reflexivity.
  - apply send_packet_req_id.
  - apply read_packet_req_id.
Qed.

(** From any state, the ids generated along a run of calls count up
    from the counter. *)
Lemma run_calls_ids ks : forall s,
  fst (run_calls net ks s)
  = List.map (fun i => req_id (self s) + Z.of_nat i)
      (seq 1 (length (List.filter is_next_id ks))).
Proof.
  induction ks as [|k rest IH]; intros s; [reflexivity|].
  cbn [run_calls]. pose proof (run_call_req_id k s) as Hk.
  assert (Hsome : is_next_id k = match fst (run_call net k s) with
                                 | Some _ => true | None => false end).
  { destruct k; reflexivity. }
  destruct (run_call net k s) as [o s1]. cbn [fst snd] in Hk, Hsome.
  specialize (IH s1). destruct (run_calls net rest s1) as [ids s2].
  cbn [fst] in *. subst ids. cbn [List.filter]. rewrite Hsome.
  destruct o as [i|].
  - destruct Hk as [Hi Hr]. cbn [length seq List.map]. f_equal; [lia|].
    rewrite <- (seq_shift _ 1), List.map_map. apply List.map_ext.
    intros j. lia.
  - rewrite Hk. reflexivity.
Qed.

(** C10. In a session that starts from [__init__], whatever private
    methods are called and in whatever order, the ids [_next_id] hands
    out are 1, 2, 3, ... in turn: each is strictly positive, none is
    the -1 that [auth] tests for. *)
Theorem request_ids_count_from_one (ks : list call) h p pw w :
  let ids := fst (run_calls net ks {| self := Rcon.init h p pw; world := w |}) in
  ids = List.map Z.of_nat (seq 1 (length (List.filter is_next_id ks)))
  /\ consecutive ids
  /\ List.Forall (fun i => 0 < i /\ i <> -1) ids.
Proof.
  intros ids.
  assert (Hids : ids = List.map Z.of_nat
                   (seq 1 (length (List.filter is_next_id ks)))).
  { unfold ids. rewrite run_calls_ids. cbn [self req_id Rcon.init].
    apply List.map_ext. intros i. lia. }
  split; [exact Hids|]. rewrite Hids. split.
  - apply seq_consecutive.
  - apply List.Forall_forall. intros i Hin.
    apply List.in_map_iff in Hin as [j [<- Hj]].
    apply List.in_seq in Hj. lia.
Qed.
End RequestIds.

(* ================================================================== *)
(** ** Closing the socket (C4) *)
(* ================================================================== *)

Section Closing.
Context `{PyRuntime}.
Variable net : Net.

Lemma keeps_ret {A} h w (a : A) : keeps h w (ret a).
Proof. intros s Hs. exact Hs. Qed.

Lemma keeps_raise {A} h w e : keeps h w (@raise A e).
Proof. intros s Hs. exact Hs. Qed.

Lemma keeps_bind {A B} h w (m : M A) (k : A -> M B) :
  keeps h w m -> (forall a, keeps h w (k a)) -> keeps h w (bind m k).
Proof.
  intros Hm Hk s Hs. unfold bind. specialize (Hm s Hs).
  destruct (m s) as [[a|e|] s1]; cbn [snd] in *; auto.
  apply Hk. exact Hm.
Qed.

Lemma total_ret {A} (a : A) : total (ret a).
Proof. intros s. discriminate. Qed.

Lemma total_raise {A} e : total (@raise A e).
Proof. intros s. discriminate. Qed.

Lemma total_bind {A B} (m : M A) (k : A -> M B) :
  total m -> (forall a, total (k a)) -> total (bind m k).
Proof.
  intros Hm Hk s. unfold bind. specialize (Hm s).
  destruct (m s) as [[a|e|] s1]; cbn [fst] in *;
    [apply Hk|discriminate|congruence].
Qed.

Lemma keeps_get_self h w : keeps h w get_self.
Proof. intros s Hs. exact Hs. Qed.

Lemma total_get_self : total get_self.
Proof. intros s. discriminate. Qed.

Lemma keeps_next_id h w : keeps h w _next_id.
Proof. intros [c w0] Hs. rewrite next_id_eq. exact Hs. Qed.

Lemma total_next_id : total _next_id.
Proof. intros [c w0]. rewrite next_id_eq. discriminate. Qed.

Lemma keeps_send_packet h w rid ty body : keeps h w (_send_packet rid ty body).
Proof.
  intros s (Hw & sk & Hsk & Hfd). unfold _send_packet. rewrite Hsk.
  destruct (build_packet rid ty body) as [pkt|[|]];
    try (split; eauto; fail).
  unfold sendall.
  destruct (sendq sk) as [|[e|] q]; cbn [snd];
    (split; [exact Hw|eexists; split; [reflexivity|exact Hfd]]).
Qed.

Lemma total_send_packet rid ty body : total (_send_packet rid ty body).
Proof.
  intros s. unfold _send_packet.
  destruct (sock (self s)) as [sk|]; [|discriminate].
  destruct (build_packet rid ty body) as [pkt|[|]]; try discriminate.
  unfold sendall. destruct (sendq sk) as [|[e|] q]; discriminate.
Qed.

Lemma recv_loop_total evs : forall size buf,
  fst (recv_loop size buf evs) <> Diverge.
Proof.
  induction evs as [|[chunk|e] rest IH]; intros size buf; cbn [recv_loop];
    destruct (blen buf <? size); try discriminate.
  destruct (length chunk <=? Z.to_nat (size - blen buf))%nat;
    [|discriminate].
  destruct chunk; [discriminate|apply IH].
Qed.

Lemma keeps_recv_exact h w size : keeps h w (_recv_exact size).
Proof.
  intros s (Hw & sk & Hsk & Hfd). unfold _recv_exact. rewrite Hsk.
  destruct (recv_loop size [] (inbox sk)) as [r evs]. cbn [snd].
  split; [exact Hw|eexists; split; [reflexivity|exact Hfd]].
Qed.

Lemma total_recv_exact size : total (_recv_exact size).
Proof.
  intros s. unfold _recv_exact.
  destruct (sock (self s)) as [sk|]; [|discriminate].
  pose proof (recv_loop_total (inbox sk) size []) as Ht.
  destruct (recv_loop size [] (inbox sk)) as [r evs]. exact Ht.
Qed.

Ltac monadic :=
  repeat first
    [ apply keeps_next_id | apply total_next_id
    | apply keeps_send_packet | apply total_send_packet
    | apply keeps_recv_exact | apply total_recv_exact
    | apply keeps_get_self | apply total_get_self
    | apply keeps_ret | apply total_ret
    | apply keeps_raise | apply total_raise
    | match goal with
      | |- keeps _ _ (match ?x with _ => _ end) => destruct x
      | |- total (match ?x with _ => _ end) => destruct x
      | |- keeps _ _ (if ?x then _ else _) => destruct x
      | |- total (if ?x then _ else _) => destruct x
      | |- keeps _ _ (bind _ _) => apply keeps_bind; [|intros ?]
      | |- total (bind _ _) => apply total_bind; [|intros ?]
      end ].


Lemma total_read_packet : total _read_packet.
Proof. unfold _read_packet. monadic. Qed.


Lemma total_auth : total auth.
Proof.
  unfold auth. monadic; try apply total_read_packet.
  all: monadic.
Qed.


(** What [_recv_exact] returns, it has taken out of the socket. *)
Lemma recv_loop_pending evs : forall size buf r evs',
  recv_loop size buf evs = (r, evs') ->
  (pending_bytes evs' <= pending_bytes evs)%nat
  /\ forall bs, r = Ok bs ->
       (length bs + pending_bytes evs' = length buf + pending_bytes evs)%nat
       /\ size <= blen bs.
Proof.
  induction evs as [|[chunk|e] rest IH]; intros size buf r evs';
    cbn [recv_loop pending_bytes];
    destruct (Z.ltb_spec (blen buf) size) as [Hlt|Hge].
  - intros [= <- <-]; cbn [pending_bytes]. split; [lia|discriminate].
  - intros [= <- <-]; cbn [pending_bytes]. split; [lia|]. intros bs [= <-]. split; [lia|lia].
  - destruct (Nat.leb_spec (length chunk) (Z.to_nat (size - blen buf)))
      as [Hle|Hgt].
    + destruct chunk as [|b chunk].
      * intros [= <- <-]; cbn [pending_bytes]. split; [lia|discriminate].
      * intros Hrec. destruct (IH _ _ _ _ Hrec) as [Hp Hok].
        split; [lia|]. intros bs Hbs. destruct (Hok bs Hbs) as [Hl Hs].
        rewrite length_app in Hl. split; [lia|exact Hs].
    + intros [= <- <-]; cbn [pending_bytes].
      rewrite length_skipn. split; [lia|].
      intros bs [= <-]. rewrite length_app, length_firstn.
      unfold blen in *. rewrite length_app, length_firstn. lia.
  - intros [= <- <-]; cbn [pending_bytes]. split; [lia|].
    intros bs [= <-]. split; [lia|lia].
  - intros [= <- <-]; cbn [pending_bytes]. split; [lia|discriminate].
  - intros [= <- <-]; cbn [pending_bytes]. split; [lia|].
    intros bs [= <-]. split; [lia|lia].
Qed.

Lemma recv_exact_pending size s r s' :
  _recv_exact size s = (r, s') ->
  (pending s' <= pending s)%nat
  /\ forall bs, r = Ok bs ->
       (length bs + pending s' = pending s)%nat /\ size <= blen bs.
Proof.
  unfold _recv_exact, pending.
  destruct (sock (self s)) as [sk|] eqn:Hsk.
  - destruct (recv_loop size [] (inbox sk)) as [r0 evs] eqn:E.
    intros [= <- <-]. cbn [self sock set_sock inbox set_inbox].
    destruct (recv_loop_pending _ _ _ _ _ E) as [Hp Hok].
    split; [exact Hp|]. intros bs Hbs. destruct (Hok bs Hbs). simpl in *.
    split; lia.
  - intros [= <- <-]. rewrite Hsk. split; [lia|discriminate].
Qed.

(** A packet read has cost the socket at least its length field. *)
Lemma read_packet_pending s p s' :
  _read_packet s = (Ok (Some p), s') -> (pending s' + 4 <= pending s)%nat.
Proof.
  unfold _read_packet, bind, get_self, ret, raise.
  destruct (sock (self s)) as [sk|] eqn:Hsk; [|discriminate].
  destruct (_recv_exact 4 s) as [[raw| |] s1] eqn:E1; try discriminate.
  destruct (recv_exact_pending _ _ _ _ E1) as [_ H1].
  destruct (H1 raw eq_refl) as [Hl Hs]. unfold blen in Hs.
  destruct raw as [|b raw]; [discriminate|].
  destruct (unpack_i (b :: raw)) as [len|]; [|discriminate].
  destruct (_recv_exact len s1) as [[data| |] s2] eqn:E2; try discriminate.
  destruct (recv_exact_pending _ _ _ _ E2) as [H2 _].
  destruct data as [|d data]; [discriminate|].
  destruct (blen (d :: data) <? 8); [discriminate|].
  destruct (unpack_ii (pyslice 0 8 (d :: data))) as [[rid ty]|];
    [|discriminate].
  intros [= _ <-]. lia.
Qed.

(** The loop of [command] ends within the rounds it is given. *)
Lemma total_command_loop fuel : forall rid acc s,
  (pending s < fuel)%nat ->
  fst (command_loop fuel rid acc s) <> Diverge.
Proof.
  induction fuel as [|fuel IH]; intros rid acc s Hfuel; [lia|].
  cbn [command_loop]. unfold bind.
  pose proof (total_read_packet s) as Ht.
  destruct (_read_packet s) as [[p| |] s1] eqn:E; cbn [fst] in *;
    [|discriminate|congruence].
  destruct p as [[[resp_id ty] body]|]; [|discriminate].
  destruct (resp_id =? rid); [discriminate|].
  apply IH. pose proof (read_packet_pending _ _ _ E). lia.
Qed.

Lemma total_command cmd : total (command net cmd).
Proof.
  unfold command.
  apply total_bind; [apply total_get_self|intros c].
  apply total_bind.
  { destruct (sock c).
    - apply total_ret.
    - apply total_bind; [|intros ?; apply total_auth].
      intros s. unfold _connect. destruct (connect_error _); discriminate. }
  intros _. apply total_bind; [apply total_next_id|intros rid].
  apply total_bind; [apply total_send_packet|intros _].
  intros s. unfold bind at 1. unfold get_self at 1.
  unfold bind.
  pose proof (total_command_loop (rounds_bound (self s)) rid [] s) as Ht.
  destruct (command_loop (rounds_bound (self s)) rid [] s)
    as [[responses| |] s1]; cbn [fst] in *; try discriminate.
  exfalso. apply Ht; [|reflexivity].
  unfold rounds_bound, pending. destruct (sock (self s)); lia.
Qed.



End Closing.

Section ClientExamples.
#[local] Existing Instance ascii_runtime.

Local Abbreviation secret := (py "hunter2").
Local Abbreviation fresh_world := {| created := 0; open_fds := [] |}.
Local Abbreviation fresh_client :=
  {| self := Rcon.init (py "127.0.0.1") 25575 secret; world := fresh_world |}.
Local Abbreviation reply := (py "There are 0 of a max 20 players online:").

(** C2, counterexample to the claim as stated: the second packet
    carries request id 1, the id of the AUTH request just sent and not
    -1, and [auth] raises all the same, because the type of that packet
    is not RESPONSE_VALUE. *)
Lemma auth_fails_with_matching_id :
  let out := __enter__ type2_net fresh_client in
  fst out = Raise auth_failed
  /\ option_map sent (sock (self (snd out)))
     = Some (frame 1 SERVERDATA_AUTH secret)
  /\ build_packet 1 2 (py "") = inl (frame 1 2 (py "")).
Proof. vm_compute. repeat split. Qed.

Lemma auth_decided_by_second_packet_witness :
  let sk := {| fd := 0%nat;
               inbox := [Data (le32 3 ++ [9; 9; 9]);
                         Data (frame 41 SERVERDATA_RESPONSE_VALUE (py "ok"))];
               sendq := []; sent := [] |} in
  let c := set_sock (Some sk) (Rcon.init (py "127.0.0.1") 25575 secret) in
  clean (inbox sk)
  /\ fst (auth {| self := c; world := {| created := 1; open_fds := [0%nat] |} |})
     = Ok tt.
Proof.
  intros sk c.
  assert (Hclean : clean (inbox sk)) by (repeat constructor).
  split; [exact Hclean|].
  assert (Hthm := auth_decided_by_second_packet c sk
              {| created := 1; open_fds := [0%nat] |}
              (frame 1 SERVERDATA_AUTH secret) 3 [9; 9; 9]
              41 SERVERDATA_RESPONSE_VALUE (py "ok")
              (frame 41 SERVERDATA_RESPONSE_VALUE (py "ok")) []
              eq_refl eq_refl eq_refl Hclean eq_refl eq_refl eq_refl eq_refl).
  destruct Hthm as (evs' & E & _).
  rewrite E. reflexivity.
Defined.



(** What happens when the password is refused on entry: the error goes
    to the caller while the socket stays open in the client. *)
Example refused_entry_keeps_socket :
  let out := with_SimpleRCON refusing_net (py "127.0.0.1") 25575 secret
               (command refusing_net (py "list")) fresh_world in
  fst out = Raise auth_failed
  /\ sock (self (snd out)) <> None
  /\ open_fds (world (snd out)) = [0%nat].
Proof. vm_compute. repeat split. discriminate. Qed.

End ClientExamples.

(* ================================================================== *)
(** ** Presence from the log (C7) *)
(* ================================================================== *)

Section Presence.
Context `{PyRuntime}.

Lemma add_log_line_players line now m :
  players_online (_add_log_line line now m)
  = match player_event line with
    | Some (Joined n) => {[n]} ∪ players_online m
    | Some (Left n) => players_online m ∖ {[n]}
    | None => players_online m
    end
  /\ player_last_seen (_add_log_line line now m)
     = match player_event line with
       | Some (Joined n) | Some (Left n) => <[n := now]> (player_last_seen m)
       | None => player_last_seen m
       end.
Proof.
  unfold _add_log_line, _process_player_events.
  destruct (player_event line) as [[n|n]|]; split; reflexivity.
Qed.



End Presence.

Section PresenceExamples.
#[local] Existing Instance ascii_runtime.

Local Abbreviation fresh :=
  (Mgr.init (py "java -jar server.jar") (py "/srv/mc") true
            (py "127.0.0.1") 25575 (py "")).
Local Abbreviation join_line :=
  (py "[14:08:06 INFO]: Foo[/127.0.0.1:1234] logged in with entity id 1 at (...)").
Local Abbreviation leave_line := (py "[14:09:00 INFO]: Foo left the game").
Local Abbreviation chat_line := (py "[14:10:00 INFO]: <Bar> Foo left the game").

Example join_line_event : player_event join_line = Some (Joined (py "Foo")).
Proof. reflexivity. Qed.



End PresenceExamples.

(* ================================================================== *)
(** ** stop() without a live process (C9) *)
(* ================================================================== *)

Section Stop.
Context `{PyRuntime}.

(** C9. Without a live process -- none at all, or one that has exited --
    [stop] returns [False] and the manager is what it was: the stop
    flag is not set, no worker is started, no line is logged. *)
Theorem stop_without_live_process now m :
  is_running m = false -> stop now m = (false, m).
Proof.
  unfold is_running, stop.
  destruct (process m) as [proc|]; [|reflexivity].
  destruct (poll proc); [reflexivity|discriminate].
Qed.

Lemma add_log_line_stop_fields line now m :
  user_requested_stop (_add_log_line line now m) = user_requested_stop m
  /\ threads_started (_add_log_line line now m) = threads_started m
  /\ process (_add_log_line line now m) = process m.
Proof.
  unfold _add_log_line, _process_player_events.
  destruct (player_event line) as [[n|n]|]; repeat split.
Qed.

(** With a live process [stop] does act: this is what the failure case
    leaves undone. *)
Lemma stop_with_live_process now m proc :
  process m = Some proc -> poll proc = None ->
  fst (stop now m) = true
  /\ user_requested_stop (snd (stop now m)) = true
  /\ threads_started (snd (stop now m))
     = threads_started m ++ [StopWorker proc].
Proof.
  intros Hp Hpoll. unfold stop. rewrite Hp, Hpoll. cbn [fst snd].
  split; [reflexivity|].
  destruct (add_log_line_stop_fields (py "[PANEL] Stop requested.") now
    (set_stop_requested true (threads_started m ++ [StopWorker proc]) m))
    as (-> & -> & _).
  split; reflexivity.
Qed.
End Stop.

Section StopExamples.
#[local] Existing Instance ascii_runtime.

Lemma stop_without_live_process_witness :
  let m := with_process (Some {| pid := 4242%nat; returncode := Some 0 |})
             (Mgr.init (py "java -jar server.jar") (py "/srv/mc") true
                       (py "127.0.0.1") 25575 (py "")) in
  is_running m = false /\ stop 1700000000 m = (false, m).
Proof.
  intros m.
  assert (Hdead : is_running m = false) by reflexivity.
  split; [exact Hdead|].
  exact (stop_without_live_process 1700000000 m Hdead).
Defined.

End StopExamples.

(* ================================================================== *)
(** ** The breaker of the RCON poll (C3) *)
(* ================================================================== *)

Section Breaker.
Context `{PyRuntime}.
Variable net : Net.

Lemma add_log_line_rcon_fields line now m :
  _rcon_disabled_reason (_add_log_line line now m) = _rcon_disabled_reason m
  /\ _rcon_fail_count (_add_log_line line now m) = _rcon_fail_count m
  /\ rcon_enabled (_add_log_line line now m) = rcon_enabled m
  /\ rcon_pass (_add_log_line line now m) = rcon_pass m.
Proof.
  unfold _add_log_line, _process_player_events.
  destruct (player_event line) as [[n|n]|]; repeat split.
Qed.

(** The failure branch counts, and from the third failure on it
    records the reason. *)
Lemma rcon_failure_fields e now1 now2 m :
  _rcon_fail_count (rcon_failure e now1 now2 m) = _rcon_fail_count m + 1
  /\ _rcon_disabled_reason (rcon_failure e now1 now2 m)
     = (if 3 <=? _rcon_fail_count m + 1 then Some (exn_text e)
        else _rcon_disabled_reason m)
  /\ rcon_enabled (rcon_failure e now1 now2 m) = rcon_enabled m
  /\ rcon_pass (rcon_failure e now1 now2 m) = rcon_pass m.
Proof.
  unfold rcon_failure.
  set (m1 := set_rcon_failures (_rcon_fail_count m + 1)
               (_rcon_disabled_reason m) m).
  set (l1 := failed_line (_rcon_fail_count m + 1) (exn_text e)).
  destruct (add_log_line_rcon_fields l1 now1 m1) as (Hr & Hc & He & Hp).
  rewrite Hc. cbn [m1 _rcon_fail_count set_rcon_failures] in *.
  destruct (3 <=? _rcon_fail_count m + 1).
  - destruct (add_log_line_rcon_fields (disabled_line (exn_text e)) now2
      (set_rcon_failures (_rcon_fail_count m + 1) (Some (exn_text e))
         (_add_log_line l1 now1 m1))) as (-> & -> & -> & ->).
    cbn [_rcon_fail_count _rcon_disabled_reason rcon_enabled rcon_pass
         set_rcon_failures].
    rewrite He, Hp. repeat split.
  - rewrite Hr, Hc, He, Hp. repeat split.
Qed.

(** A poll that is tried and fails. *)
Lemma rcon_list_failure now1 now2 st e s :
  polling (mgr st) -> poll_attempt net st = (Raise e, s) ->
  _rcon_list net now1 now2 st
  = (Ok None, {| mgr := rcon_failure e now1 now2 (mgr st);
                 sys_world := world s |}).
Proof.
  intros (He & Hp & Hd) Hfail. unfold _rcon_list, poll_attempt in *.
  rewrite He, Hp, Hd. cbn [negb orb]. rewrite Hfail. reflexivity.
Qed.





End Breaker.

Section BreakerExamples.
#[local] Existing Instance ascii_runtime.

Local Abbreviation st0 :=
  {| mgr := Mgr.init (py "java -jar server.jar") (py "/srv/mc") true
                     (py "127.0.0.1") 25575 (py "hunter2");
     sys_world := {| created := 0; open_fds := [] |} |}.
Local Abbreviation st1 := (snd (_rcon_list unreachable_net 1 1 st0)).
Local Abbreviation st2 := (snd (_rcon_list unreachable_net 2 2 st1)).
Local Abbreviation st3 := (snd (_rcon_list unreachable_net 3 3 st2)).

(** Three attempts create three sockets; the fourth creates none. *)
Example fourth_attempt_stays_local :
  created (sys_world st3) = 3%nat
  /\ _rcon_fail_count (mgr st3) = 3
  /\ fst (_rcon_list unreachable_net 4 4 st3) = Ok None
  /\ created (sys_world (snd (_rcon_list unreachable_net 4 4 st3))) = 3%nat.
Proof. vm_compute. repeat split. Qed.



End BreakerExamples.

(* ================================================================== *)
(** ** Presence: every online identity has a last-seen entry *)
(* ================================================================== *)

Section PresenceInvariant.
Context `{PyRuntime}.
Variable net : Net.

Lemma poll_update_last_seen (names : list pystr) (now : timestamp) :
  forall (seen : gmap pystr timestamp) (n : pystr),
  fold_left (fun acc x => <[x := now]> acc) names seen !! n
  = if decide (n ∈ names) then Some now else seen !! n.
Proof.
  induction names as [|x rest IH]; intros seen n; cbn [fold_left].
  - destruct (decide (n ∈ [])) as [Hin|_]; [|reflexivity].
    apply elem_of_nil in Hin. contradiction.
  - rewrite IH.
    destruct (decide (n ∈ rest)) as [Hr|Hr].
    + rewrite decide_True by (apply elem_of_cons; auto). reflexivity.
    + destruct (decide (n = x)) as [->|Hne].
      * rewrite decide_True by (apply elem_of_cons; auto).
        apply lookup_insert_eq.
      * rewrite decide_False.
        -- apply lookup_insert_ne. congruence.
        -- intros Hin. apply elem_of_cons in Hin as [?|?]; contradiction.
Qed.

Lemma add_log_line_presence line now m :
  presence_ok m -> presence_ok (_add_log_line line now m).
Proof.
  intros Hok n. destruct (add_log_line_players line now m) as [-> ->].
  destruct (player_event line) as [[who|who]|]; [| |apply Hok].
  - intros Hin. apply elem_of_union in Hin as [Hin|Hin].
    + apply elem_of_singleton in Hin. subst. rewrite lookup_insert_eq. eauto.
    + destruct (decide (who = n)) as [->|Hne].
      * rewrite lookup_insert_eq. eauto.
      * rewrite lookup_insert_ne by exact Hne. apply Hok, Hin.
  - intros Hin. apply elem_of_difference in Hin as [Hin _].
    destruct (decide (who = n)) as [->|Hne].
    + rewrite lookup_insert_eq. eauto.
    + rewrite lookup_insert_ne by exact Hne. apply Hok, Hin.
Qed.

Lemma rcon_failure_presence e now1 now2 m :
  presence_ok m -> presence_ok (rcon_failure e now1 now2 m).
Proof.
  intros Hok. unfold rcon_failure.
  set (m2 := _add_log_line _ now1 _).
  assert (H2 : presence_ok m2) by (apply add_log_line_presence; exact Hok).
  destruct (3 <=? _rcon_fail_count m2); [|exact H2].
  apply add_log_line_presence. exact H2.
Qed.

Lemma rcon_list_presence now1 now2 st :
  presence_ok (mgr st) ->
  presence_ok (mgr (snd (_rcon_list net now1 now2 st))).
Proof.
  intros Hok. unfold _rcon_list.
  destruct (negb (rcon_enabled (mgr st)) || negb (truthy (rcon_pass (mgr st))));
    [exact Hok|].
  destruct (_rcon_disabled_reason (mgr st)); [exact Hok|].
  destruct (with_SimpleRCON _ _ _ _ _ _) as [[resp|e|] s]; cbn [snd mgr];
    [exact Hok| |exact Hok].
  apply rcon_failure_presence. exact Hok.
Qed.

Lemma poll_update_presence names now m : presence_ok (poll_update names now m).
Proof.
  intros n Hin. unfold poll_update in *.
  cbn [players_online player_last_seen set_players] in *.
  apply elem_of_list_to_set in Hin.
  rewrite poll_update_last_seen, decide_True by exact Hin. eauto.
Qed.

Lemma get_online_players_presence now now1 now2 st :
  presence_ok (mgr st) ->
  presence_ok (mgr (snd (get_online_players net now now1 now2 st))).
Proof.
  intros Hok. unfold get_online_players.
  pose proof (rcon_list_presence now1 now2 st Hok) as H1.
  destruct (_rcon_list net now1 now2 st) as [[names|e|] st1]; cbn [snd] in *;
    try exact H1.
  cbn [mgr]. destruct names as [ns|]; [apply poll_update_presence|exact H1].
Qed.

Lemma stop_presence now m : presence_ok m -> presence_ok (snd (stop now m)).
Proof.
  intros Hok. unfold stop. destruct (process m) as [proc|]; [|exact Hok].
  destruct (poll proc); [exact Hok|]. cbn [snd].
  apply add_log_line_presence. exact Hok.
Qed.

Lemma run_mgr_call_presence st k :
  presence_ok (mgr st) -> presence_ok (mgr (run_mgr_call net st k)).
Proof.
  intros Hok. destruct k; cbn [run_mgr_call mgr].
  - apply rcon_list_presence, Hok.
  - apply get_online_players_presence, Hok.
  - apply add_log_line_presence, Hok.
  - exact Hok.
  - apply stop_presence, Hok.
Qed.

(** X1. From a new manager, whatever is called and whatever the network
    does -- log lines with or without events, polls that succeed or
    fail, stops -- every identity in the online set has a last-seen
    entry. *)
Theorem online_players_have_last_seen
        cmd dir restart env_host env_port env_pass w (ks : list mgr_call) :
  presence_ok
    (mgr (run_mgr_calls net ks
            {| mgr := Mgr.init cmd dir restart env_host env_port env_pass;
               sys_world := w |})).
Proof.
  set (st0 := {| mgr := _; sys_world := w |}).
  assert (H0 : presence_ok (mgr st0)).
  { intros n Hin. cbn in Hin. apply elem_of_empty in Hin. contradiction. }
  revert H0. generalize st0. clear st0.
  induction ks as [|k rest IH]; intros st Hst; [exact Hst|].
  cbn [run_mgr_calls fold_left].
  apply (IH (run_mgr_call net st k)). apply run_mgr_call_presence, Hst.
Qed.
End PresenceInvariant.

(* ================================================================== *)
(** ** Polling: configuration, the failure counter, a successful poll *)
(* ================================================================== *)

Section PollingFacts.
Context `{PyRuntime}.
Variable net : Net.

Lemma rcon_list_unconfigured now1 now2 st :
  truthy (rcon_pass (mgr st)) = false ->
  _rcon_list net now1 now2 st = (Ok None, st).
Proof.
  intros Hp. unfold _rcon_list. rewrite Hp.
  rewrite orb_true_r. reflexivity.
Qed.

Lemma stop_rcon_pass now m : rcon_pass (snd (stop now m)) = rcon_pass m.
Proof.
  unfold stop. destruct (process m) as [proc|]; [|reflexivity].
  destruct (poll proc); [reflexivity|]. cbn [snd].
  destruct (add_log_line_rcon_fields (py "[PANEL] Stop requested.") now
    (set_stop_requested true (threads_started m ++ [StopWorker proc]) m))
    as (_ & _ & _ & ->). reflexivity.
Qed.

(** X2. With no RCON password configured the manager never goes to the
    network: whatever is called, no socket is created or closed, and
    every presence query answers from the tracker alone. *)
Theorem unconfigured_rcon_never_connects (ks : list mgr_call) st :
  truthy (rcon_pass (mgr st)) = false ->
  sys_world (run_mgr_calls net ks st) = sys_world st
  /\ forall now now1 now2,
       get_online_players net now now1 now2 (run_mgr_calls net ks st)
       = (Ok (online_report (mgr (run_mgr_calls net ks st))),
          run_mgr_calls net ks st).
Proof.
  intros Hp.
  assert (Hrun : truthy (rcon_pass (mgr (run_mgr_calls net ks st))) = false
                 /\ sys_world (run_mgr_calls net ks st) = sys_world st).
  { revert st Hp. induction ks as [|k rest IH]; intros st Hp; [auto|].
    cbn [run_mgr_calls fold_left].
    fold (run_mgr_calls net rest (run_mgr_call net st k)).
    assert (Hstep : truthy (rcon_pass (mgr (run_mgr_call net st k))) = false
                    /\ sys_world (run_mgr_call net st k) = sys_world st).
    { destruct k; cbn [run_mgr_call].
      - rewrite rcon_list_unconfigured by exact Hp. auto.
      - unfold get_online_players.
        rewrite rcon_list_unconfigured by exact Hp. cbn [snd mgr sys_world].
        auto.
      - cbn [mgr sys_world].
        destruct (add_log_line_rcon_fields line now (mgr st))
          as (_ & _ & _ & ->). auto.
      - auto.
      - cbn [mgr sys_world]. rewrite stop_rcon_pass. auto. }
    destruct Hstep as [Hp1 Hw1]. destruct (IH _ Hp1) as [Hp2 Hw2].
    split; congruence. }
  destruct Hrun as [Hp' Hw']. split; [exact Hw'|].
  intros now now1 now2. unfold get_online_players.
  rewrite rcon_list_unconfigured by exact Hp'.
  destruct (run_mgr_calls net ks st). reflexivity.
Qed.

Lemma rcon_failure_breaker e now1 now2 m :
  breaker_ok m -> _rcon_disabled_reason m = None ->
  breaker_ok (rcon_failure e now1 now2 m).
Proof.
  intros [Hrange Hiff] Hd.
  destruct (rcon_failure_fields e now1 now2 m) as (Hc & Hr & _).
  unfold breaker_ok. rewrite Hc, Hr.
  assert (_rcon_fail_count m < 3) by (apply Hiff; exact Hd).
  destruct (Z.leb_spec 3 (_rcon_fail_count m + 1)).
  - split; [lia|]. split; [discriminate|lia].
  - split; [lia|]. rewrite Hd. split; [lia|reflexivity].
Qed.

Lemma add_log_line_breaker line now m :
  breaker_ok m -> breaker_ok (_add_log_line line now m).
Proof.
  unfold breaker_ok.
  destruct (add_log_line_rcon_fields line now m) as (-> & -> & _). auto.
Qed.

Lemma stop_breaker now m : breaker_ok m -> breaker_ok (snd (stop now m)).
Proof.
  intros Hok. unfold stop. destruct (process m) as [proc|]; [|exact Hok].
  destruct (poll proc); [exact Hok|]. cbn [snd].
  apply add_log_line_breaker. exact Hok.
Qed.

Lemma rcon_list_breaker now1 now2 st :
  breaker_ok (mgr st) ->
  breaker_ok (mgr (snd (_rcon_list net now1 now2 st))).
Proof.
  intros Hok. unfold _rcon_list.
  destruct (negb (rcon_enabled (mgr st)) || negb (truthy (rcon_pass (mgr st))));
    [exact Hok|].
  destruct (_rcon_disabled_reason (mgr st)) eqn:Hd; [exact Hok|].
  destruct (with_SimpleRCON _ _ _ _ _ _) as [[resp|e|] s]; cbn [snd mgr];
    [exact Hok| |exact Hok].
  apply rcon_failure_breaker; assumption.
Qed.

Lemma poll_update_rcon_fields names now m :
  _rcon_fail_count (poll_update names now m) = _rcon_fail_count m
  /\ _rcon_disabled_reason (poll_update names now m) = _rcon_disabled_reason m.
Proof. split; reflexivity. Qed.

Lemma run_mgr_call_breaker st k :
  breaker_ok (mgr st) -> breaker_ok (mgr (run_mgr_call net st k)).
Proof.
  intros Hok. destruct k; cbn [run_mgr_call mgr].
  - apply rcon_list_breaker, Hok.
  - unfold get_online_players.
    pose proof (rcon_list_breaker now1 now2 st Hok) as H1.
    destruct (_rcon_list net now1 now2 st) as [[names|e|] st1];
      cbn [snd mgr] in *; try exact H1.
    destruct names; exact H1.
  - apply add_log_line_breaker, Hok.
  - exact Hok.
  - apply stop_breaker, Hok.
Qed.

(** X3. The breaker counts failures over the whole life of the manager,
    not runs of them. From a new manager, whatever is called: the
    counter stays between 0 and 3 and the breaker is open exactly when
    it has reached 3; a poll that fails while the breaker is closed adds
    one, and a poll that succeeds leaves the counter where it was. *)
Theorem breaker_counts_all_failures
        cmd dir restart env_host env_port env_pass w (ks : list mgr_call) :
  let st := run_mgr_calls net ks
              {| mgr := Mgr.init cmd dir restart env_host env_port env_pass;
                 sys_world := w |} in
  breaker_ok (mgr st)
  /\ (forall now1 now2 resp s,
        poll_attempt net st = (Ok resp, s) ->
        _rcon_fail_count (mgr (snd (_rcon_list net now1 now2 st)))
        = _rcon_fail_count (mgr st))
  /\ (forall now1 now2 e s,
        polling (mgr st) -> poll_attempt net st = (Raise e, s) ->
        _rcon_fail_count (mgr (snd (_rcon_list net now1 now2 st)))
        = _rcon_fail_count (mgr st) + 1).
Proof.
  intros st. split; [|split].
  - unfold st. set (st0 := {| mgr := _; sys_world := w |}).
    assert (H0 : breaker_ok (mgr st0)).
    { split; cbn; [lia|]. split; [lia|reflexivity]. }
    revert H0. generalize st0. clear st st0.
    induction ks as [|k rest IH]; intros st Hst; [exact Hst|].
    cbn [run_mgr_calls fold_left].
    apply (IH (run_mgr_call net st k)). apply run_mgr_call_breaker, Hst.
  - intros now1 now2 resp s Hok. unfold _rcon_list.
    destruct (negb (rcon_enabled (mgr st)) || negb (truthy (rcon_pass (mgr st))));
      [reflexivity|].
    destruct (_rcon_disabled_reason (mgr st)); [reflexivity|].
    unfold poll_attempt in Hok. rewrite Hok. reflexivity.
  - intros now1 now2 e s Hpoll Hfail.
    rewrite (rcon_list_failure net now1 now2 st e s Hpoll Hfail).
    cbn [snd mgr].
    destruct (rcon_failure_fields e now1 now2 (mgr st)) as (-> & _).
    reflexivity.
Qed.

(** X4. A poll that succeeds replaces the online set by the names in the
    reply and stamps each of them with the time of the call; the
    last-seen entries of everybody else stay as they were. *)
Theorem successful_poll_replaces_online_set now now1 now2 st resp s :
  polling (mgr st) -> poll_attempt net st = (Ok resp, s) ->
  let names := _parse_list_response resp in
  let out := get_online_players net now now1 now2 st in
  let m' := mgr (snd out) in
  fst out = Ok (online_report m')
  /\ players_online m' = list_to_set names
  /\ (forall n, n ∈ names -> player_last_seen m' !! n = Some now)
  /\ (forall n, n ∉ names ->
        player_last_seen m' !! n = player_last_seen (mgr st) !! n)
  /\ sys_world (snd out) = world s.
Proof.
  intros (He & Hp & Hd) Hok names out m'.
  assert (Hlist : _rcon_list net now1 now2 st
                  = (Ok (Some names), {| mgr := mgr st; sys_world := world s |})).
  { unfold _rcon_list. rewrite He, Hp, Hd. cbn [negb orb].
    unfold poll_attempt in Hok. rewrite Hok. reflexivity. }
  unfold m', out, get_online_players. rewrite Hlist. cbn [fst snd mgr sys_world].
  split; [reflexivity|]. split; [reflexivity|].
  split; [|split; [|reflexivity]].
  - intros n Hin. cbn [poll_update player_last_seen set_players].
    rewrite poll_update_last_seen, decide_True by exact Hin. reflexivity.
  - intros n Hout. cbn [poll_update player_last_seen set_players].
    rewrite poll_update_last_seen, decide_False by exact Hout. reflexivity.
Qed.
End PollingFacts.

Section PollingExamples.
#[local] Existing Instance ascii_runtime.

Lemma unconfigured_rcon_never_connects_witness :
  truthy (rcon_pass (mgr unconfigured)) = false
  /\ sys_world
       (run_mgr_calls unreachable_net
          [CallGetOnlinePlayers 5 5 5; CallRconList 6 6; CallStop 7]
          unconfigured)
     = sys_world unconfigured.
Proof.
  split; [reflexivity|].
  exact (proj1 (unconfigured_rcon_never_connects unreachable_net
                  [CallGetOnlinePlayers 5 5 5; CallRconList 6 6; CallStop 7]
                  unconfigured eq_refl)).
Defined.

Local Abbreviation reply :=
  (py "There are 2 of a max 20 players online: Kai, Alex").

Lemma listing_poll_succeeds :
  fst (poll_attempt listing_net configured) = Ok reply.
Proof. vm_compute. reflexivity. Qed.

Lemma successful_poll_replaces_online_set_witness :
  polling (mgr configured)
  /\ fst (poll_attempt listing_net configured) = Ok reply
  /\ players_online
       (mgr (snd (get_online_players listing_net 9 1 1 configured)))
     = list_to_set (_parse_list_response reply).
Proof.
  assert (Hp : polling (mgr configured)) by (repeat split).
  pose proof (surjective_pairing (poll_attempt listing_net configured)) as Hrun.
  rewrite listing_poll_succeeds in Hrun.
  split; [exact Hp|]. split; [exact listing_poll_succeeds|].
  exact (proj1 (proj2 (successful_poll_replaces_online_set listing_net
                         9 1 1 configured reply _ Hp Hrun))).
Defined.

(** The reply names two players. *)
Example listing_reply_names :
  _parse_list_response reply = [py "Kai"; py "Alex"].
Proof. vm_compute. reflexivity. Qed.

End PollingExamples.

(* ================================================================== *)
(** ** The online report and the tail of the log *)
(* ================================================================== *)

Section Report.
Context `{PyRuntime}.

Lemma str_leb_total a : forall b, str_leb a b = true \/ str_leb b a = true.
Proof.
  induction a as [|x a IH]; intros [|y b]; simpl; auto.
  destruct (Z.ltb_spec x y); [auto|].
  destruct (Z.ltb_spec y x); [auto|].
  assert (x = y) by lia. subst. rewrite Z.eqb_refl. simpl. apply IH.
Qed.

Lemma str_leb_trans a : forall b c,
  str_leb a b = true -> str_leb b c = true -> str_leb a c = true.
Proof.
  induction a as [|x a IH]; intros [|y b] [|z c]; simpl; auto;
    try discriminate.
  intros Hab Hbc.
  apply orb_true_iff in Hab as [Hab|Hab];
    apply orb_true_iff in Hbc as [Hbc|Hbc].
  - apply Z.ltb_lt in Hab, Hbc.
    destruct (Z.ltb_spec x z); [reflexivity|lia].
  - apply Z.ltb_lt in Hab. apply andb_true_iff in Hbc as [Hyz _].
    apply Z.eqb_eq in Hyz. subst.
    destruct (Z.ltb_spec x z); [reflexivity|lia].
  - apply Z.ltb_lt in Hbc. apply andb_true_iff in Hab as [Hxy _].
    apply Z.eqb_eq in Hxy. subst.
    destruct (Z.ltb_spec y z); [reflexivity|lia].
  - apply andb_true_iff in Hab as [Hxy Hab].
    apply andb_true_iff in Hbc as [Hyz Hbc].
    apply Z.eqb_eq in Hxy, Hyz. subst. rewrite Z.eqb_refl.
    rewrite (IH b c Hab Hbc). apply orb_true_r.
Qed.

#[local] Instance str_le_total : Total str_le.
Proof.
  intros a b. unfold str_le.
  destruct (str_leb_total a b) as [->| ->]; simpl; auto.
Qed.

#[local] Instance str_le_trans : Transitive str_le.
Proof.
  intros a b c Hab Hbc. unfold str_le in *.
  apply Is_true_true in Hab, Hbc. apply Is_true_true.
  eapply str_leb_trans; eassumption.
Qed.

(** X5. The answer of [get_online_players] lists exactly the identities
    of the online set, each once, in ascending order of name (code point
    by code point), each with its entry of the last-seen map. *)
Theorem online_report_sorted_and_exact (m : Manager) :
  let names := List.map name (online_report m) in
  (forall n, n ∈ names <-> n ∈ players_online m)
  /\ NoDup names
  /\ StronglySorted str_le names
  /\ List.Forall
       (fun p => last_seen p = player_last_seen m !! name p)
       (online_report m).
Proof.
  intros names.
  assert (Hnames : names = sorted_names (players_online m)).
  { unfold names, online_report. rewrite List.map_map. cbn [name].
    apply List.map_id. }
  assert (Hperm : names ≡ₚ elements (players_online m)).
  { rewrite Hnames. unfold sorted_names. apply merge_sort_Permutation. }
  split; [|split; [|split]].
  - intros n. rewrite Hperm. apply elem_of_elements.
  - rewrite Hperm. apply NoDup_elements.
  - rewrite Hnames. unfold sorted_names.
    apply StronglySorted_merge_sort; typeclasses eauto.
  - unfold online_report. apply List.Forall_forall. intros p Hin.
    apply List.in_map_iff in Hin as [n [<- _]]. reflexivity.
Qed.
End Report.

Section LogTail.
Context `{PyRuntime}.
Variables (cmd dir : pystr) (restart : bool).
Variables (env_host : pystr) (env_port : Z) (env_pass : pystr).

Local Abbreviation fresh :=
  (Mgr.init cmd dir restart env_host env_port env_pass).

Lemma numbered_app l1 : forall start l2,
  numbered start (l1 ++ l2)
  = numbered start l1 ++ numbered (start + Z.of_nat (length l1)) l2.
Proof.
  induction l1 as [|l rest IH]; intros start l2; simpl.
  - f_equal. lia.
  - rewrite IH. do 3 f_equal. lia.
Qed.

Lemma filter_none {A} (f : A -> bool) (l : list A) :
  List.Forall (fun x => f x = false) l -> List.filter f l = [].
Proof.
  induction 1 as [|x l Hx _ IH]; [reflexivity|].
  simpl. rewrite Hx. exact IH.
Qed.

Lemma numbered_ids_range lines : forall start,
  List.Forall (fun e => start <= entry_id e < start + Z.of_nat (length lines))
    (numbered start lines).
Proof.
  induction lines as [|l rest IH]; intros start; constructor.
  - simpl. lia.
  - specialize (IH (start + 1)).
    eapply List.Forall_impl; [|exact IH]. simpl. intros e He. lia.
Qed.

(** X6. A reader that asks for what came after the last id it saw gets
    exactly the lines appended since, in order and without repeats, as
    long as no more than the capacity were appended in between; beyond
    that it gets the most recent 2000 of them. *)
Theorem get_logs_since_returns_the_new_lines
        (seen new : list (pystr * timestamp)) :
  let last_id := Z.of_nat (length seen) in
  get_logs_since last_id (add_lines (seen ++ new) fresh)
  = lastn MAXLEN (numbered (last_id + 1) (List.map fst new)).
Proof.
  intros last_id. unfold get_logs_since.
  destruct (fresh_log cmd dir restart env_host env_port env_pass (seen ++ new))
    as [-> _].
  rewrite List.map_app, numbered_app, length_map.
  set (A := numbered 1 (List.map fst seen)).
  set (B := numbered (1 + Z.of_nat (length seen)) (List.map fst new)).
  replace (last_id + 1) with (1 + Z.of_nat (length seen)) by (unfold last_id; lia).
  fold B.
  assert (HA : List.Forall (fun e => (last_id <? entry_id e) = false) A).
  { eapply List.Forall_impl; [|apply numbered_ids_range].
    simpl. intros e He. rewrite length_map in He.
    apply Z.ltb_ge. unfold last_id. lia. }
  assert (HB : List.Forall (fun e => (last_id <? entry_id e) = true) B).
  { eapply List.Forall_impl; [|apply numbered_ids_range].
    simpl. intros e He. apply Z.ltb_lt. unfold last_id. lia. }
  unfold lastn. rewrite length_app, skipn_app.
  rewrite List.filter_app.
  rewrite (filter_none _ (skipn _ A)) by (apply Forall_skipn; exact HA).
  rewrite filter_all by (apply Forall_skipn; exact HB).
  cbn [app]. f_equal. lia.
Qed.
End LogTail.

(* ================================================================== *)
(** ** Lines without the marker *)
(* ================================================================== *)

Section Markers.
Context `{PyRuntime}.

Lemma marker_text : text "]:" = Seq (Lit 93) (Seq (Lit 58) Eps).
Proof. reflexivity. Qed.

Ltac by_cases :=
  repeat match goal with
    | |- context [?a <? ?b] => destruct (Z.ltb_spec a b); try lia
    | |- context [?a <=? ?b] => destruct (Z.leb_spec a b); try lia
    | |- context [?a =? ?b] => destruct (Z.eqb_spec a b); try lia
    | H : context [?a <? ?b] |- _ => destruct (Z.ltb_spec a b); try lia
    | H : context [?a <=? ?b] |- _ => destruct (Z.leb_spec a b); try lia
    | H : context [?a =? ?b] |- _ => destruct (Z.eqb_spec a b); try lia
    end.

(** A literal that is not a letter matches itself only. *)
Lemma lit_matches_exact p c :
  in_range 65 90 p = false -> in_range 97 122 p = false ->
  p <> 304 -> p <> 305 -> p <> 383 -> p <> 8490 ->
  lit_matches p c = true -> c = p.
Proof.
  unfold lit_matches, to_lower, to_upper, in_range.
  intros H1 H2 H3 H4 H5 H6 Hm.
  by_cases; simpl in *; try discriminate; try lia.
Qed.

Lemma lit_matches_refl c : lit_matches c c = true.
Proof. unfold lit_matches. rewrite Z.eqb_refl. reflexivity. Qed.

Lemma lit_93 c : lit_matches 93 c = true -> c = 93.
Proof. apply lit_matches_exact; (reflexivity || lia). Qed.

Lemma lit_58 c : lit_matches 58 c = true -> c = 58.
Proof. apply lit_matches_exact; (reflexivity || lia). Qed.

(** Both patterns start with the marker: where the text does not, they
    do not match. *)
Lemma rmatch_marker {X} (r : regex) s g (k : pystr -> option pystr -> option X) :
  rmatch (Seq (text "]:") r) s g k
  = match s with
    | c :: d :: t =>
        if (c =? 93) && (d =? 58) then rmatch r t g k else None
    | _ => None
    end.
Proof.
  rewrite marker_text. cbn [rmatch].
  destruct s as [|c [|d t]].
  - reflexivity.
  - destruct (lit_matches 93 c); reflexivity.
  - destruct (lit_matches 93 c) eqn:Hc.
    + apply lit_93 in Hc. subst c. cbn [Z.eqb Pos.eqb andb].
      destruct (lit_matches 58 d) eqn:Hd.
      * apply lit_58 in Hd. subst d. reflexivity.
      * destruct (Z.eqb_spec d 58) as [->|_]; [|reflexivity].
        rewrite lit_matches_refl in Hd. discriminate.
    + destruct (Z.eqb_spec c 93) as [->|_]; [|reflexivity].
      rewrite lit_matches_refl in Hc. discriminate.
Qed.

Lemma search_without_marker (r : regex) s :
  has_marker s = false -> search (Seq (text "]:") r) s = None.
Proof.
  induction s as [|c t IH]; intros Hm.
  - cbn [search]. rewrite rmatch_marker. reflexivity.
  - cbn [has_marker] in Hm. apply orb_false_iff in Hm as [Hhere Ht].
    cbn [search]. rewrite rmatch_marker.
    destruct t as [|d t'].
    + apply IH. exact Ht.
    + rewrite Hhere. apply IH. exact Ht.
Qed.

Lemma has_marker_app_r a : forall b,
  has_marker (a ++ b) = false -> has_marker b = false.
Proof.
  induction a as [|c a IH]; intros b Hm; [exact Hm|].
  cbn [app has_marker] in Hm. apply orb_false_iff in Hm as [_ Hm]. auto.
Qed.

Lemma has_marker_app_l a : forall b,
  has_marker (a ++ b) = false -> has_marker a = false.
Proof.
  induction a as [|c a IH]; intros b Hm; [reflexivity|].
  cbn [app has_marker] in *. apply orb_false_iff in Hm as [Hhere Hm].
  apply orb_false_iff. split; [|eauto].
  destruct a as [|d a]; [apply andb_false_r|exact Hhere].
Qed.

Lemma lstrip_by_suffix p s : exists w, s = w ++ lstrip_by p s.
Proof.
  induction s as [|c t [w Hw]]; [exists []; reflexivity|].
  simpl. destruct (p c).
  - exists (c :: w). simpl. f_equal. exact Hw.
  - exists []. reflexivity.
Qed.

Lemma rstrip_by_prefix p s : exists w, s = rstrip_by p s ++ w.
Proof.
  induction s as [|c t [w Hw]]; [exists []; reflexivity|].
  simpl. destruct (rstrip_by p t) as [|d t'] eqn:E.
  - destruct (p c).
    + exists (c :: t). reflexivity.
    + exists t. reflexivity.
  - exists w. simpl. f_equal. exact Hw.
Qed.

Lemma has_marker_strip s : has_marker s = false -> has_marker (strip s) = false.
Proof.
  intros Hm. unfold strip.
  destruct (lstrip_by_suffix is_space s) as [w Hw].
  destruct (rstrip_by_prefix is_space (lstrip_by is_space s)) as [v Hv].
  rewrite Hw in Hm. apply has_marker_app_r in Hm.
  rewrite Hv in Hm. apply has_marker_app_l in Hm. exact Hm.
Qed.

(** X7. A line in which no closing bracket is followed at once by a
    colon carries no event, and appending it leaves the online set and
    the last-seen map as they are. *)
Theorem line_without_marker_changes_nobody line now m :
  has_marker line = false ->
  player_event line = None
  /\ players_online (_add_log_line line now m) = players_online m
  /\ player_last_seen (_add_log_line line now m) = player_last_seen m.
Proof.
  intros Hm. apply has_marker_strip in Hm.
  assert (Hev : player_event line = None).
  { unfold player_event, _join_re, _quit_re.
    rewrite !search_without_marker by exact Hm. reflexivity. }
  split; [exact Hev|].
  destruct (add_log_line_players line now m) as [-> ->].
  rewrite Hev. auto.
Qed.
End Markers.

Section MarkerExamples.
#[local] Existing Instance ascii_runtime.

Lemma line_without_marker_changes_nobody_witness :
  has_marker (py "[PANEL] Sent stop command. Waiting for shutdown...") = false
  /\ player_event (py "[PANEL] Sent stop command. Waiting for shutdown...") = None.
Proof.
  split; [reflexivity|].
  exact (proj1 (line_without_marker_changes_nobody
                  (py "[PANEL] Sent stop command. Waiting for shutdown...") 0
                  (mgr configured) eq_refl)).
Defined.

End MarkerExamples.

(* ================================================================== *)
(** ** The matcher: greedy repetition and search *)
(* ================================================================== *)

Section Greedy.

Lemma star_greedy_some {X} (p : Z -> bool) (k : pystr -> option X) ws :
  forall rest x,
  List.Forall (fun c => p c = true) ws ->
  match rest with [] => True | c :: _ => p c = false end ->
  k rest = Some x ->
  star_greedy p (ws ++ rest) k = Some x.
Proof.
  induction ws as [|c ws IH]; intros rest x Hws Hrest Hk.
  - destruct rest as [|c t]; cbn [app star_greedy]; [exact Hk|].
    rewrite Hrest. exact Hk.
  - inversion Hws as [|? ? Hc Hws']; subst.
    cbn [app star_greedy]. rewrite Hc, (IH rest x Hws' Hrest Hk). reflexivity.
Qed.

Lemma star_greedy_none {X} (p : Z -> bool) (k : pystr -> option X) ws :
  forall b rest,
  List.Forall (fun c => p c = true) ws -> p b = false ->
  (forall w1 w2, ws = w1 ++ w2 -> k (w2 ++ b :: rest) = None) ->
  star_greedy p (ws ++ b :: rest) k = None.
Proof.
  induction ws as [|c ws IH]; intros b rest Hws Hb Hk.
  - cbn [app star_greedy]. rewrite Hb. exact (Hk [] [] eq_refl).
  - inversion Hws as [|? ? Hc Hws']; subst.
    cbn [app star_greedy]. rewrite Hc.
    rewrite (IH b rest Hws' Hb).
    + exact (Hk [] (c :: ws) eq_refl).
    + intros w1 w2 ->. exact (Hk (c :: w1) w2 eq_refl).
Qed.

(** What a greedy repetition returns, its continuation has returned. *)
Lemma star_greedy_from {X} (p : Z -> bool) (k : pystr -> option X) s :
  forall x, star_greedy p s k = Some x -> exists t, k t = Some x.
Proof.
  induction s as [|c s IH]; intros x; cbn [star_greedy]; [eauto|].
  destruct (p c); [|eauto].
  destruct (star_greedy p s k) as [y|] eqn:E; [|eauto].
  intros [= <-]. eauto.
Qed.

(** If some way of cutting the repetition lets the continuation succeed,
    and the continuation can only ever return [v], the repetition
    returns [v]. *)
Lemma star_greedy_exists {X} (p : Z -> bool) (k : pystr -> option X) v ws :
  forall rest,
  (forall t x, k t = Some x -> x = v) ->
  List.Forall (fun c => p c = true) ws ->
  k rest = Some v ->
  star_greedy p (ws ++ rest) k = Some v.
Proof.
  induction ws as [|c ws IH]; intros rest Hv Hws Hk.
  - cbn [app]. destruct rest as [|c t]; cbn [star_greedy]; [exact Hk|].
    destruct (p c); [|exact Hk].
    destruct (star_greedy p t k) as [y|] eqn:E; [|exact Hk].
    destruct (star_greedy_from _ _ _ _ E) as [t' Ht']. f_equal. eauto.
  - inversion Hws as [|? ? Hc Hws']; subst.
    cbn [app star_greedy]. rewrite Hc, (IH rest Hv Hws' Hk). reflexivity.
Qed.

(** A literal text matches every text that differs from it in letter
    case only. *)
Lemma rmatch_text {X} pattern : forall written rest g
  (k : pystr -> option pystr -> option X),
  same_ignoring_case pattern written ->
  rmatch (fold_right (fun c r => Seq (Lit c) r) Eps pattern)
         (written ++ rest) g k
  = k rest g.
Proof.
  induction pattern as [|p0 pattern IH]; intros written rest g k Hsame;
    inversion Hsame as [|? c ? w' Hc Hrest]; subst; cbn [fold_right rmatch app].
  - reflexivity.
  - rewrite Hc. apply IH. exact Hrest.
Qed.

(** With a continuation that returns the group, a pattern without a
    group returns the group it was given, or nothing. *)
Lemma rmatch_groupless (r : regex) : forall s g x
  (k : pystr -> option pystr -> option (option pystr)),
  groupless r = true ->
  (forall t y, k t g = Some y -> y = g) ->
  rmatch r s g k = Some x -> x = g.
Proof.
  induction r as [|c|p|p|p|r1 IH1 r2 IH2|r1 IH1 r2 IH2|r1 IH1];
    intros s g x k Hno Hk; cbn [rmatch groupless] in *.
  - apply Hk.
  - destruct s as [|c0 t]; [discriminate|].
    destruct (lit_matches c c0); [apply Hk|discriminate].
  - destruct s as [|c0 t]; [discriminate|].
    destruct (p c0); [apply Hk|discriminate].
  - intros Hs. destruct (star_greedy_from _ _ _ _ Hs) as [t Ht]. eauto.
  - destruct s as [|c0 t]; [discriminate|].
    destruct (p c0); [|discriminate].
    intros Hs. destruct (star_greedy_from _ _ _ _ Hs) as [t' Ht]. eauto.
  - apply andb_true_iff in Hno as [H1 H2].
    apply (IH1 s g x _ H1). intros t y. apply (IH2 t g y k H2 Hk).
  - apply andb_true_iff in Hno as [H1 H2].
    destruct (rmatch r1 s g k) as [y|] eqn:E.
    + intros [= <-]. exact (IH1 s g y k H1 Hk E).
    + apply (IH2 s g x k H2 Hk).
  - discriminate.
Qed.

Lemma search_found (r : regex) s g :
  rmatch r s None (fun _ g' => Some g') = Some g -> search r s = Some g.
Proof. intros Hm. destruct s; cbn [search]; rewrite Hm; reflexivity. Qed.

Lemma no_bracket_no_marker s :
  List.Forall (fun c => c <> 93) s -> has_marker s = false.
Proof.
  induction 1 as [|c t Hc _ IH]; [reflexivity|].
  cbn [has_marker]. rewrite IH.
  destruct (Z.eqb_spec c 93); [contradiction|reflexivity].
Qed.

Lemma search_skips (r : regex) pre : forall s,
  List.Forall (fun c => c <> 93) pre ->
  search (Seq (text "]:") r) (pre ++ s) = search (Seq (text "]:") r) s.
Proof.
  induction pre as [|c pre IH]; intros s Hpre; [reflexivity|].
  inversion Hpre as [|? ? Hc Hpre']; subst.
  cbn [app search]. rewrite rmatch_marker.
  destruct (pre ++ s) as [|d t] eqn:E.
  - destruct pre; [|discriminate]. cbn [app] in E. subst s.
    cbn [search]. rewrite rmatch_marker. reflexivity.
  - destruct (Z.eqb_spec c 93) as [?|_]; [contradiction|].
    cbn [andb]. rewrite <- E. apply IH. exact Hpre'.
Qed.

Lemma lstrip_by_app_keep p a x t :
  p x = false -> lstrip_by p (a ++ x :: t) = lstrip_by p a ++ x :: t.
Proof.
  intros Hx. induction a as [|c a IH]; cbn [app lstrip_by].
  - rewrite Hx. reflexivity.
  - destruct (p c); [exact IH|reflexivity].
Qed.

Lemma rstrip_by_app_keep p a x t :
  p x = false -> rstrip_by p (a ++ x :: t) = a ++ x :: rstrip_by p t.
Proof.
  intros Hx. induction a as [|c a IH]; cbn [app rstrip_by].
  - destruct (rstrip_by p t); [rewrite Hx|]; reflexivity.
  - rewrite IH. destruct a; reflexivity.
Qed.

Lemma Forall_lstrip_by {P : Z -> Prop} p s :
  List.Forall P s -> List.Forall P (lstrip_by p s).
Proof.
  induction 1 as [|c t Hc Ht IH]; cbn [lstrip_by]; [constructor|].
  destruct (p c); [exact IH|constructor; assumption].
Qed.

Lemma Forall_rstrip_by {P : Z -> Prop} p s :
  List.Forall P s -> List.Forall P (rstrip_by p s).
Proof.
  induction 1 as [|c t Hc Ht IH]; cbn [rstrip_by]; [constructor|].
  destruct (rstrip_by p t) as [|d t'].
  - destruct (p c); constructor; [assumption|constructor].
  - constructor; assumption.
Qed.

End Greedy.

(* ================================================================== *)
(** ** Character classes under IGNORECASE *)
(* ================================================================== *)

Section Classes.
Context `{PyRuntime}.

Lemma in_range_iff lo hi c : in_range lo hi c = true <-> lo <= c <= hi.
Proof.
  unfold in_range. rewrite andb_true_iff, !Z.leb_le. reflexivity.
Qed.

Lemma to_lower_cases c :
  (65 <= c <= 90 /\ to_lower c = c + 32)
  \/ (c = 304 /\ to_lower c = 105)
  \/ (c = 8490 /\ to_lower c = 107)
  \/ ((c < 65 \/ 90 < c) /\ c <> 304 /\ c <> 8490 /\ to_lower c = c).
Proof.
  unfold to_lower, in_range.
  destruct (Z.leb_spec 65 c); destruct (Z.leb_spec c 90); cbn [andb];
    try (left; lia);
    destruct (Z.eqb_spec c 304); try (right; left; lia);
    destruct (Z.eqb_spec c 8490); try (right; right; left; lia);
    right; right; right; lia.
Qed.

Lemma to_upper_cases c :
  (97 <= c <= 122 /\ to_upper c = c - 32)
  \/ (c = 305 /\ to_upper c = 73)
  \/ (c = 383 /\ to_upper c = 83)
  \/ ((c < 97 \/ 122 < c) /\ c <> 305 /\ c <> 383 /\ to_upper c = c).
Proof.
  unfold to_upper, in_range.
  destruct (Z.leb_spec 97 c); destruct (Z.leb_spec c 122); cbn [andb];
    try (left; lia);
    destruct (Z.eqb_spec c 305); try (right; left; lia);
    destruct (Z.eqb_spec c 383); try (right; right; left; lia);
    right; right; right; lia.
Qed.

Lemma in_range_i_elim lo hi c :
  in_range_i lo hi c = true ->
  lo <= to_lower c <= hi \/ lo <= to_upper (to_lower c) <= hi.
Proof.
  unfold in_range_i. rewrite orb_true_iff, !in_range_iff. auto.
Qed.

Lemma lit_matches_elim p c :
  lit_matches p c = true ->
  to_lower c = to_lower p \/ to_upper c = to_upper p.
Proof.
  unfold lit_matches. rewrite orb_true_iff, !Z.eqb_eq. auto.
Qed.

(** The characters of an identity: ASCII letters and digits, the
    underscore, and the four letters that IGNORECASE adds. *)
Lemma name_class_chars c :
  name_class c = true ->
  48 <= c <= 57 \/ 65 <= c <= 90 \/ 97 <= c <= 122 \/ c = 95
  \/ c = 304 \/ c = 305 \/ c = 383 \/ c = 8490.
Proof.
  unfold name_class. rewrite !orb_true_iff.
  pose proof (to_lower_cases c) as HL.
  pose proof (to_upper_cases (to_lower c)) as HU.
  pose proof (to_upper_cases c) as HC.
  intros [[[Hc|Hc]|Hc]|Hc].
  - apply in_range_i_elim in Hc. lia.
  - apply in_range_i_elim in Hc. lia.
  - apply in_range_i_elim in Hc. lia.
  - apply lit_matches_elim in Hc.
    change (to_lower 95) with 95 in Hc. change (to_upper 95) with 95 in Hc.
    lia.
Qed.

Lemma name_char_facts c :
  name_class c = true ->
  is_space c = false /\ c <> 93 /\ lit_matches 91 c = false.
Proof.
  intros Hc. apply name_class_chars in Hc.
  split; [|split].
  - unfold is_space.
    repeat match goal with
      | |- context [?a <=? ?b] => destruct (Z.leb_spec a b); try lia
      | |- context [?a =? ?b] => destruct (Z.eqb_spec a b); try lia
      end; reflexivity.
  - lia.
  - destruct (lit_matches 91 c) eqn:E; [|reflexivity].
    apply lit_matches_elim in E.
    change (to_lower 91) with 91 in E. change (to_upper 91) with 91 in E.
    pose proof (to_lower_cases c). pose proof (to_upper_cases c). lia.
Qed.

Lemma space_char_facts c :
  is_space c = true ->
  name_class c = false /\ c <> 93 /\ lit_matches 91 c = false.
Proof.
  intros Hs.
  assert (Hn : name_class c = false).
  { destruct (name_class c) eqn:E; [|reflexivity].
    apply name_char_facts in E as [E _]. congruence. }
  split; [exact Hn|].
  assert (Hc : (9 <= c <= 13) \/ (28 <= c <= 32) \/ 133 <= c).
  { unfold is_space in Hs. rewrite !orb_true_iff, !andb_true_iff in Hs.
    rewrite !Z.leb_le, !Z.eqb_eq in Hs. lia. }
  split; [lia|].
  destruct (lit_matches 91 c) eqn:E; [|reflexivity].
  apply lit_matches_elim in E.
  change (to_lower 91) with 91 in E. change (to_upper 91) with 91 in E.
  pose proof (to_lower_cases c). pose proof (to_upper_cases c). lia.
Qed.

(** What a letter or a blank of a pattern matches is no blank where the
    pattern has a letter, and never a closing bracket. *)
Lemma letter_match_facts p c :
  lit_matches p c = true -> 97 <= p <= 122 \/ p = 32 ->
  c <> 93 /\ (97 <= p <= 122 -> is_space c = false).
Proof.
  intros Hm Hp. apply lit_matches_elim in Hm.
  pose proof (to_lower_cases c). pose proof (to_upper_cases c).
  pose proof (to_lower_cases p). pose proof (to_upper_cases p).
  split; [lia|]. intros Hl.
  assert (Hc : 65 <= c <= 90 \/ 97 <= c <= 122 \/ c = 304 \/ c = 305
               \/ c = 383 \/ c = 8490) by lia.
  unfold is_space.
  repeat match goal with
    | |- context [?a <=? ?b] => destruct (Z.leb_spec a b); try lia
    | |- context [?a =? ?b] => destruct (Z.eqb_spec a b); try lia
    end; reflexivity.
Qed.
End Classes.

(* ================================================================== *)
(** ** Leave lines *)
(* ================================================================== *)

Section LeaveLines.
Context `{PyRuntime}.

Local Abbreviation k0 := (fun (_ : pystr) (g : option pystr) => Some g).

Lemma firstn_app_length {A} (a b : list A) :
  firstn (length (a ++ b) - length b) (a ++ b) = a.
Proof.
  rewrite length_app.
  replace (length a + length b - length b)%nat with (length a) by lia.
  rewrite firstn_app, firstn_all, Nat.sub_diag. simpl. apply app_nil_r.
Qed.

Lemma written_no_bracket phrase : forall written,
  List.Forall (fun p => 97 <= p <= 122 \/ p = 32) phrase ->
  same_ignoring_case phrase written ->
  List.Forall (fun c => c <> 93) written.
Proof.
  induction phrase as [|p phrase IH]; intros written Hp Hsame;
    inversion Hsame as [|? c ? w Hc Hrest]; subst; constructor.
  - inversion Hp; subst. eapply letter_match_facts; eassumption.
  - inversion Hp; subst. eauto.
Qed.

(** What the four phrases have in common. *)
Lemma quit_phrase_shape phrase :
  In phrase quit_phrases ->
  List.Forall (fun p => 97 <= p <= 122 \/ p = 32) phrase
  /\ (exists p0 rest, phrase = p0 :: rest /\ 97 <= p0 <= 122)
  /\ (exists body pl, phrase = body ++ [pl] /\ 97 <= pl <= 122).
Proof.
  intros Hin.
  assert (Hall : forallb (fun p => ((97 <=? p) && (p <=? 122)) || (p =? 32))
                   phrase = true).
  { cbn in Hin. destruct Hin as [<-|[<-|[<-|[<-|[]]]]]; reflexivity. }
  split.
  { apply List.Forall_forall. intros p Hp.
    pose proof (proj1 (forallb_forall _ _) Hall p Hp) as Hb. cbn beta in Hb.
    apply orb_true_iff in Hb as [Hb|Hb].
    - apply andb_true_iff in Hb as [H1 H2]. apply Z.leb_le in H1, H2. lia.
    - apply Z.eqb_eq in Hb. lia. }
  cbn in Hin. destruct Hin as [<-|[<-|[<-|[<-|[]]]]].
  - split.
    + exists 108, (py "ost connection"). split; [reflexivity|lia].
    + exists (py "lost connectio"), 110. split; [reflexivity|lia].
  - split.
    + exists 100, (py "isconnected"). split; [reflexivity|lia].
    + exists (py "disconnecte"), 100. split; [reflexivity|lia].
  - split.
    + exists 108, (py "eft the game"). split; [reflexivity|lia].
    + exists (py "left the gam"), 101. split; [reflexivity|lia].
  - split.
    + exists 116, (py "imed out"). split; [reflexivity|lia].
    + exists (py "timed ou"), 116. split; [reflexivity|lia].
Qed.

Lemma written_shape phrase written :
  In phrase quit_phrases -> same_ignoring_case phrase written ->
  List.Forall (fun c => c <> 93) written
  /\ (exists w0 rest, written = w0 :: rest /\ is_space w0 = false)
  /\ (exists body wl, written = body ++ [wl] /\ is_space wl = false).
Proof.
  intros Hin Hsame.
  destruct (quit_phrase_shape phrase Hin)
    as (Hall & (p0 & prest & Hp0 & Hl0) & (pbody & pl & Hpl & Hll)).
  split; [eapply written_no_bracket; eassumption|]. split.
  - pose proof Hsame as Hs. rewrite Hp0 in Hs.
    inversion Hs as [|? w0 ? rest Hw0 _]; subst written.
    exists w0, rest. split; [reflexivity|].
    eapply letter_match_facts; [exact Hw0|lia|exact Hl0].
  - pose proof Hsame as Hs. rewrite Hpl in Hs. unfold same_ignoring_case in Hs.
    apply Forall2_app_inv_l in Hs as (body & lst & Hb & Hlst & ->).
    inversion Hlst as [|? wl ? tl Hwl Htl]; subst.
    inversion Htl; subst.
    exists body, wl. split; [reflexivity|].
    eapply letter_match_facts; [exact Hwl|lia|exact Hll].
Qed.

(** The alternation of the four phrases, on a text that starts with one
    of them in any letter case. *)
Lemma quit_phrase_matches phrase written tail g :
  In phrase quit_phrases -> same_ignoring_case phrase written ->
  rmatch (Alt (text "lost connection") (Alt (text "disconnected")
         (Alt (text "left the game") (text "timed out"))))
         (written ++ tail) g k0
  = Some g.
Proof.
  intros Hin Hsame.
  assert (Hg : forall s r y,
             groupless r = true -> rmatch r s g k0 = Some y -> y = g).
  { intros s r y Hr. apply rmatch_groupless; [exact Hr|].
    intros t z [= <-]. reflexivity. }
  assert (Hhit : forall str, phrase = py str ->
             rmatch (text str) (written ++ tail) g k0 = Some g).
  { intros str ->. unfold text. rewrite rmatch_text by exact Hsame.
    reflexivity. }
  cbn [rmatch].
  destruct (rmatch (text "lost connection") (written ++ tail) g k0)
    as [y|] eqn:E1; [f_equal; eapply Hg; [|exact E1]; reflexivity|].
  destruct (rmatch (text "disconnected") (written ++ tail) g k0)
    as [y|] eqn:E2; [f_equal; eapply Hg; [|exact E2]; reflexivity|].
  destruct (rmatch (text "left the game") (written ++ tail) g k0)
    as [y|] eqn:E3; [f_equal; eapply Hg; [|exact E3]; reflexivity|].
  unfold quit_phrases in Hin. cbn [In] in Hin.
  destruct Hin as [Hp|[Hp|[Hp|[Hp|[]]]]]; symmetry in Hp.
  - rewrite (Hhit "lost connection"%string Hp) in E1. discriminate.
  - rewrite (Hhit "disconnected"%string Hp) in E2. discriminate.
  - rewrite (Hhit "left the game"%string Hp) in E3. discriminate.
  - exact (Hhit "timed out"%string Hp).
Qed.

Lemma quit_at_marker ws c name sp written tail phrase :
  List.Forall (fun x => is_space x = true) ws ->
  List.Forall (fun x => name_class x = true) (c :: name) ->
  sp <> [] -> List.Forall (fun x => is_space x = true) sp ->
  In phrase quit_phrases -> same_ignoring_case phrase written ->
  rmatch _quit_re (93 :: 58 :: ws ++ (c :: name) ++ sp ++ written ++ tail)
         None k0
  = Some (Some (c :: name)).
Proof.
  intros Hws Hname Hsp Hsps Hin Hsame.
  destruct sp as [|d sp]; [contradiction|].
  inversion Hname as [|? ? Hc Hname']; subst.
  inversion Hsps as [|? ? Hd Hsps']; subst.
  destruct (written_shape phrase written Hin Hsame)
    as (_ & (w0 & wrest & Hw & Hw0) & _).
  unfold _quit_re. rewrite rmatch_marker. cbn [Z.eqb Pos.eqb andb].
  cbn [rmatch].
  apply star_greedy_some; [exact Hws| |].
  { cbn [app]. apply name_char_facts. exact Hc. }
  cbn [app rmatch]. rewrite Hc.
  apply star_greedy_some; [exact Hname'| |].
  { cbn [app]. apply space_char_facts. exact Hd. }
  change (c :: name ++ d :: sp ++ written ++ tail)
    with ((c :: name) ++ d :: sp ++ written ++ tail).
  rewrite firstn_app_length. rewrite Hd.
  apply star_greedy_some; [exact Hsps'| |].
  { rewrite Hw. cbn [app]. exact Hw0. }
  apply quit_phrase_matches with (phrase := phrase); assumption.
Qed.

Lemma join_not_at_marker ws c name d rest :
  List.Forall (fun x => is_space x = true) ws ->
  List.Forall (fun x => name_class x = true) (c :: name) ->
  is_space d = true ->
  rmatch _join_re (93 :: 58 :: ws ++ (c :: name) ++ d :: rest) None k0 = None.
Proof.
  intros Hws Hname Hd.
  inversion Hname as [|? ? Hc Hname']; subst.
  unfold _join_re. rewrite rmatch_marker. cbn [Z.eqb Pos.eqb andb].
  cbn [rmatch app].
  apply star_greedy_none; [exact Hws|apply name_char_facts; exact Hc|].
  intros w1 w2 Hw.
  assert (Hw2 : List.Forall (fun x => is_space x = true) w2).
  { rewrite Hw in Hws. apply Forall_app in Hws as [_ ?]. assumption. }
  destruct w2 as [|s w2].
  - cbn [app]. rewrite Hc.
    apply star_greedy_none;
      [exact Hname'|apply space_char_facts; exact Hd|].
    intros n1 n2 Hn.
    assert (Hn2 : List.Forall (fun x => name_class x = true) n2).
    { rewrite Hn in Hname'. apply Forall_app in Hname' as [_ ?]. assumption. }
    unfold text. cbn [py List.map list_ascii_of_string fold_right rmatch].
    destruct n2 as [|x n2]; cbn [app].
    + change (Z.of_nat (nat_of_ascii "[")) with 91.
      destruct (space_char_facts d Hd) as (_ & _ & ->). reflexivity.
    + inversion Hn2 as [|? ? Hx _]; subst.
      change (Z.of_nat (nat_of_ascii "[")) with 91.
      destruct (name_char_facts x Hx) as (_ & _ & ->). reflexivity.
  - inversion Hw2 as [|? ? Hs _]; subst. cbn [app].
    destruct (space_char_facts s Hs) as (-> & _). reflexivity.
Qed.

Lemma Forall_not_bracket_of_space s :
  List.Forall (fun x => is_space x = true) s ->
  List.Forall (fun x => x <> 93) s.
Proof.
  apply List.Forall_impl. intros x Hx. apply space_char_facts. exact Hx.
Qed.

Lemma Forall_not_bracket_of_name s :
  List.Forall (fun x => name_class x = true) s ->
  List.Forall (fun x => x <> 93) s.
Proof.
  apply List.Forall_impl. intros x Hx. apply name_char_facts. exact Hx.
Qed.

Lemma search_next (r : regex) c t :
  rmatch r (c :: t) None k0 = None -> search r (c :: t) = search r t.
Proof. intros E. cbn [search]. rewrite E. reflexivity. Qed.

Lemma search_skips_re (re r : regex) pre s :
  re = Seq (text "]:") r ->
  List.Forall (fun c => c <> 93) pre ->
  search re (pre ++ s) = search re s.
Proof. intros ->. apply search_skips. Qed.

Lemma search_without_marker_re (re r : regex) s :
  re = Seq (text "]:") r -> has_marker s = false -> search re s = None.
Proof. intros ->. apply search_without_marker. Qed.

(** X8. Every leave line of the usual shape is recognised: after any text
    without a closing bracket comes the marker, optional blanks, the
    identity (letters, digits, underscores), at least one blank and one
    of the four phrases in any letter case; what follows, if it has no
    closing bracket, does not matter. The event is a leave of exactly
    that identity. *)
Theorem leave_line_recognized (pre ws name sp phrase written tail : pystr) :
  List.Forall (fun x => x <> 93) pre ->
  List.Forall (fun x => is_space x = true) ws ->
  name <> [] -> List.Forall (fun x => name_class x = true) name ->
  sp <> [] -> List.Forall (fun x => is_space x = true) sp ->
  In phrase quit_phrases -> same_ignoring_case phrase written ->
  List.Forall (fun x => x <> 93) tail ->
  player_event (pre ++ py "]:" ++ ws ++ name ++ sp ++ written ++ tail)
  = Some (Left name).
Proof.
  intros Hpre Hws Hne Hname Hsp Hsps Hin Hsame Htail.
  destruct name as [|c name]; [contradiction|].
  destruct sp as [|d sp]; [contradiction|].
  destruct (written_shape phrase written Hin Hsame)
    as (Hwb & _ & (body & wl & Hw & Hwl)).
  set (pre' := lstrip_by is_space pre).
  set (tail' := rstrip_by is_space tail).
  assert (Hpre' : List.Forall (fun x => x <> 93) pre')
    by (apply Forall_lstrip_by; exact Hpre).
  assert (Htail' : List.Forall (fun x => x <> 93) tail')
    by (apply Forall_rstrip_by; exact Htail).
  assert (Hstrip :
    strip (pre ++ py "]:" ++ ws ++ (c :: name) ++ (d :: sp) ++ written ++ tail)
    = pre' ++ 93 :: 58 :: ws ++ (c :: name) ++ (d :: sp) ++ written ++ tail').
  { unfold strip. change (py "]:") with [93; 58]. cbn [app].
    rewrite lstrip_by_app_keep by reflexivity. fold pre'.
    rewrite Hw.
    replace (pre' ++ 93 :: 58 :: ws ++ c :: name ++ d :: sp
               ++ (body ++ [wl]) ++ tail)
      with ((pre' ++ 93 :: 58 :: ws ++ c :: name ++ d :: sp ++ body)
              ++ wl :: tail).
    2:{ repeat (rewrite <- ?app_assoc; cbn [app]). reflexivity. }
    rewrite rstrip_by_app_keep by exact Hwl. fold tail'.
    repeat (rewrite <- ?app_assoc; cbn [app]). reflexivity. }
  assert (Hd : is_space d = true) by (inversion Hsps; assumption).
  cbn [app] in Hstrip.
  assert (Hjoin :
    search _join_re
      (pre' ++ 93 :: 58 :: ws ++ c :: name ++ d :: sp ++ written ++ tail')
    = None).
  { rewrite (search_skips_re _join_re _ pre' _ eq_refl Hpre').
    assert (E : rmatch _join_re
                  (93 :: 58 :: ws ++ c :: name ++ d :: sp ++ written ++ tail')
                  None k0 = None).
    { apply (join_not_at_marker ws c name d (sp ++ written ++ tail'));
        assumption. }
    rewrite (search_next _ _ _ E).
    apply (search_without_marker_re _join_re _ _ eq_refl).
    apply no_bracket_no_marker.
    constructor; [lia|].
    apply Forall_app; split; [apply Forall_not_bracket_of_space, Hws|].
    apply (Forall_app _ (c :: name)); split;
      [apply Forall_not_bracket_of_name, Hname|].
    apply (Forall_app _ (d :: sp)); split;
      [apply Forall_not_bracket_of_space, Hsps|].
    apply Forall_app; split; assumption. }
  assert (Hquit :
    search _quit_re
      (pre' ++ 93 :: 58 :: ws ++ c :: name ++ d :: sp ++ written ++ tail')
    = Some (Some (c :: name))).
  { rewrite (search_skips_re _quit_re _ pre' _ eq_refl Hpre').
    apply search_found.
    apply (quit_at_marker ws c name (d :: sp) written tail' phrase); auto. }
  unfold player_event. cbn [app]. rewrite Hstrip, Hjoin, Hquit. reflexivity.
Qed.
End LeaveLines.

Section LeaveExamples.
#[local] Existing Instance ascii_runtime.

Lemma Forall_of_forallb {A} (f : A -> bool) (l : list A) :
  forallb f l = true -> List.Forall (fun x => f x = true) l.
Proof. intros Hf. apply List.Forall_forall, forallb_forall, Hf. Qed.

Lemma Forall_not_bracket (l : pystr) :
  forallb (fun x => negb (x =? 93)) l = true ->
  List.Forall (fun x => x <> 93) l.
Proof.
  intros Hf. apply List.Forall_forall. intros x Hin.
  apply (proj1 (forallb_forall _ _) Hf) in Hin.
  apply negb_true_iff, Z.eqb_neq in Hin. exact Hin.
Qed.

Lemma Forall2_of_forallb (p w : pystr) :
  length p = length w ->
  forallb (fun pc => lit_matches (fst pc) (snd pc)) (combine p w) = true ->
  same_ignoring_case p w.
Proof.
  revert w. induction p as [|a p IH]; intros [|b w] Hlen Hf;
    try discriminate; [constructor|].
  cbn in Hf. apply andb_true_iff in Hf as [Hab Hrest].
  constructor; [exact Hab|]. apply IH; [|exact Hrest].
  cbn in Hlen. congruence.
Qed.

Lemma leave_line_recognized_witness :
  player_event
    (py "[14:12:40 INFO" ++ py "]:" ++ py " " ++ py "Kai_07" ++ py " "
        ++ py "Left The Game" ++ [10])
  = Some (Left (py "Kai_07")).
Proof.
  refine (leave_line_recognized (py "[14:12:40 INFO") (py " ") (py "Kai_07")
            (py " ") (py "left the game") (py "Left The Game") [10]
            (Forall_not_bracket (py "[14:12:40 INFO") eq_refl)
            (Forall_of_forallb is_space (py " ") eq_refl)
            _ (Forall_of_forallb name_class (py "Kai_07") eq_refl)
            _ (Forall_of_forallb is_space (py " ") eq_refl)
            _ (Forall2_of_forallb (py "left the game") (py "Left The Game")
                 eq_refl eq_refl)
            (Forall_not_bracket [10] eq_refl)).
  - discriminate.
  - discriminate.
  - right. right. left. reflexivity.
Defined.

End LeaveExamples.

(* ================================================================== *)
(** ** The exchange of a command *)
(* ================================================================== *)

Section Exchange.
Context `{PyRuntime}.
Variable net : Net.

Lemma pending_is_stream_length evs :
  pending_bytes evs = length (stream_bytes evs).
Proof.
  induction evs as [|[chunk|e] rest IH]; cbn [pending_bytes stream_bytes];
    [reflexivity| |exact IH].
  rewrite length_app, IH. reflexivity.
Qed.

Lemma buildable_frame p :
  buildable p = true ->
  build_packet (fst (fst p)) (snd (fst p)) (snd p)
  = inl (frame (fst (fst p)) (snd (fst p)) (snd p)).
Proof.
  unfold buildable, frame.
  destruct (build_packet _ _ _); [reflexivity|discriminate].
Qed.

Lemma frame_nonempty p :
  buildable p = true ->
  (0 < length (frame (fst (fst p)) (snd (fst p)) (snd p)))%nat.
Proof.
  intros Hb. apply buildable_frame in Hb.
  destruct (build_packet_shape _ _ _ _ Hb) as (enc & _ & _ & _ & _ & ->).
  rewrite length_app, le32_length. lia.
Qed.

Lemma wire_length ps :
  List.Forall (fun p => buildable p = true) ps ->
  (length ps <= length (wire ps))%nat.
Proof.
  induction 1 as [|p ps Hp _ IH]; [reflexivity|].
  unfold wire in *. cbn [List.map List.concat length].
  rewrite length_app. pose proof (frame_nonempty p Hp). lia.
Qed.

Lemma wire_app ps qs : wire (ps ++ qs) = wire ps ++ wire qs.
Proof. unfold wire. rewrite List.map_app, List.concat_app. reflexivity. Qed.

(** The loop of [command] over a run of packets of other ids closed by
    one of the id waited for. *)
Lemma command_loop_gathers rid last_ty last_body more others :
  forall fuel acc c sk w,
  (length others < fuel)%nat ->
  List.Forall (fun p => buildable p = true /\ reply_id p <> rid) others ->
  buildable (rid, last_ty, last_body) = true ->
  sock c = Some sk -> clean (inbox sk) ->
  stream_bytes (inbox sk)
  = wire (others ++ [(rid, last_ty, last_body)]) ++ more ->
  exists evs',
    command_loop fuel rid acc {| self := c; world := w |}
    = (Ok (acc ++ List.map reply_body others ++ [last_body]),
       {| self := set_sock (Some (set_inbox evs' sk)) c; world := w |})
    /\ clean evs' /\ stream_bytes evs' = more.
Proof.
  induction others as [|p others IH];
    intros fuel acc c sk w Hfuel Hothers Hlast Hsock Hclean Hstream.
  - destruct fuel as [|fuel]; [lia|].
    cbn [app] in Hstream. unfold wire in Hstream.
    cbn [List.map List.concat fst snd] in Hstream.
    rewrite app_nil_r in Hstream.
    destruct (read_packet_frame c sk w rid last_ty last_body _ more
                (buildable_frame _ Hlast) Hsock Hclean Hstream)
      as (evs' & E & C & S).
    exists evs'. split; [|split; assumption].
    cbn [command_loop]. unfold bind. rewrite E. rewrite Z.eqb_refl.
    reflexivity.
  - destruct fuel as [|fuel]; [cbn in Hfuel; lia|].
    inversion Hothers as [|? ? [Hp Hne] Hrest]; subst.
    destruct p as [[pid pty] pbody].
    change ((pid, pty, pbody) :: others) with ([(pid, pty, pbody)] ++ others)
      in Hstream.
    rewrite <- app_assoc, wire_app, <- app_assoc in Hstream.
    unfold wire at 1 in Hstream.
    cbn [List.map List.concat fst snd] in Hstream.
    rewrite app_nil_r in Hstream.
    destruct (read_packet_frame c sk w pid pty pbody _ _
                (buildable_frame _ Hp) Hsock Hclean Hstream)
      as (evs1 & E & C & S).
    destruct (IH fuel (acc ++ [pbody])
                (set_sock (Some (set_inbox evs1 sk)) c) (set_inbox evs1 sk) w)
      as (evs' & E' & C' & S'); auto.
    { cbn in Hfuel. lia. }
    exists evs'. split; [|split; assumption].
    cbn [command_loop]. unfold bind at 1. rewrite E.
    unfold reply_id in Hne. cbn [fst] in Hne.
    destruct (Z.eqb_spec pid rid); [contradiction|].
    rewrite E'. cbn [List.map reply_body snd].
    rewrite <- app_assoc. reflexivity.
Qed.

(** What [command] does once the client is connected: from
    [rid = self._next_id()] to the end. *)
Lemma command_tail_gathers c sk w cmd pkt others last_ty last_body more :
  let rid := req_id c + 1 in
  sock c = Some sk -> hd None (sendq sk) = None ->
  build_packet rid SERVERDATA_EXECCOMMAND cmd = inl pkt ->
  clean (inbox sk) ->
  List.Forall (fun p => buildable p = true /\ reply_id p <> rid) others ->
  buildable (rid, last_ty, last_body) = true ->
  stream_bytes (inbox sk)
  = wire (others ++ [(rid, last_ty, last_body)]) ++ more ->
  exists evs',
    (rid <- _next_id ;;
     _send_packet rid SERVERDATA_EXECCOMMAND cmd ;;
     c' <- get_self ;;
     responses <- command_loop (rounds_bound c') rid [] ;;
     ret (join NEWLINE responses))%rcon {| self := c; world := w |}
    = (Ok (join NEWLINE (List.map reply_body others ++ [last_body])),
       {| self := set_req_id rid
                    (set_sock
                       (Some {| fd := fd sk; inbox := evs';
                                sendq := tl (sendq sk);
                                sent := sent sk ++ pkt |}) c);
          world := w |})
    /\ clean evs' /\ stream_bytes evs' = more.
Proof.
  intros rid Hsock Hsend Hpkt Hclean Hothers Hlast Hstream.
  set (sk1 := {| fd := fd sk; inbox := inbox sk; sendq := tl (sendq sk);
                 sent := sent sk ++ pkt |}).
  set (c1 := set_sock (Some sk1) (set_req_id rid c)).
  assert (Hfuel : (length others < rounds_bound c1)%nat).
  { unfold rounds_bound, c1. cbn [sock set_sock sk1 inbox].
    rewrite pending_is_stream_length, Hstream, length_app, wire_app, length_app.
    assert (List.Forall (fun p => buildable p = true) others) as Hb.
    { eapply List.Forall_impl; [|exact Hothers]. intros p [Hp _]. exact Hp. }
    pose proof (wire_length others Hb). lia. }
  destruct (command_loop_gathers rid last_ty last_body more others
              (rounds_bound c1) [] c1 sk1 w Hfuel Hothers Hlast eq_refl
              Hclean Hstream) as (evs' & E & C & S).
  exists evs'. split; [|split; assumption].
  unfold bind at 1. rewrite next_id_eq.
  unfold bind at 1.
  rewrite (send_packet_ok _ _ _ pkt _ sk) by assumption.
  unfold bind at 1. unfold get_self at 1. cbn [self].
  fold sk1. fold rid. fold c1.
  unfold bind at 1. rewrite E. reflexivity.
Qed.

(** X10. On a connected client, [command] sends one EXEC frame under the
    next request id and then gathers replies: the bodies of all packets
    up to and including the first whose id is the one sent, joined by
    newlines, whatever the types of those packets and however the bytes
    are cut into chunks; what follows that packet stays in the socket,
    and the client stays connected. *)
Theorem command_gathers_until_matching_id
        c sk w cmd pkt others last_ty last_body more :
  let rid := req_id c + 1 in
  sock c = Some sk -> hd None (sendq sk) = None ->
  build_packet rid SERVERDATA_EXECCOMMAND cmd = inl pkt ->
  clean (inbox sk) ->
  List.Forall (fun p => buildable p = true /\ reply_id p <> rid) others ->
  buildable (rid, last_ty, last_body) = true ->
  stream_bytes (inbox sk)
  = wire (others ++ [(rid, last_ty, last_body)]) ++ more ->
  exists evs',
    command net cmd {| self := c; world := w |}
    = (Ok (join NEWLINE (List.map reply_body others ++ [last_body])),
       {| self := set_req_id rid
                    (set_sock
                       (Some {| fd := fd sk; inbox := evs';
                                sendq := tl (sendq sk);
                                sent := sent sk ++ pkt |}) c);
          world := w |})
    /\ clean evs' /\ stream_bytes evs' = more.
Proof.
  intros rid Hsock Hsend Hpkt Hclean Hothers Hlast Hstream.
  destruct (command_tail_gathers c sk w cmd pkt others last_ty last_body more
              Hsock Hsend Hpkt Hclean Hothers Hlast Hstream)
    as (evs' & E & C & S).
  exists evs'. split; [|split; assumption].
  unfold command. unfold bind at 1. unfold get_self at 1. cbn [self].
  rewrite Hsock. unfold bind at 1. unfold ret at 1. exact E.
Qed.

(** [auth] on a connected client whose peer answers with two packets,
    the second of which accepts. *)
Lemma auth_accepts c sk w pkt_auth n1 (content1 : bytes) rid2 body2 more :
  sock c = Some sk -> hd None (sendq sk) = None ->
  build_packet (req_id c + 1) SERVERDATA_AUTH (password c) = inl pkt_auth ->
  clean (inbox sk) ->
  int32_ok n1 = true -> blen content1 = n1 ->
  buildable (rid2, SERVERDATA_RESPONSE_VALUE, body2) = true -> rid2 <> -1 ->
  stream_bytes (inbox sk)
  = (le32 n1 ++ content1)
      ++ frame rid2 SERVERDATA_RESPONSE_VALUE body2 ++ more ->
  exists evs',
    auth {| self := c; world := w |}
    = (Ok tt,
       {| self := set_req_id (req_id c + 1)
                    (set_sock
                       (Some {| fd := fd sk; inbox := evs';
                                sendq := tl (sendq sk);
                                sent := sent sk ++ pkt_auth |}) c);
          world := w |})
    /\ clean evs' /\ stream_bytes evs' = more.
Proof.
  intros Hsock Hsend Hauth Hclean Hn1 Hlen1 Hb2 Hne Hstream.
  unfold auth. unfold bind at 1. rewrite next_id_eq.
  unfold bind at 1. unfold get_self at 1. cbn [self].
  unfold bind at 1.
  rewrite (send_packet_ok _ _ _ pkt_auth _ sk) by assumption.
  set (sk1 := {| fd := fd sk; inbox := inbox sk; sendq := tl (sendq sk);
                 sent := sent sk ++ pkt_auth |}).
  set (c1 := set_sock (Some sk1) (set_req_id (req_id c + 1) c)).
  rewrite <- app_assoc in Hstream.
  destruct (read_packet_any c1 sk1 w n1 content1 _
              Hn1 Hlen1 eq_refl Hclean Hstream)
    as (p1 & evs1 & E1 & C1 & S1).
  unfold bind at 1. rewrite E1.
  set (c2 := set_sock (Some (set_inbox evs1 sk1)) c1).
  destruct (read_packet_frame c2 (set_inbox evs1 sk1) w rid2
              SERVERDATA_RESPONSE_VALUE body2 _ more
              (buildable_frame _ Hb2) eq_refl C1 S1)
    as (evs2 & E2 & C2 & S2).
  unfold bind at 1. rewrite E2.
  exists evs2. split; [|split; assumption].
  destruct (Z.eqb_spec rid2 (-1)); [contradiction|]. reflexivity.
Qed.

(** X11. [command] on a client that is not connected opens the
    connection itself: it creates one socket, sends the AUTH frame with
    the password under the next request id, reads the two answers, then
    sends the EXEC frame under the id after that and gathers the reply.
    The socket is still open when [command] returns: closing it is left
    to the caller. *)
Theorem on_demand_command_authenticates_first
        c w cmd pkt_auth pkt_cmd n1 (content1 : bytes) rid2 body2
        others last_ty last_body more :
  let peer := net (created w) in
  let rid := req_id c + 2 in
  sock c = None ->
  connect_error peer = None ->
  hd None (send_errors peer) = None ->
  hd None (tl (send_errors peer)) = None ->
  build_packet (req_id c + 1) SERVERDATA_AUTH (password c) = inl pkt_auth ->
  build_packet rid SERVERDATA_EXECCOMMAND cmd = inl pkt_cmd ->
  clean (incoming peer) ->
  int32_ok n1 = true -> blen content1 = n1 ->
  buildable (rid2, SERVERDATA_RESPONSE_VALUE, body2) = true -> rid2 <> -1 ->
  List.Forall (fun p => buildable p = true /\ reply_id p <> rid) others ->
  buildable (rid, last_ty, last_body) = true ->
  stream_bytes (incoming peer)
  = (le32 n1 ++ content1)
      ++ frame rid2 SERVERDATA_RESPONSE_VALUE body2
      ++ wire (others ++ [(rid, last_ty, last_body)]) ++ more ->
  exists evs',
    command net cmd {| self := c; world := w |}
    = (Ok (join NEWLINE (List.map reply_body others ++ [last_body])),
       {| self := set_req_id rid
                    (set_sock
                       (Some {| fd := created w; inbox := evs';
                                sendq := tl (tl (send_errors peer));
                                sent := pkt_auth ++ pkt_cmd |}) c);
          world := {| created := S (created w);
                      open_fds := created w :: open_fds w |} |})
    /\ clean evs' /\ stream_bytes evs' = more.
Proof.
  intros peer rid Hsock Hconn Hs1 Hs2 Hauth Hcmd Hclean Hn1 Hlen1 Hb2 Hne
         Hothers Hlast Hstream.
  set (w1 := {| created := S (created w);
                open_fds := created w :: open_fds w |}).
  set (sk0 := {| fd := created w; inbox := incoming peer;
                 sendq := send_errors peer; sent := [] |}).
  destruct (auth_accepts (set_sock (Some sk0) c) sk0 w1 pkt_auth n1 content1
              rid2 body2 _ eq_refl Hs1 Hauth Hclean Hn1 Hlen1 Hb2 Hne Hstream)
    as (evs1 & E1 & C1 & S1).
  set (sk1 := {| fd := fd sk0; inbox := evs1; sendq := tl (sendq sk0);
                 sent := sent sk0 ++ pkt_auth |}) in *.
  set (c1 := set_req_id (req_id (set_sock (Some sk0) c) + 1)
               (set_sock (Some sk1) (set_sock (Some sk0) c))) in *.
  assert (Hrid : req_id c1 + 1 = rid) by (unfold c1, rid; cbn; lia).
  destruct (command_tail_gathers c1 sk1 w1 cmd pkt_cmd others last_ty
              last_body more eq_refl Hs2) as (evs' & E & C & S).
  { rewrite Hrid. exact Hcmd. }
  { exact C1. }
  { rewrite Hrid. exact Hothers. }
  { rewrite Hrid. exact Hlast. }
  { rewrite Hrid. exact S1. }
  exists evs'. split; [|split; assumption].
  unfold command. unfold bind at 1. unfold get_self at 1. cbn [self].
  rewrite Hsock. unfold bind at 1. unfold bind at 1.
  unfold _connect at 1. cbn [world self]. fold peer. rewrite Hconn.
  fold sk0. fold w1. rewrite E1.
  rewrite E. rewrite Hrid. reflexivity.
Qed.

End Exchange.

Section ExchangeExamples.
#[local] Existing Instance ascii_runtime.

Local Abbreviation saved := (py "Saved the game").
Local Abbreviation nobody := (py "There are 0 of a max 20 players online:").
Local Abbreviation two_replies :=
  [Data (frame 7 SERVERDATA_RESPONSE_VALUE saved);
   Data (frame 2 SERVERDATA_RESPONSE_VALUE nobody)].

Lemma command_gathers_until_matching_id_witness :
  fst (command unreachable_net (py "list")
         {| self := connected_to two_replies; world := one_socket |})
  = Ok (saved ++ [10] ++ nobody).
Proof.
  destruct (command_gathers_until_matching_id unreachable_net
              (connected_to two_replies)
              {| fd := 0; inbox := two_replies; sendq := []; sent := [] |}
              one_socket (py "list")
              (frame 2 SERVERDATA_EXECCOMMAND (py "list"))
              [(7, SERVERDATA_RESPONSE_VALUE, saved)]
              SERVERDATA_RESPONSE_VALUE nobody [])
    as (evs' & E & _).
  - reflexivity.
  - reflexivity.
  - vm_compute. reflexivity.
  - repeat constructor.
  - constructor; [|constructor].
    split; [vm_compute; reflexivity|]. intros Heq. vm_compute in Heq.
    discriminate.
  - vm_compute. reflexivity.
  - vm_compute. reflexivity.
  - rewrite E. reflexivity.
Defined.

Lemma on_demand_command_authenticates_first_witness :
  fst (command listing_net (py "list")
         {| self := Rcon.init (py "127.0.0.1") 25575 (py "hunter2");
            world := sys_world configured |})
  = Ok (py "There are 2 of a max 20 players online: Kai, Alex").
Proof.
  destruct (on_demand_command_authenticates_first listing_net
              (Rcon.init (py "127.0.0.1") 25575 (py "hunter2"))
              (sys_world configured) (py "list")
              (frame 1 SERVERDATA_AUTH (py "hunter2"))
              (frame 2 SERVERDATA_EXECCOMMAND (py "list"))
              10 (le32 1 ++ le32 0 ++ [0; 0])
              1 (py "") []
              SERVERDATA_RESPONSE_VALUE
              (py "There are 2 of a max 20 players online: Kai, Alex") [])
    as (evs' & E & _).
  - reflexivity.
  - reflexivity.
  - reflexivity.
  - reflexivity.
  - vm_compute. reflexivity.
  - vm_compute. reflexivity.
  - repeat constructor.
  - reflexivity.
  - reflexivity.
  - vm_compute. reflexivity.
  - discriminate.
  - constructor.
  - vm_compute. reflexivity.
  - vm_compute. reflexivity.
  - rewrite E. reflexivity.
Defined.

End ExchangeExamples.

(* ================================================================== *)
(** ** Replies that stop short or make no sense *)
(* ================================================================== *)

Section BrokenReplies.
Context `{PyRuntime}.
Variable net : Net.

(** A peer that delivers less than what is asked for and closes. *)
Lemma recv_loop_short evs : forall size buf,
  clean evs -> blen buf + blen (stream_bytes evs) < size ->
  recv_loop size buf evs = (Raise connection_closed, []).
Proof.
  induction evs as [|ev rest IH]; intros size buf Hclean Hshort.
  - cbn [recv_loop]. cbn [stream_bytes] in Hshort. unfold blen in *.
    cbn [length] in Hshort.
    destruct (Z.ltb_spec (Z.of_nat (length buf)) size); [reflexivity|lia].
  - inversion Hclean as [|? ? Hev Hrest]; subst.
    destruct ev as [chunk|e]; [|contradiction].
    destruct chunk as [|b chunk]; [contradiction|].
    cbn [recv_loop stream_bytes] in *. unfold blen in *.
    rewrite length_app in Hshort.
    destruct (Z.ltb_spec (Z.of_nat (length buf)) size); [|lia].
    destruct (Nat.leb_spec (length (b :: chunk))
                (Z.to_nat (size - Z.of_nat (length buf)))) as [Hle|Hgt];
      [|lia].
    apply IH; [exact Hrest|]. rewrite length_app. lia.
Qed.

Lemma recv_exact_short c sk w size :
  sock c = Some sk -> clean (inbox sk) ->
  blen (stream_bytes (inbox sk)) < size ->
  _recv_exact size {| self := c; world := w |}
  = (Raise connection_closed,
     {| self := set_sock (Some (set_inbox [] sk)) c; world := w |}).
Proof.
  intros Hsock Hclean Hshort. unfold _recv_exact. cbn [self world].
  rewrite Hsock, recv_loop_short; [reflexivity|exact Hclean|].
  unfold blen in *. cbn [length]. lia.
Qed.

(** X12. A reply that stops short -- the peer closes before the four
    bytes of the length field are there, or before as many bytes as the
    length field announces have followed -- makes [_read_packet] raise
    ConnectionError("RCON connection closed"), having taken all that
    was delivered. *)
Theorem truncated_reply_raises_connection_closed c sk w :
  sock c = Some sk -> clean (inbox sk) ->
  (blen (stream_bytes (inbox sk)) < 4
   \/ exists n rest,
        int32_ok n = true
        /\ stream_bytes (inbox sk) = le32 n ++ rest
        /\ blen rest < n) ->
  _read_packet {| self := c; world := w |}
  = (Raise connection_closed,
     {| self := set_sock (Some (set_inbox [] sk)) c; world := w |}).
Proof.
  intros Hsock Hclean [Hshort|(n & rest & Hn & Hstream & Hshort)].
  - unfold _read_packet, bind, get_self. cbn [self]. rewrite Hsock.
    rewrite (recv_exact_short c sk w 4 Hsock Hclean Hshort). reflexivity.
  - assert (Hall : 4 <= blen (stream_bytes (inbox sk))).
    { rewrite Hstream. unfold blen. rewrite length_app, le32_length. lia. }
    destruct (recv_exact_delivers c sk w 4 Hsock Hclean)
      as [evs1 (E1 & C1 & S1)]; [lia|].
    rewrite Hstream in E1, S1.
    change (Z.to_nat 4) with 4%nat in E1, S1.
    rewrite take4_le32 in E1. rewrite drop4_le32 in S1.
    unfold _read_packet, bind, get_self. cbn [self]. rewrite Hsock, E1.
    destruct (le32_cons n) as (b0 & t0 & Hb). rewrite Hb. rewrite <- Hb.
    rewrite unpack_le32 by exact Hn.
    rewrite (recv_exact_short (set_sock (Some (set_inbox evs1 sk)) c)
               (set_inbox evs1 sk) w n eq_refl C1).
    + reflexivity.
    + cbn [inbox set_inbox]. rewrite S1. exact Hshort.
Qed.

(** [_recv_exact] asked for nothing takes nothing. *)
Lemma recv_loop_nothing size evs :
  size <= 0 -> recv_loop size [] evs = (Ok [], evs).
Proof.
  intros Hsize.
  destruct evs; cbn [recv_loop]; unfold blen; cbn [length];
    change (Z.of_nat 0) with 0; destruct (Z.ltb_spec 0 size); try lia;
    reflexivity.
Qed.

(** A frame whose length field is below 8. *)
Lemma read_packet_undersized c sk w n (content : bytes) more :
  int32_ok n = true -> n < 8 -> blen content = Z.max 0 n ->
  sock c = Some sk -> clean (inbox sk) ->
  stream_bytes (inbox sk) = le32 n ++ content ++ more ->
  exists evs',
    _read_packet {| self := c; world := w |}
    = (Ok None, {| self := set_sock (Some (set_inbox evs' sk)) c; world := w |})
    /\ clean evs' /\ stream_bytes evs' = more.
Proof.
  intros Hn Hsmall Hlen Hsock Hclean Hstream.
  assert (Hall : 4 <= blen (stream_bytes (inbox sk))).
  { rewrite Hstream. unfold blen. rewrite length_app, le32_length. lia. }
  destruct (recv_exact_delivers c sk w 4 Hsock Hclean)
    as [evs1 (E1 & C1 & S1)]; [lia|].
  rewrite Hstream in E1, S1.
  change (Z.to_nat 4) with 4%nat in E1, S1.
  rewrite take4_le32 in E1. rewrite drop4_le32 in S1.
  unfold _read_packet, bind, get_self. cbn [self]. rewrite Hsock, E1.
  destruct (le32_cons n) as (b0 & t0 & Hb). rewrite Hb. rewrite <- Hb.
  rewrite unpack_le32 by exact Hn.
  destruct (Z.le_gt_cases n 0) as [Hneg|Hpos].
  - (* nothing is asked of the socket *)
    assert (content = []) as ->.
    { destruct content; [reflexivity|]. unfold blen in Hlen. cbn in Hlen. lia. }
    exists evs1. split; [|split; assumption].
    unfold _recv_exact. cbn [self world sock set_sock inbox set_inbox].
    rewrite recv_loop_nothing by exact Hneg. reflexivity.
  - destruct (recv_exact_delivers (set_sock (Some (set_inbox evs1 sk)) c)
                (set_inbox evs1 sk) w n eq_refl C1)
      as [evs2 (E2 & C2 & S2)].
    { cbn [inbox set_inbox]. rewrite S1. unfold blen in *.
      rewrite length_app. lia. }
    cbn [inbox set_inbox] in E2, S2. rewrite S1 in E2, S2.
    replace (Z.to_nat n) with (length content) in E2, S2
      by (unfold blen in Hlen; lia).
    rewrite firstn_app, firstn_all, Nat.sub_diag in E2.
    rewrite skipn_app, skipn_all, Nat.sub_diag in S2.
    simpl in E2, S2. rewrite app_nil_r in E2.
    exists evs2. split; [|split; assumption].
    rewrite E2.
    destruct content as [|x content'] eqn:Hc; [reflexivity|].
    rewrite <- Hc in *.
    destruct (Z.ltb_spec (blen content) 8); [reflexivity|lia].
Qed.

(** X13. A frame whose length field is below 8 -- zero and negative
    values included -- is not a packet: [_read_packet] takes the length
    field and as many bytes as it announces (none when it is not
    positive) and returns the triple of [None]s; it does not raise. *)
Theorem undersized_frame_reads_as_no_packet c sk w n (content : bytes) more :
  int32_ok n = true -> n < 8 -> blen content = Z.max 0 n ->
  sock c = Some sk -> clean (inbox sk) ->
  stream_bytes (inbox sk) = le32 n ++ content ++ more ->
  exists evs',
    fst (_read_packet {| self := c; world := w |}) = Ok None
    /\ sock (self (snd (_read_packet {| self := c; world := w |})))
       = Some (set_inbox evs' sk)
    /\ stream_bytes evs' = more.
Proof.
  intros Hn Hsmall Hlen Hsock Hclean Hstream.
  destruct (read_packet_undersized c sk w n content more
              Hn Hsmall Hlen Hsock Hclean Hstream) as (evs' & E & _ & S).
  exists evs'. rewrite E. auto.
Qed.

(** X14. An undersized frame where the reply should be ends [command]
    at once: the answer is the empty string, no error is raised, and
    whatever the server sent after that frame is left in the socket for
    the next read. *)
Theorem undersized_reply_ends_command c sk w cmd pkt n (content : bytes) more :
  sock c = Some sk -> hd None (sendq sk) = None ->
  build_packet (req_id c + 1) SERVERDATA_EXECCOMMAND cmd = inl pkt ->
  int32_ok n = true -> n < 8 -> blen content = Z.max 0 n ->
  clean (inbox sk) ->
  stream_bytes (inbox sk) = le32 n ++ content ++ more ->
  exists evs',
    command net cmd {| self := c; world := w |}
    = (Ok [],
       {| self := set_req_id (req_id c + 1)
                    (set_sock
                       (Some {| fd := fd sk; inbox := evs';
                                sendq := tl (sendq sk);
                                sent := sent sk ++ pkt |}) c);
          world := w |})
    /\ stream_bytes evs' = more.
Proof.
  intros Hsock Hsend Hpkt Hn Hsmall Hlen Hclean Hstream.
  set (sk1 := {| fd := fd sk; inbox := inbox sk; sendq := tl (sendq sk);
                 sent := sent sk ++ pkt |}).
  set (c1 := set_sock (Some sk1) (set_req_id (req_id c + 1) c)).
  destruct (read_packet_undersized c1 sk1 w n content more
              Hn Hsmall Hlen eq_refl Hclean Hstream) as (evs' & E & _ & S).
  exists evs'. split; [|exact S].
  unfold command. unfold bind at 1. unfold get_self at 1. cbn [self].
  rewrite Hsock. unfold bind at 1. unfold ret at 1.
  unfold bind at 1. rewrite next_id_eq.
  unfold bind at 1.
  rewrite (send_packet_ok _ _ _ pkt _ sk) by assumption.
  unfold bind at 1. unfold get_self at 1. cbn [self].
  fold sk1. fold c1.
  unfold rounds_bound. cbn [sock c1 set_sock command_loop].
  unfold bind at 1. unfold bind at 1. rewrite E. reflexivity.
Qed.

(** The context manager comes to an outcome when its body does. *)
Lemma with_block_total {A} h p pw (body : M A) w :
  total body -> fst (with_SimpleRCON net h p pw body w) <> Diverge.
Proof.
  intros Hbody. unfold with_SimpleRCON.
  assert (Henter : total (__enter__ net)).
  { unfold __enter__. apply total_bind; [|intros ?; apply total_auth].
    intros s. unfold _connect. destruct (connect_error _); discriminate. }
  specialize (Henter {| self := Rcon.init h p pw; world := w |}).
  destruct (__enter__ net _) as [[u|e|] s1]; cbn [fst] in *;
    [|discriminate|congruence].
  specialize (Hbody s1).
  destruct (body s1) as [[a|e|] s2]; cbn [fst] in *;
    [| |congruence];
    destruct (__exit__ s2); discriminate.
Qed.

(** X15. [get_online_players] always answers: whatever the network does
    -- refused connections, timeouts, a peer that closes, frames that
    make no sense, a wrong password -- the call returns the report of
    the state it leaves behind; no exception reaches the caller and the
    call does not hang on a stream that ends. *)
Theorem get_online_players_always_answers now now1 now2 st :
  let out := get_online_players net now now1 now2 st in
  fst out = Ok (online_report (mgr (snd out))).
Proof.
  intros out. unfold out, get_online_players, _rcon_list.
  destruct (negb (rcon_enabled (mgr st)) || negb (truthy (rcon_pass (mgr st))));
    [reflexivity|].
  destruct (_rcon_disabled_reason (mgr st)); [reflexivity|].
  pose proof (with_block_total (rcon_host (mgr st)) (rcon_port (mgr st))
                (rcon_pass (mgr st)) (command net (py "list")) (sys_world st)
                (total_command net (py "list"))) as Ht.
  destruct (with_SimpleRCON _ _ _ _ _ _) as [[resp|e|] s]; cbn [fst] in Ht;
    [reflexivity|reflexivity|congruence].
Qed.

End BrokenReplies.

Section BrokenReplyExamples.
#[local] Existing Instance ascii_runtime.

Lemma truncated_reply_raises_connection_closed_witness :
  fst (_read_packet {| self := connected_to [Data [10; 0]];
                       world := one_socket |})
  = Raise connection_closed.
Proof.
  rewrite (truncated_reply_raises_connection_closed
             (connected_to [Data [10; 0]])
             {| fd := 0; inbox := [Data [10; 0]]; sendq := []; sent := [] |}
             one_socket eq_refl).
  - reflexivity.
  - repeat constructor.
  - left. vm_compute. reflexivity.
Defined.

Local Abbreviation four_bytes := [Data [4; 0; 0; 0; 1; 2]; Data [3; 4; 9]].

Lemma undersized_frame_reads_as_no_packet_witness :
  fst (_read_packet {| self := connected_to four_bytes; world := one_socket |})
  = Ok None.
Proof.
  destruct (undersized_frame_reads_as_no_packet
              (connected_to four_bytes)
              {| fd := 0; inbox := four_bytes; sendq := []; sent := [] |}
              one_socket 4 [1; 2; 3; 4] [9])
    as (evs' & E & _).
  - reflexivity.
  - reflexivity.
  - reflexivity.
  - reflexivity.
  - repeat constructor.
  - reflexivity.
  - exact E.
Defined.

Lemma undersized_reply_ends_command_witness :
  fst (command unreachable_net (py "list")
         {| self := connected_to four_bytes; world := one_socket |})
  = Ok [].
Proof.
  destruct (undersized_reply_ends_command unreachable_net
              (connected_to four_bytes)
              {| fd := 0; inbox := four_bytes; sendq := []; sent := [] |}
              one_socket (py "list")
              (frame 2 SERVERDATA_EXECCOMMAND (py "list"))
              4 [1; 2; 3; 4] [9])
    as (evs' & E & _).
  - reflexivity.
  - reflexivity.
  - vm_compute. reflexivity.
  - reflexivity.
  - reflexivity.
  - reflexivity.
  - repeat constructor.
  - reflexivity.
  - rewrite E. reflexivity.
Defined.

End BrokenReplyExamples.

(* ================================================================== *)
(** ** Recent players *)
(* ================================================================== *)

Section RecentPlayers.

Local Abbreviation later := (fun a b : pystr * timestamp => snd b <= snd a).

Lemma insert_desc_perm x l : insert_desc x l ≡ₚ x :: l.
Proof.
  induction l as [|y r IH]; cbn [insert_desc]; [reflexivity|].
  destruct (snd y <=? snd x); [reflexivity|].
  rewrite IH. apply Permutation_swap.
Qed.

Lemma sort_desc_perm l : sort_desc l ≡ₚ l.
Proof.
  induction l as [|x l IH]; [reflexivity|].
  cbn [sort_desc fold_right]. fold (sort_desc l).
  rewrite insert_desc_perm, IH. reflexivity.
Qed.

Lemma insert_desc_sorted x l :
  StronglySorted later l -> StronglySorted later (insert_desc x l).
Proof.
  induction 1 as [|y r Hr IH Hy]; cbn [insert_desc].
  - repeat constructor.
  - destruct (Z.leb_spec (snd y) (snd x)) as [Hle|Hgt].
    + constructor; [constructor; assumption|].
      constructor; [exact Hle|].
      eapply List.Forall_impl; [|exact Hy]. cbn. intros z Hz. lia.
    + constructor; [exact IH|].
      apply List.Forall_forall. intros z Hz.
      apply (Permutation_in _ (insert_desc_perm x r)) in Hz.
      destruct Hz as [<-|Hz]; [cbn; lia|].
      exact (proj1 (List.Forall_forall _ _) Hy z Hz).
Qed.

Lemma sort_desc_sorted l : StronglySorted later (sort_desc l).
Proof.
  induction l as [|x l IH]; [constructor|].
  cbn [sort_desc fold_right]. apply insert_desc_sorted, IH.
Qed.

Lemma pyslice_take {A} (k : Z) (l : list A) :
  0 <= k -> pyslice 0 k l = firstn (Z.to_nat k) l.
Proof.
  intros Hk. unfold pyslice, clamp_index. cbn [Z.ltb Z.compare].
  destruct (Z.ltb_spec k 0); [lia|].
  replace (Z.min 0 (Z.of_nat (length l))) with 0 by lia.
  cbn [Z.to_nat skipn]. rewrite Z.sub_0_r.
  destruct (Z.le_gt_cases k (Z.of_nat (length l))).
  - rewrite Z.min_l by lia. reflexivity.
  - rewrite Z.min_r by lia. rewrite Nat2Z.id.
    change (drop (Z.to_nat 0) l) with l.
    rewrite !firstn_all2 by lia. reflexivity.
Qed.

(** X16. [get_recent_players(limit)] with a limit that is not negative
    returns the [limit] most recently seen identities, most recent
    first: as many entries as the limit allows, no identity twice, each
    with its entry of the last-seen map, in descending order of time,
    and nobody left out was seen later than anybody returned. *)
Theorem recent_players_most_recent_first
        (m : Manager) (items : list (pystr * timestamp)) (limit : Z) :
  items ≡ₚ map_to_list (player_last_seen m) -> 0 <= limit ->
  let out := get_recent_players limit items in
  length out = Nat.min (Z.to_nat limit) (size (player_last_seen m))
  /\ NoDup (List.map name out)
  /\ (forall p, p ∈ out ->
        is_Some (last_seen p)
        /\ last_seen p = player_last_seen m !! name p)
  /\ StronglySorted seen_no_earlier out
  /\ (forall n t p,
        player_last_seen m !! n = Some t -> n ∉ List.map name out ->
        p ∈ out -> exists tp, last_seen p = Some tp /\ t <= tp).
Proof.
  intros Hitems Hlimit out.
  set (mk := fun kv : pystr * timestamp =>
               {| name := fst kv; last_seen := Some (snd kv) |}).
  set (sorted := sort_desc items).
  set (k := Z.to_nat limit).
  assert (Hout : out = List.map mk (firstn k sorted)).
  { unfold out, get_recent_players. rewrite pyslice_take by exact Hlimit.
    reflexivity. }
  assert (Hperm : sorted ≡ₚ map_to_list (player_last_seen m)).
  { unfold sorted. rewrite sort_desc_perm. exact Hitems. }
  assert (Hsorted : StronglySorted later sorted) by apply sort_desc_sorted.
  assert (Hnodup : NoDup (List.map fst sorted)).
  { change (List.map fst sorted) with (fst <$> sorted).
    rewrite Hperm. apply NoDup_fst_map_to_list. }
  assert (Hsplit : sorted = firstn k sorted ++ skipn k sorted)
    by (symmetry; apply firstn_skipn).
  assert (Hin : forall kv, kv ∈ sorted ->
                  player_last_seen m !! fst kv = Some (snd kv)).
  { intros [n t] Hkv. rewrite Hperm in Hkv.
    apply elem_of_map_to_list in Hkv. exact Hkv. }
  assert (Hsub : forall kv, kv ∈ firstn k sorted -> kv ∈ sorted).
  { intros kv Hkv. rewrite Hsplit. apply elem_of_app. auto. }
  rewrite Hout. split; [|split; [|split; [|split]]].
  - rewrite length_map, length_firstn. f_equal.
    rewrite <- (length_map_to_list (player_last_seen m)).
    apply Permutation_length. exact Hperm.
  - rewrite List.map_map. cbn [mk name].
    rewrite Hsplit, List.map_app in Hnodup.
    apply NoDup_app in Hnodup as (Hnd & _ & _). exact Hnd.
  - intros p Hp. apply list_elem_of_In, List.in_map_iff in Hp as (kv & <- & Hkv).
    cbn [mk last_seen name]. split; [eauto|].
    symmetry. apply Hin, Hsub, list_elem_of_In, Hkv.
  - rewrite Hsplit in Hsorted.
    assert (Hfirst : StronglySorted later (firstn k sorted)).
    { revert Hsorted. generalize (firstn k sorted) as a.
      induction a as [|x a IH]; intros Hs; [constructor|].
      inversion Hs as [|? ? Hs' Hall]; subst.
      constructor; [apply IH, Hs'|].
      apply Forall_app in Hall as [Hall _]. exact Hall. }
    clear - Hfirst. induction Hfirst as [|x a Ha IH Hx]; [constructor|].
    cbn [List.map]. constructor; [exact IH|].
    apply List.Forall_forall. intros p Hp.
    apply List.in_map_iff in Hp as (kv & <- & Hkv).
    exists (snd x), (snd kv). cbn. split; [reflexivity|].
    split; [reflexivity|].
    exact (proj1 (List.Forall_forall _ _) Hx kv Hkv).
  - intros n t p Hn Hnot Hp.
    apply list_elem_of_In, List.in_map_iff in Hp as (kv & <- & Hkv).
    apply list_elem_of_In in Hkv.
    exists (snd kv). cbn [mk last_seen]. split; [reflexivity|].
    assert (Hnt : (n, t) ∈ sorted).
    { rewrite Hperm. apply elem_of_map_to_list. exact Hn. }
    rewrite Hsplit in Hnt. apply elem_of_app in Hnt as [Hnt|Hnt].
    + exfalso. apply Hnot. apply list_elem_of_In, List.in_map_iff.
      exists (mk (n, t)). split; [reflexivity|].
      apply List.in_map, list_elem_of_In, Hnt.
    + rewrite Hsplit in Hsorted. clear - Hsorted Hkv Hnt.
      revert Hsorted Hkv. generalize (firstn k sorted) as a.
      induction a as [|x a IH]; intros Hs Hkv.
      * apply elem_of_nil in Hkv. contradiction.
      * inversion Hs as [|? ? Hs' Hall]; subst.
        apply elem_of_cons in Hkv as [->|Hkv]; [|apply IH; assumption].
        apply (proj1 (List.Forall_forall _ _) Hall (n, t)).
        apply List.in_or_app. right. apply list_elem_of_In, Hnt.
Qed.

End RecentPlayers.

Section RecentPlayersExamples.

Lemma recent_players_most_recent_first_witness :
  [(py "Kai", 10)] ≡ₚ map_to_list (player_last_seen one_seen)
  /\ 0 <= 30
  /\ length (get_recent_players 30 [(py "Kai", 10)])
     = Nat.min (Z.to_nat 30) (size (player_last_seen one_seen)).
Proof.
  assert (Hp : [(py "Kai", 10)] ≡ₚ map_to_list (player_last_seen one_seen)).
  { unfold one_seen. cbn [player_last_seen set_players].
    rewrite map_to_list_singleton. reflexivity. }
  assert (Hl : 0 <= 30) by lia.
  split; [exact Hp|]. split; [exact Hl|].
  exact (proj1 (recent_players_most_recent_first one_seen
                  [(py "Kai", 10)] 30 Hp Hl)).
Defined.

(** Equal stamps keep the order of the dict; a negative limit cuts
    from the end, as slices do. *)
Example recent_players_ties_and_negative_limit :
  List.map name
    (get_recent_players 2 [(py "a", 5); (py "b", 9); (py "c", 5)])
  = [py "b"; py "a"]
  /\ List.map name
       (get_recent_players (-1) [(py "a", 5); (py "b", 9); (py "c", 5)])
     = [py "b"; py "a"].
Proof. split; reflexivity. Qed.

End RecentPlayersExamples.

(* ================================================================== *)
(** ** Join lines *)
(* ================================================================== *)

Section JoinLines.
Context `{PyRuntime}.

Local Abbreviation k0 := (fun (_ : pystr) (g : option pystr) => Some g).

Lemma is_decimal_ascii c : 48 <= c <= 57 -> is_decimal c = true.
Proof.
  intros Hc. unfold is_decimal, in_range.
  destruct (Z.ltb_spec c 128); [|lia].
  apply andb_true_iff. split; apply Z.leb_le; lia.
Qed.

Lemma is_decimal_bracket : is_decimal 93 = false.
Proof. reflexivity. Qed.

Lemma login_shape written :
  same_ignoring_case (py "logged in with entity id") written ->
  (exists w0 rest, written = w0 :: rest /\ is_space w0 = false)
  /\ (exists body wl, written = body ++ [wl] /\ is_space wl = false).
Proof.
  intros Hsame. split.
  - pose proof Hsame as Hs.
    change (py "logged in with entity id")
      with (108 :: py "ogged in with entity id") in Hs.
    inversion Hs as [|? w0 ? rest Hw0 _]; subst written.
    exists w0, rest. split; [reflexivity|].
    eapply letter_match_facts; [exact Hw0|lia|lia].
  - pose proof Hsame as Hs.
    change (py "logged in with entity id")
      with (py "logged in with entity i" ++ [100]) in Hs.
    unfold same_ignoring_case in Hs.
    apply Forall2_app_inv_l in Hs as (body & lst & Hb & Hlst & ->).
    inversion Hlst as [|? wl ? tl Hwl Htl]; subst.
    inversion Htl; subst.
    exists body, wl. split; [reflexivity|].
    eapply letter_match_facts; [exact Hwl|lia|lia].
Qed.

(** The part of the join pattern after the group has no group. *)
Local Abbreviation after_name :=
  (Seq (text "[/") (Seq (Plus addr_class) (Seq (Lit 58)
  (Seq (Plus is_decimal) (Seq (Lit 93) (Seq (Plus is_space)
  (text "logged in with entity id"))))))).

Local Abbreviation after_addr :=
  (Seq (Lit 58)
  (Seq (Plus is_decimal) (Seq (Lit 93) (Seq (Plus is_space)
  (text "logged in with entity id"))))).

Lemma text_groupless str : groupless (text str) = true.
Proof.
  unfold text. induction (py str) as [|c s IH]; [reflexivity|].
  cbn [fold_right groupless]. exact IH.
Qed.

Lemma after_addr_groupless : groupless after_addr = true.
Proof. cbn [groupless]. rewrite text_groupless. reflexivity. Qed.

(** From the colon before the port to the end of the pattern. *)
Lemma port_and_phrase d digits s sp written tail g :
  List.Forall (fun x => 48 <= x <= 57) (d :: digits) ->
  List.Forall (fun x => is_space x = true) (s :: sp) ->
  same_ignoring_case (py "logged in with entity id") written ->
  rmatch after_addr
    (58 :: (d :: digits) ++ 93 :: (s :: sp) ++ written ++ tail) g k0
  = Some g.
Proof.
  intros Hdigits Hsp Hsame.
  inversion Hdigits as [|? ? Hd Hdigits']; subst.
  inversion Hsp as [|? ? Hs Hsp']; subst.
  destruct (login_shape written Hsame) as ((w0 & wrest & Hw & Hw0) & _).
  cbn [rmatch app]. rewrite lit_matches_refl.
  rewrite (is_decimal_ascii d Hd).
  apply star_greedy_some.
  { eapply List.Forall_impl; [|exact Hdigits'].
    intros x Hx. apply is_decimal_ascii. exact Hx. }
  { exact is_decimal_bracket. }
  rewrite lit_matches_refl. rewrite Hs.
  apply star_greedy_some; [exact Hsp'| |].
  { rewrite Hw. cbn [app]. exact Hw0. }
  cbn beta. unfold text. rewrite rmatch_text by exact Hsame. reflexivity.
Qed.

Lemma join_at_marker ws c name a addr d digits s sp written tail :
  List.Forall (fun x => is_space x = true) ws ->
  List.Forall (fun x => name_class x = true) (c :: name) ->
  List.Forall (fun x => addr_class x = true) (a :: addr) ->
  List.Forall (fun x => 48 <= x <= 57) (d :: digits) ->
  List.Forall (fun x => is_space x = true) (s :: sp) ->
  same_ignoring_case (py "logged in with entity id") written ->
  rmatch _join_re
    (93 :: 58 :: ws ++ (c :: name) ++ 91 :: 47 :: (a :: addr)
        ++ 58 :: (d :: digits) ++ 93 :: (s :: sp) ++ written ++ tail)
    None k0
  = Some (Some (c :: name)).
Proof.
  intros Hws Hname Haddr Hdigits Hsp Hsame.
  inversion Hname as [|? ? Hc Hname']; subst.
  inversion Haddr as [|? ? Ha Haddr']; subst.
  unfold _join_re. rewrite rmatch_marker. cbn [Z.eqb Pos.eqb andb].
  cbn [rmatch].
  apply star_greedy_some; [exact Hws| |].
  { cbn [app]. apply name_char_facts. exact Hc. }
  cbn [app rmatch]. rewrite Hc.
  apply star_greedy_some; [exact Hname'|reflexivity|].
  set (rest := 91 :: 47 :: _).
  change (c :: name ++ rest) with ((c :: name) ++ rest).
  rewrite firstn_app_length.
  unfold rest. unfold text at 1.
  cbn [py List.map list_ascii_of_string fold_right rmatch].
  change (Z.of_nat (nat_of_ascii "[")) with 91.
  change (Z.of_nat (nat_of_ascii "/")) with 47.
  rewrite !lit_matches_refl. cbn [app]. rewrite Ha.
  apply (star_greedy_exists addr_class
           (fun t => rmatch after_addr t (Some (c :: name)) k0)
           (Some (c :: name)) addr).
  - intros t x Hx.
    apply (rmatch_groupless after_addr t (Some (c :: name)) x k0
             after_addr_groupless); [|exact Hx].
    intros t' y [= <-]. reflexivity.
  - exact Haddr'.
  - apply port_and_phrase; assumption.
Qed.

(** X9. Every join line of the usual shape is recognised: after any text
    without a closing bracket comes the marker, optional blanks, the
    identity, then [[/], an address of hexadecimal digits, dots and
    colons, a colon, a port in ASCII digits, [[]]], at least one blank
    and the words "logged in with entity id" in any letter case; what
    follows does not matter. The event is a join of exactly that
    identity, although the address class also takes colons and digits
    and so first runs over the port. *)
Theorem join_line_recognized
        (pre ws name addr digits sp written tail : pystr) :
  List.Forall (fun x => x <> 93) pre ->
  List.Forall (fun x => is_space x = true) ws ->
  name <> [] -> List.Forall (fun x => name_class x = true) name ->
  addr <> [] -> List.Forall (fun x => addr_class x = true) addr ->
  digits <> [] -> List.Forall (fun x => 48 <= x <= 57) digits ->
  sp <> [] -> List.Forall (fun x => is_space x = true) sp ->
  same_ignoring_case (py "logged in with entity id") written ->
  player_event
    (pre ++ py "]:" ++ ws ++ name ++ py "[/" ++ addr ++ py ":" ++ digits
         ++ py "]" ++ sp ++ written ++ tail)
  = Some (Joined name).
Proof.
  intros Hpre Hws Hne Hname Hae Haddr Hde Hdigits Hse Hsp Hsame.
  destruct name as [|c name]; [contradiction|].
  destruct addr as [|a addr]; [contradiction|].
  destruct digits as [|d digits]; [contradiction|].
  destruct sp as [|s sp]; [contradiction|].
  destruct (login_shape written Hsame) as (_ & (body & wl & Hw & Hwl)).
  set (pre' := lstrip_by is_space pre).
  set (tail' := rstrip_by is_space tail).
  assert (Hpre' : List.Forall (fun x => x <> 93) pre')
    by (apply Forall_lstrip_by; exact Hpre).
  set (middle := ws ++ (c :: name) ++ 91 :: 47 :: (a :: addr)
                    ++ 58 :: (d :: digits) ++ 93 :: (s :: sp)).
  assert (Hline :
    pre ++ py "]:" ++ ws ++ (c :: name) ++ py "[/" ++ (a :: addr) ++ py ":"
        ++ (d :: digits) ++ py "]" ++ (s :: sp) ++ written ++ tail
    = pre ++ 93 :: 58 :: middle ++ written ++ tail).
  { unfold middle. change (py "]:") with [93; 58].
    change (py "[/") with [91; 47]. change (py ":") with [58].
    change (py "]") with [93].
    repeat (rewrite <- ?app_assoc; cbn [app]). reflexivity. }
  assert (Hstrip :
    strip (pre ++ 93 :: 58 :: middle ++ written ++ tail)
    = pre' ++ 93 :: 58 :: middle ++ written ++ tail').
  { unfold strip. rewrite lstrip_by_app_keep by reflexivity. fold pre'.
    rewrite Hw.
    replace (pre' ++ 93 :: 58 :: middle ++ (body ++ [wl]) ++ tail)
      with ((pre' ++ 93 :: 58 :: middle ++ body) ++ wl :: tail).
    2:{ repeat (rewrite <- ?app_assoc; cbn [app]). reflexivity. }
    rewrite rstrip_by_app_keep by exact Hwl. fold tail'.
    repeat (rewrite <- ?app_assoc; cbn [app]). reflexivity. }
  assert (Hjoin :
    search _join_re (pre' ++ 93 :: 58 :: middle ++ written ++ tail')
    = Some (Some (c :: name))).
  { rewrite (search_skips_re _join_re _ pre' _ eq_refl Hpre').
    apply search_found. unfold middle.
    repeat (rewrite <- ?app_assoc; cbn [app]).
    apply (join_at_marker ws c name a addr d digits s sp written tail');
      assumption. }
  unfold player_event. rewrite Hline, Hstrip, Hjoin. reflexivity.
Qed.

End JoinLines.

Section JoinExamples.
#[local] Existing Instance ascii_runtime.

Lemma Forall_ascii_digits (l : pystr) :
  forallb (fun x => (48 <=? x) && (x <=? 57)) l = true ->
  List.Forall (fun x => 48 <= x <= 57) l.
Proof.
  intros Hf. apply List.Forall_forall. intros x Hin.
  apply (proj1 (forallb_forall _ _) Hf) in Hin.
  apply andb_true_iff in Hin as [H1 H2]. apply Z.leb_le in H1, H2. lia.
Qed.

Lemma join_line_recognized_witness :
  player_event
    (py "[14:08:06 INFO" ++ py "]:" ++ py " " ++ py "CafeinatedLizard"
        ++ py "[/" ++ py "24.198.181.134" ++ py ":" ++ py "25162" ++ py "]"
        ++ py " " ++ py "logged in with entity id"
        ++ py " 687 at ([world]-12.5, 64.0, 8.5)")
  = Some (Joined (py "CafeinatedLizard")).
Proof.
  refine (join_line_recognized (py "[14:08:06 INFO") (py " ")
            (py "CafeinatedLizard") (py "24.198.181.134") (py "25162")
            (py " ") (py "logged in with entity id")
            (py " 687 at ([world]-12.5, 64.0, 8.5)")
            (Forall_not_bracket (py "[14:08:06 INFO") eq_refl)
            (Forall_of_forallb is_space (py " ") eq_refl)
            _ (Forall_of_forallb name_class (py "CafeinatedLizard") eq_refl)
            _ (Forall_of_forallb addr_class (py "24.198.181.134") eq_refl)
            _ (Forall_ascii_digits (py "25162") eq_refl)
            _ (Forall_of_forallb is_space (py " ") eq_refl)
            (Forall2_of_forallb (py "logged in with entity id")
               (py "logged in with entity id") eq_refl eq_refl));
    discriminate.
Defined.

End JoinExamples.

(* ================================================================== *)
(** ** The life of the server process *)
(* ================================================================== *)

Section Launching.
Context `{PyRuntime}.

(** What appending a line leaves alone. *)
Lemma add_log_line_kept line now m :
  process (_add_log_line line now m) = process m
  /\ running (_add_log_line line now m) = running m
  /\ user_requested_stop (_add_log_line line now m) = user_requested_stop m
  /\ auto_restart (_add_log_line line now m) = auto_restart m
  /\ threads_started (_add_log_line line now m) = threads_started m
  /\ rcon_status_line (_add_log_line line now m) = rcon_status_line m.
Proof.
  unfold _add_log_line, _process_player_events.
  destruct (player_event line) as [[n|n]|]; repeat split.
Qed.

Lemma add_log_line_is_running line now m :
  is_running (_add_log_line line now m) = is_running m.
Proof.
  unfold is_running. destruct (add_log_line_kept line now m) as (-> & _).
  reflexivity.
Qed.

Lemma add_lines_kept lines : forall m,
  process (add_lines lines m) = process m
  /\ running (add_lines lines m) = running m
  /\ user_requested_stop (add_lines lines m) = user_requested_stop m
  /\ auto_restart (add_lines lines m) = auto_restart m.
Proof.
  induction lines as [|[l t] rest IH]; intros m; [repeat split|].
  cbn [add_lines fold_left fst snd].
  fold (add_lines rest (_add_log_line l t m)).
  destruct (IH (_add_log_line l t m)) as (-> & -> & -> & ->).
  destruct (add_log_line_kept l t m) as (-> & -> & -> & -> & _).
  repeat split.
Qed.

(** The buffer after an append ends with the new entry, and after two
    with the two. *)
Lemma deque_append_last {A} (d : list A) x :
  exists older, deque_append MAXLEN d x = older ++ [x].
Proof.
  unfold deque_append.
  destruct (MAXLEN <? length (d ++ [x]))%nat eqn:E; [|eauto].
  destruct d as [|y d]; cbn [app tail]; [cbn in E; discriminate|eauto].
Qed.

Lemma deque_append_keeps_last {A} (d : list A) x y :
  exists older, deque_append MAXLEN (d ++ [x]) y = older ++ [x; y].
Proof.
  unfold deque_append. rewrite <- app_assoc. cbn [app].
  destruct (MAXLEN <? length (d ++ [x; y]))%nat eqn:E; [|eauto].
  destruct d as [|z d]; cbn [app tail].
  - cbn in E. discriminate.
  - eauto.
Qed.

Lemma add_log_line_last line now m :
  exists older,
    console_log (_add_log_line line now m)
    = older ++ [{| entry_id := _log_id m + 1; entry_line := rstrip_nl line |}].
Proof.
  destruct (add_log_line_log line now m) as [-> _].
  apply deque_append_last.
Qed.

Lemma add_two_lines_last l1 t1 l2 t2 m :
  exists older,
    console_log (_add_log_line l2 t2 (_add_log_line l1 t1 m))
    = older ++ [{| entry_id := _log_id m + 1; entry_line := rstrip_nl l1 |};
                {| entry_id := _log_id m + 2; entry_line := rstrip_nl l2 |}].
Proof.
  destruct (add_log_line_log l2 t2 (_add_log_line l1 t1 m)) as [-> _].
  destruct (add_log_line_log l1 t1 m) as [_ ->].
  destruct (add_log_line_last l1 t1 m) as [older ->].
  replace (_log_id m + 1 + 1) with (_log_id m + 2) by lia.
  apply deque_append_keeps_last.
Qed.

(** X17. [start] launches a child exactly when no child of the manager
    is running and [Popen] does not fail. While one is running it
    returns [False] and touches nothing: no child is launched, the stop
    flag and the log stay as they are, no thread is started. *)
Theorem start_launches_only_without_live_child launch now1 now2 s :
  let out := start launch now1 now2 s in
  (fst out = Ok true <-> is_running (site_mgr s) = false /\ launch = None)
  /\ (is_running (site_mgr s) = true -> out = (Ok false, s))
  /\ launched (site_os (snd out))
     = (if is_running (site_mgr s) then launched (site_os s)
        else match launch with
             | None => S (launched (site_os s))
             | Some _ => launched (site_os s)
             end).
Proof.
  intros out. unfold out, start.
  destruct (is_running (site_mgr s)); cbn [fst snd].
  - split; [|split; [reflexivity|reflexivity]].
    split; [discriminate|intros [? _]; discriminate].
  - destruct launch as [e|]; cbn [spawn fst snd site_os launched].
    + split; [|split; [discriminate|reflexivity]].
      split; [discriminate|intros [_ ?]; discriminate].
    + split; [|split; [discriminate|reflexivity]].
      split; auto.
Qed.

(** What a [start] that goes through leaves behind, the log apart. *)
Lemma start_up_fields now1 now2 s :
  is_running (site_mgr s) = false ->
  let out := start None now1 now2 s in
  let m' := site_mgr (snd out) in
  fst out = Ok true
  /\ process m' = Some {| pid := launched (site_os s); returncode := None |}
  /\ is_running m' = true /\ running m' = true
  /\ user_requested_stop m' = false
  /\ site_tasks (snd out) = site_tasks s ++ [ReaderLoop; WatcherLoop].
Proof.
  intros Hstopped out m'. unfold m', out, start. rewrite Hstopped.
  cbn [spawn fst snd site_mgr site_tasks].
  set (m2 := set_running true _).
  set (l1 := py "[PANEL] Server started.").
  destruct (add_log_line_kept l1 now1 m2) as (P1 & R1 & U1 & _ & _ & S1).
  destruct (add_log_line_kept (rcon_status_line (_add_log_line l1 now1 m2))
              now2 (_add_log_line l1 now1 m2)) as (P2 & R2 & U2 & _).
  split; [reflexivity|]. split; [rewrite P2, P1; reflexivity|].
  split; [unfold is_running; rewrite P2, P1; reflexivity|].
  split; [rewrite R2, R1; reflexivity|].
  split; [rewrite U2, U1; reflexivity|reflexivity].
Qed.

(** X18. A [start] that goes through leaves a running server behind: the
    handle is the one of the child just launched, [is_running] holds,
    the stop flag of an earlier [stop] is cleared, a reader and a
    watcher thread are started, and the log ends with the two lines
    "[PANEL] Server started." and the line on the RCON settings, under
    the next two ids. *)
Theorem start_brings_server_up now1 now2 s :
  is_running (site_mgr s) = false ->
  let out := start None now1 now2 s in
  let m' := site_mgr (snd out) in
  fst out = Ok true
  /\ process m' = Some {| pid := launched (site_os s); returncode := None |}
  /\ is_running m' = true /\ running m' = true
  /\ user_requested_stop m' = false
  /\ site_tasks (snd out) = site_tasks s ++ [ReaderLoop; WatcherLoop]
  /\ exists older,
       console_log m'
       = older
           ++ [{| entry_id := _log_id (site_mgr s) + 1;
                  entry_line := py "[PANEL] Server started." |};
               {| entry_id := _log_id (site_mgr s) + 2;
                  entry_line := rstrip_nl (rcon_status_line (site_mgr s)) |}].
Proof.
  intros Hstopped out m'.
  destruct (start_up_fields now1 now2 s Hstopped) as (H1 & H2 & H3 & H4 & H5 & H6).
  fold out in H1, H6. fold m' in H2, H3, H4, H5.
  split; [exact H1|]. split; [exact H2|]. split; [exact H3|].
  split; [exact H4|]. split; [exact H5|]. split; [exact H6|].
  unfold m', out, start. rewrite Hstopped.
  cbn [spawn fst snd site_mgr site_tasks].
  set (m2 := set_running true _).
  set (l1 := py "[PANEL] Server started.").
  destruct (add_log_line_kept l1 now1 m2) as (_ & _ & _ & _ & _ & S1).
  rewrite S1.
  exact (add_two_lines_last l1 now1 (rcon_status_line m2) now2 m2).
Qed.

(** X19. [send_command] writes to the child exactly when one is running
    and the pipe takes the line; then the standard input of that child
    gets the command and a newline, and the log gets the echo
    ["> " + cmd] under the next id. In every other case nothing is
    written and nothing is logged. *)
Theorem send_command_reaches_only_live_child cmd wr now s :
  let out := send_command cmd wr now s in
  (fst out = Ok true <-> is_running (site_mgr s) = true /\ wr = None)
  /\ (fst out <> Ok true -> snd out = s)
  /\ (fst out = Ok true ->
      exists proc older,
        process (site_mgr s) = Some proc
        /\ stdin_log (site_os (snd out))
           = stdin_log (site_os s) ++ [(pid proc, cmd ++ [10])]
        /\ console_log (site_mgr (snd out))
           = older ++ [{| entry_id := _log_id (site_mgr s) + 1;
                          entry_line := rstrip_nl (py "> " ++ cmd) |}]).
Proof.
  intros out. unfold out, send_command, is_running.
  destruct (process (site_mgr s)) as [proc|]; cbn [fst snd].
  2:{ split; [split; [discriminate|intros [? _]; discriminate]|].
      split; [reflexivity|discriminate]. }
  destruct (poll proc); cbn [fst snd].
  { split; [split; [discriminate|intros [? _]; discriminate]|].
    split; [reflexivity|discriminate]. }
  destruct wr as [e|]; cbn [fst snd].
  { split; [split; [discriminate|intros [_ ?]; discriminate]|].
    split; [reflexivity|discriminate]. }
  split; [split; auto|]. split; [intros Hne; contradiction|].
  intros _. destruct (add_log_line_last (py "> " ++ cmd) now (site_mgr s))
    as [older Hlog].
  exists proc, older. cbn [site_os site_mgr stdin_log]. auto.
Qed.

(** X20. The echo of a command is parsed like a line of the server: a
    command whose echo reads as a leave line takes that identity out of
    the online set and stamps it. *)
Theorem echoed_command_is_parsed_for_events cmd now s who :
  is_running (site_mgr s) = true ->
  player_event (py "> " ++ cmd) = Some (Left who) ->
  let m' := site_mgr (snd (send_command cmd None now s)) in
  (who ∉ players_online m')
  /\ player_last_seen m' !! who = Some now.
Proof.
  intros Hrun Hev m'. unfold m', send_command.
  unfold is_running in Hrun.
  destruct (process (site_mgr s)) as [proc|]; [|discriminate].
  destruct (poll proc); [discriminate|]. cbn [snd site_mgr].
  destruct (add_log_line_players (py "> " ++ cmd) now (site_mgr s))
    as [-> ->].
  rewrite Hev. split.
  - intros Hin. apply elem_of_difference in Hin as [_ Hout].
    apply Hout, elem_of_singleton. reflexivity.
  - apply lookup_insert_eq.
Qed.

End Launching.

Section Watching.
Context `{PyRuntime}.

Lemma add_three_lines_last l1 t1 l2 t2 l3 t3 m :
  exists older,
    console_log
      (_add_log_line l3 t3 (_add_log_line l2 t2 (_add_log_line l1 t1 m)))
    = older ++ [{| entry_id := _log_id m + 1; entry_line := rstrip_nl l1 |};
                {| entry_id := _log_id m + 2; entry_line := rstrip_nl l2 |};
                {| entry_id := _log_id m + 3; entry_line := rstrip_nl l3 |}].
Proof.
  destruct (add_two_lines_last l1 t1 l2 t2 m) as [older Hlog].
  destruct (add_log_line_log l3 t3
              (_add_log_line l2 t2 (_add_log_line l1 t1 m))) as [-> _].
  destruct (add_log_line_log l2 t2 (_add_log_line l1 t1 m)) as [_ ->].
  destruct (add_log_line_log l1 t1 m) as [_ ->].
  rewrite Hlog.
  replace (_log_id m + 1 + 1 + 1) with (_log_id m + 3) by lia.
  unfold deque_append.
  destruct (MAXLEN <? _)%nat eqn:E.
  - destruct older as [|z older]; cbn [app tail].
    + cbn in E. discriminate.
    + exists older. rewrite <- app_assoc. reflexivity.
  - exists older. rewrite <- app_assoc. reflexivity.
Qed.

(** X21. A round of the watcher that finds the child ended, with
    auto-restart on and no stop requested by the user, launches a new
    child at once: the handle is replaced by the new one, the server
    counts as running again, a new reader and a new watcher are
    started, the round is the last of this watcher, and the log ends
    with the three lines of the restart under the next three ids. *)
Theorem watcher_restarts_crashed_server now1 now2 now3 s proc ret :
  process (site_mgr s) = Some proc -> poll proc = Some ret ->
  auto_restart (site_mgr s) = true ->
  user_requested_stop (site_mgr s) = false ->
  let out := watcher_round None now1 now2 now3 s in
  let m' := site_mgr (snd out) in
  fst out = Ok Break
  /\ process m' = Some {| pid := launched (site_os s); returncode := None |}
  /\ is_running m' = true /\ running m' = true
  /\ launched (site_os (snd out)) = S (launched (site_os s))
  /\ site_tasks (snd out) = site_tasks s ++ [ReaderLoop; WatcherLoop]
  /\ exists older,
       console_log m'
       = older
           ++ [{| entry_id := _log_id (site_mgr s) + 1;
                  entry_line := rstrip_nl (stopped_line ret) |};
               {| entry_id := _log_id (site_mgr s) + 2;
                  entry_line :=
                    py "[PANEL] Auto-restart enabled, restarting server..." |};
               {| entry_id := _log_id (site_mgr s) + 3;
                  entry_line := py "[PANEL] Server restarted (auto-restart)." |}].
Proof.
  intros Hproc Hpoll Hauto Hflag out m'.
  unfold m', out, watcher_round. rewrite Hproc, Hpoll.
  set (m1 := set_running false (site_mgr s)).
  destruct (add_log_line_kept (stopped_line ret) now1 m1)
    as (P2 & R2 & U2 & A2 & _).
  rewrite A2, U2. cbn [auto_restart user_requested_stop set_running m1].
  rewrite Hauto, Hflag. cbn [andb negb].
  unfold _do_restart_locked.
  cbn [spawn with_mgr site_os site_mgr site_tasks fst snd].
  set (l2 := py "[PANEL] Auto-restart enabled, restarting server...").
  set (l3 := py "[PANEL] Server restarted (auto-restart).").
  set (m2 := _add_log_line (stopped_line ret) now1 m1).
  set (m3 := _add_log_line l2 now2 m2).
  set (m4 := set_running true (with_process _ m3)).
  destruct (add_log_line_kept l3 now3 m4) as (P5 & R5 & _).
  split; [reflexivity|]. split; [rewrite P5; reflexivity|].
  split; [unfold is_running; rewrite P5; reflexivity|].
  split; [rewrite R5; reflexivity|].
  split; [reflexivity|]. split; [reflexivity|].
  destruct (add_three_lines_last (stopped_line ret) now1 l2 now2 l3 now3 m1)
    as [older Hlog].
  exists older.
  assert (Hsame : console_log (_add_log_line l3 now3 m4)
                  = console_log (_add_log_line l3 now3 m3)).
  { destruct (add_log_line_log l3 now3 m4) as [-> _].
    destruct (add_log_line_log l3 now3 m3) as [-> _]. reflexivity. }
  rewrite Hsame. exact Hlog.
Qed.

(** The guard of [child_exits] on a site in step whose child runs. *)
Lemma child_exits_running code s proc :
  in_step s -> process (site_mgr s) = Some proc -> poll proc = None ->
  child_exits (pid proc) code s
  = {| site_mgr :=
         with_process (Some {| pid := pid proc; returncode := Some code |})
                      (site_mgr s);
       site_os := {| launched := launched (site_os s);
                     exit_codes := <[pid proc := code]> (exit_codes (site_os s));
                     stdin_log := stdin_log (site_os s);
                     killed := killed (site_os s) |};
       site_tasks := site_tasks s |}.
Proof.
  intros [_ Hstep] Hproc Hpoll. rewrite Hproc in Hstep.
  destruct Hstep as [Hlt Hcode]. unfold poll in Hpoll.
  unfold child_exits. rewrite Hproc.
  destruct (Nat.ltb_spec (pid proc) (launched (site_os s))); [|lia].
  rewrite <- Hcode, Hpoll.
  rewrite bool_decide_eq_false_2 by (intros [x Hx]; discriminate).
  cbn [andb negb]. rewrite Nat.eqb_refl. reflexivity.
Qed.

(** X22. A stop the user asked for is not undone by the watcher. After
    [stop] has returned [True], whatever the server still prints and
    whatever exit code the child ends with, the round of the watcher
    that finds it ended launches nothing, even with auto-restart on:
    the handle stays the one of the ended child, the server counts as
    stopped, and the stop flag is cleared for the next start. *)
Theorem requested_stop_is_not_undone
        now lines code launch now1 now2 now3 s proc :
  in_step s -> process (site_mgr s) = Some proc -> poll proc = None ->
  let s1 := snd (call_stop now s) in
  let s2 := with_mgr (add_lines lines (site_mgr s1)) s1 in
  let s3 := child_exits (pid proc) code s2 in
  let out := watcher_round launch now1 now2 now3 s3 in
  let m' := site_mgr (snd out) in
  fst (call_stop now s) = true
  /\ fst out = Ok Break
  /\ launched (site_os (snd out)) = launched (site_os s)
  /\ process m' = Some {| pid := pid proc; returncode := Some code |}
  /\ is_running m' = false /\ running m' = false
  /\ user_requested_stop m' = false.
Proof.
  intros Hstep Hproc Hpoll s1 s2 s3 out m'.
  assert (Hstop : call_stop now s
                  = (true,
                     with_mgr
                       (_add_log_line (py "[PANEL] Stop requested.") now
                          (set_stop_requested true
                             (threads_started (site_mgr s) ++ [StopWorker proc])
                             (site_mgr s))) s)).
  { unfold call_stop, stop. rewrite Hproc, Hpoll. reflexivity. }
  set (m0 := set_stop_requested true _ (site_mgr s)) in Hstop.
  destruct (add_log_line_kept (py "[PANEL] Stop requested.") now m0)
    as (P1 & _ & U1 & _).
  destruct (add_lines_kept lines
              (_add_log_line (py "[PANEL] Stop requested.") now m0))
    as (P2 & _ & U2 & _).
  assert (Hs2p : process (site_mgr s2) = Some proc).
  { unfold s2, s1. rewrite Hstop. cbn [snd with_mgr site_mgr].
    rewrite P2, P1. exact Hproc. }
  assert (Hs2u : user_requested_stop (site_mgr s2) = true).
  { unfold s2, s1. rewrite Hstop. cbn [snd with_mgr site_mgr].
    rewrite U2, U1. reflexivity. }
  assert (Hs2o : site_os s2 = site_os s).
  { unfold s2, s1. rewrite Hstop. reflexivity. }
  assert (Hstep2 : in_step s2).
  { unfold in_step. rewrite Hs2o, Hs2p. unfold in_step in Hstep.
    rewrite Hproc in Hstep. exact Hstep. }
  assert (Hs3 : s3 = child_exits (pid proc) code s2) by reflexivity.
  rewrite (child_exits_running code s2 proc Hstep2 Hs2p Hpoll) in Hs3.
  split; [rewrite Hstop; reflexivity|].
  unfold m', out, watcher_round. rewrite Hs3.
  cbn [site_mgr process with_process poll returncode].
  set (m3 := with_process _ (site_mgr s2)).
  set (m4 := set_running false m3).
  destruct (add_log_line_kept (stopped_line code) now1 m4)
    as (P5 & R5 & U5 & A5 & T5 & _).
  rewrite A5, U5.
  assert (Hu4 : user_requested_stop m4 = true) by exact Hs2u.
  rewrite Hu4. rewrite andb_false_r.
  set (m5 := _add_log_line (stopped_line code) now1 m4) in *.
  destruct (add_log_line_kept (py "[PANEL] Server stopped by user request.")
              now2 m5) as (P6 & R6 & _).
  cbn [fst snd with_mgr site_os site_mgr launched].
  cbn [process running user_requested_stop set_stop_requested].
  rewrite Hs2o, P6, R6, P5, R5.
  split; [reflexivity|]. split; [reflexivity|]. split; [reflexivity|].
  split; [|split; reflexivity].
  unfold is_running. cbn [process set_stop_requested].
  rewrite P6, P5. reflexivity.
Qed.

(** X23. The restart of the scheduler -- [stop()], five seconds of
    sleep, [start()] -- launches nothing while the old child runs. If
    the child is still there when the sleep is over, [start] is refused
    and the restart returns [False], leaving the site as the sleep left
    it; the stop flag is still set, so the round of the watcher that
    later finds the child ended launches nothing either. *)
Theorem scheduled_restart_refused_while_child_runs
        now during launch now1 now2 s proc code relaunch w1 w2 w3 :
  process (site_mgr s) = Some proc -> poll proc = None ->
  let s1 := during (snd (call_stop now s)) in
  in_step s1 -> process (site_mgr s1) = Some proc ->
  user_requested_stop (site_mgr s1) = true ->
  let out := scheduled_restart now during launch now1 now2 s in
  let later := watcher_round relaunch w1 w2 w3
                 (child_exits (pid proc) code (snd out)) in
  out = (Ok false, s1)
  /\ fst later = Ok Break
  /\ launched (site_os (snd later)) = launched (site_os s1)
  /\ is_running (site_mgr (snd later)) = false.
Proof.
  intros Hproc Hpoll s1 Hstep Hp1 Hu1 out later.
  assert (Hout : out = (Ok false, s1)).
  { unfold out, scheduled_restart. fold s1. unfold start, is_running.
    rewrite Hp1, Hpoll. reflexivity. }
  split; [exact Hout|].
  unfold later. rewrite Hout. cbn [snd].
  rewrite (child_exits_running code s1 proc Hstep Hp1 Hpoll).
  unfold watcher_round.
  cbn [site_mgr process with_process poll returncode].
  set (m3 := with_process _ (site_mgr s1)).
  set (m4 := set_running false m3).
  destruct (add_log_line_kept (stopped_line code) w1 m4)
    as (P5 & R5 & U5 & A5 & T5 & _).
  rewrite A5, U5.
  assert (Hu4 : user_requested_stop m4 = true) by exact Hu1.
  rewrite Hu4. rewrite andb_false_r.
  set (m5 := _add_log_line (stopped_line code) w1 m4) in *.
  destruct (add_log_line_kept (py "[PANEL] Server stopped by user request.")
              w2 m5) as (P6 & R6 & _).
  cbn [fst snd with_mgr site_os site_mgr launched].
  split; [reflexivity|]. split; [reflexivity|].
  unfold is_running. cbn [process set_stop_requested].
  rewrite P6, P5. reflexivity.
Qed.

End Watching.

Section Stopping.
Context `{PyRuntime}.

Lemma send_command_kept cmd wr now s :
  let s1 := snd (send_command cmd wr now s) in
  process (site_mgr s1) = process (site_mgr s)
  /\ running (site_mgr s1) = running (site_mgr s)
  /\ exit_codes (site_os s1) = exit_codes (site_os s)
  /\ launched (site_os s1) = launched (site_os s)
  /\ killed (site_os s1) = killed (site_os s).
Proof.
  unfold send_command.
  destruct (process (site_mgr s)) as [proc|] eqn:Hp;
    [|cbn [snd]; rewrite Hp; repeat split].
  destruct (poll proc); [cbn [snd]; rewrite Hp; repeat split|].
  destruct wr; cbn [snd]; [rewrite Hp; repeat split|].
  cbn [site_mgr site_os exit_codes launched killed].
  destruct (add_log_line_kept (py "> " ++ cmd) now (site_mgr s))
    as (-> & -> & _).
  rewrite Hp. repeat split.
Qed.

Lemma log_line_kept line now s :
  process (site_mgr (log_line line now s)) = process (site_mgr s)
  /\ running (site_mgr (log_line line now s)) = running (site_mgr s)
  /\ site_os (log_line line now s) = site_os s.
Proof.
  unfold log_line. cbn [with_mgr site_mgr site_os].
  destruct (add_log_line_kept line now (site_mgr s)) as (-> & -> & _).
  repeat split.
Qed.

Lemma wait_while_child_survives during proc : forall n i s,
  child_survives during proc ->
  poll_at (site_os s) proc = None ->
  let s' := wait_for_exit n i during proc s in
  poll_at (site_os s') proc = None
  /\ process (site_mgr s') = process (site_mgr s)
  /\ killed (site_os s') = killed (site_os s).
Proof.
  induction n as [|n IH]; intros i s Hquiet Hpoll; [repeat split; exact Hpoll|].
  cbn [wait_for_exit].
  destruct (Hquiet i s Hpoll) as (Hp1 & Hh1 & Hk1).
  rewrite Hp1.
  destruct (IH (S i) (during i s) Hquiet Hp1) as (Hp2 & Hh2 & Hk2).
  cbn zeta in *. rewrite Hh2, Hk2, Hh1, Hk1. auto.
Qed.

Lemma wait_until_exit during proc k : forall n i s,
  (i <= k < i + n)%nat ->
  poll_at (site_os s) proc = None ->
  (forall j s0, j <> k -> during j s0 = s0) ->
  is_Some (poll_at (site_os (during k s)) proc) ->
  wait_for_exit n i during proc s = during k s.
Proof.
  induction n as [|n IH]; intros i s Hk Hpoll Hidle Hexit; [lia|].
  cbn [wait_for_exit].
  destruct (Nat.eq_dec i k) as [->|Hne].
  - destruct Hexit as [c ->]. reflexivity.
  - rewrite (Hidle i s Hne), Hpoll.
    apply IH; [lia|exact Hpoll|exact Hidle|exact Hexit].
Qed.

(** The site when the worker starts to wait. *)
Lemma worker_begins proc wr now1 now2 s :
  in_step s -> process (site_mgr s) = Some proc -> poll proc = None ->
  let s2 :=
    log_line (py "[PANEL] Sent 'stop' command. Waiting for shutdown...")
      now2 (snd (send_command (py "stop") wr now1 s)) in
  in_step s2
  /\ process (site_mgr s2) = Some proc
  /\ running (site_mgr s2) = running (site_mgr s)
  /\ poll_at (site_os s2) proc = None
  /\ launched (site_os s2) = launched (site_os s)
  /\ killed (site_os s2) = killed (site_os s).
Proof.
  intros Hstep Hproc Hpoll s2.
  destruct (send_command_kept (py "stop") wr now1 s)
    as (P1 & R1 & E1 & L1 & K1).
  destruct (log_line_kept
              (py "[PANEL] Sent 'stop' command. Waiting for shutdown...")
              now2 (snd (send_command (py "stop") wr now1 s)))
    as (P2 & R2 & O2).
  fold s2 in P2, R2, O2. cbn zeta in *.
  assert (Hp2 : process (site_mgr s2) = Some proc) by congruence.
  assert (He2 : exit_codes (site_os s2) = exit_codes (site_os s))
    by congruence.
  assert (Hl2 : launched (site_os s2) = launched (site_os s)) by congruence.
  destruct Hstep as [Hdom Hhandle]. rewrite Hproc in Hhandle.
  destruct Hhandle as [Hlt Hcode].
  split; [|split; [exact Hp2|split; [congruence|split; [|split]]]].
  - unfold in_step. rewrite Hp2, He2, Hl2. auto.
  - unfold poll_at. rewrite He2, <- Hcode. exact Hpoll.
  - exact Hl2.
  - congruence.
Qed.

(** X24. A child that is still running after the thirty polls of the
    stop worker is killed: it is sent SIGKILL once, the line
    "[PANEL] Forcing server kill." ends the log, and the worker drops
    the handle and marks the server as stopped. This does not depend
    on whether the "stop" command could be written. *)
Theorem stop_worker_kills_after_thirty_polls
        proc wr now1 now2 now3 during s :
  in_step s -> process (site_mgr s) = Some proc -> poll proc = None ->
  child_survives during proc ->
  let s' := _stop_worker proc wr now1 now2 now3 during s in
  killed (site_os s') = killed (site_os s) ++ [pid proc]
  /\ process (site_mgr s') = None
  /\ running (site_mgr s') = false
  /\ exists older n,
       console_log (site_mgr s')
       = older ++ [{| entry_id := n;
                      entry_line := py "[PANEL] Forcing server kill." |}].
Proof.
  intros Hstep Hproc Hpoll Hquiet s'.
  destruct (worker_begins proc wr now1 now2 s Hstep Hproc Hpoll)
    as (_ & P2 & _ & E2 & _ & K2).
  unfold s', _stop_worker.
  set (s2 := log_line _ now2 _) in *.
  destruct (wait_while_child_survives during proc 30 0 s2 Hquiet E2)
    as (E3 & P3 & K3).
  set (s3 := wait_for_exit 30 0 during proc s2) in *.
  rewrite E3.
  destruct (log_line_kept (py "[PANEL] Forcing server kill.") now3 s3)
    as (P4 & _ & O4).
  cbn [kill site_mgr].
  rewrite P4, P3, P2. unfold same_handle. rewrite Nat.eqb_refl.
  cbn [with_mgr site_mgr site_os killed process running with_process
       set_running].
  split; [|split; [reflexivity|split; [reflexivity|]]].
  - unfold kill. cbn [site_os killed]. rewrite O4, K3, K2. reflexivity.
  - destruct (add_log_line_last (py "[PANEL] Forcing server kill.") now3
                (site_mgr s3)) as [older Hlog].
    exists older, (_log_id (site_mgr s3) + 1). exact Hlog.
Qed.

(** X25. A child that ends within the thirty seconds is not killed. The
    worker writes "stop" to its standard input, waits, sees at second
    [k] that it has ended, sends no signal, and then drops the handle
    and marks the server as stopped. *)
Theorem stop_worker_waits_for_shutdown proc now1 now2 now3 k code s :
  in_step s -> process (site_mgr s) = Some proc -> poll proc = None ->
  (k < 30)%nat ->
  let s' := _stop_worker proc None now1 now2 now3
              (only_at k (child_exits (pid proc) code)) s in
  stdin_log (site_os s')
  = stdin_log (site_os s) ++ [(pid proc, py "stop" ++ [10])]
  /\ killed (site_os s') = killed (site_os s)
  /\ exit_codes (site_os s') !! pid proc = Some code
  /\ process (site_mgr s') = None
  /\ running (site_mgr s') = false.
Proof.
  intros Hstep Hproc Hpoll Hk s'.
  destruct (worker_begins proc None now1 now2 s Hstep Hproc Hpoll)
    as (Hstep2 & P2 & _ & E2 & _ & K2).
  assert (Hin : stdin_log (site_os (snd (send_command (py "stop") None now1 s)))
                = stdin_log (site_os s) ++ [(pid proc, py "stop" ++ [10])]).
  { unfold send_command. rewrite Hproc, Hpoll. reflexivity. }
  unfold s', _stop_worker.
  set (s2 := log_line _ now2 _) in *.
  assert (Hin2 : stdin_log (site_os s2)
                 = stdin_log (site_os s) ++ [(pid proc, py "stop" ++ [10])]).
  { unfold s2. destruct (log_line_kept
      (py "[PANEL] Sent 'stop' command. Waiting for shutdown...") now2
      (snd (send_command (py "stop") None now1 s))) as (_ & _ & ->).
    exact Hin. }
  assert (Hexit : child_exits (pid proc) code s2
    = {| site_mgr :=
           with_process (Some {| pid := pid proc; returncode := Some code |})
                        (site_mgr s2);
         site_os := {| launched := launched (site_os s2);
                       exit_codes := <[pid proc := code]> (exit_codes (site_os s2));
                       stdin_log := stdin_log (site_os s2);
                       killed := killed (site_os s2) |};
         site_tasks := site_tasks s2 |})
    by (apply child_exits_running; assumption).
  rewrite (wait_until_exit (only_at k (child_exits (pid proc) code)) proc k
             30 0 s2); [|lia|exact E2| |].
  2:{ intros j s0 Hj. unfold only_at.
      destruct (Nat.eqb_spec j k); [contradiction|reflexivity]. }
  2:{ unfold only_at. rewrite Nat.eqb_refl, Hexit. unfold poll_at.
      cbn [site_os exit_codes]. rewrite lookup_insert_eq. eauto. }
  unfold only_at. rewrite Nat.eqb_refl, Hexit.
  unfold poll_at. cbn [site_os exit_codes]. rewrite lookup_insert_eq.
  cbn [site_mgr process with_process]. unfold same_handle.
  cbn [pid]. rewrite Nat.eqb_refl.
  cbn [with_mgr site_mgr site_os stdin_log killed exit_codes process running
       with_process set_running].
  rewrite lookup_insert_eq, Hin2, K2. repeat split.
Qed.

(** X26. A stop worker that comes late does not touch a server started
    anew. When the child it waits for ends and the server is started
    again by hand while the worker sleeps, the worker finds a handle
    that is not the one it was given, and leaves it and the running
    mark alone. *)
Theorem stop_worker_spares_restarted_server
        proc now1 now2 now3 k code l1 l2 s :
  in_step s -> process (site_mgr s) = Some proc -> poll proc = None ->
  (k < 30)%nat ->
  let s' := _stop_worker proc None now1 now2 now3
              (only_at k
                 (fun s0 => snd (start None l1 l2
                                   (child_exits (pid proc) code s0)))) s in
  process (site_mgr s')
  = Some {| pid := launched (site_os s); returncode := None |}
  /\ is_running (site_mgr s') = true
  /\ running (site_mgr s') = true
  /\ killed (site_os s') = killed (site_os s).
Proof.
  intros Hstep Hproc Hpoll Hk s'.
  destruct (worker_begins proc None now1 now2 s Hstep Hproc Hpoll)
    as (Hstep2 & P2 & _ & E2 & L2 & K2).
  unfold s', _stop_worker.
  set (s2 := log_line _ now2 _) in *.
  set (event := fun s0 => snd (start None l1 l2
                                 (child_exits (pid proc) code s0))).
  assert (Hexit : child_exits (pid proc) code s2
    = {| site_mgr :=
           with_process (Some {| pid := pid proc; returncode := Some code |})
                        (site_mgr s2);
         site_os := {| launched := launched (site_os s2);
                       exit_codes := <[pid proc := code]> (exit_codes (site_os s2));
                       stdin_log := stdin_log (site_os s2);
                       killed := killed (site_os s2) |};
         site_tasks := site_tasks s2 |})
    by (apply child_exits_running; assumption).
  set (sx := child_exits (pid proc) code s2) in *.
  assert (Hdown : is_running (site_mgr sx) = false)
    by (rewrite Hexit; reflexivity).
  destruct (start_up_fields l1 l2 sx Hdown)
    as (_ & Pn & In & Rn & _).
  assert (Hos : site_os (event s2)
                = {| launched := S (launched (site_os s2));
                     exit_codes := <[pid proc := code]> (exit_codes (site_os s2));
                     stdin_log := stdin_log (site_os s2);
                     killed := killed (site_os s2) |}).
  { unfold event, start. fold sx. rewrite Hdown, Hexit. reflexivity. }
  assert (Hlt : (pid proc < launched (site_os s))%nat).
  { destruct Hstep as [_ Hh]. rewrite Hproc in Hh. apply Hh. }
  rewrite (wait_until_exit (only_at k event) proc k 30 0 s2);
    [|lia|exact E2| |].
  2:{ intros j s0 Hj. unfold only_at.
      destruct (Nat.eqb_spec j k); [contradiction|reflexivity]. }
  2:{ unfold only_at. rewrite Nat.eqb_refl. unfold poll_at. rewrite Hos.
      cbn [exit_codes]. rewrite lookup_insert_eq. eauto. }
  unfold only_at. rewrite Nat.eqb_refl.
  unfold poll_at. rewrite Hos. cbn [exit_codes]. rewrite lookup_insert_eq.
  fold sx in Pn, In, Rn. cbn zeta in Pn, In, Rn.
  change (snd (start None l1 l2 sx)) with (event s2) in Pn, In, Rn.
  rewrite Pn. unfold same_handle. cbn [pid].
  assert (Hl : launched (site_os sx) = launched (site_os s)).
  { rewrite Hexit. cbn [site_os launched]. exact L2. }
  rewrite Hl.
  destruct (Nat.eqb_spec (launched (site_os s)) (pid proc)); [lia|].
  rewrite Pn, In, Rn, Hos, Hl. cbn [killed]. rewrite K2. repeat split.
Qed.


End Stopping.

Section LifeExamples.
#[local] Existing Instance ascii_runtime.

Lemma running_site_in_step : in_step running_site.
Proof.
  split.
  - intros p [x Hx]. cbn in Hx. rewrite lookup_empty in Hx. discriminate.
  - cbn. split; [lia|]. symmetry. apply lookup_empty.
Qed.

Lemma nothing_happens_survives proc :
  child_survives (fun _ s => s) proc.
Proof. intros i s Hp. repeat split. exact Hp. Qed.

Lemma start_brings_server_up_witness :
  is_running (site_mgr idle_site) = false
  /\ fst (start None 1 2 idle_site) = Ok true.
Proof.
  split; [reflexivity|].
  exact (proj1 (start_brings_server_up 1 2 idle_site eq_refl)).
Defined.

Lemma echo_reads_as_leave :
  player_event (py "> " ++ py "say ]: Kai left the game")
  = Some (Left (py "Kai")).
Proof. vm_compute. reflexivity. Qed.

Lemma echoed_command_is_parsed_for_events_witness :
  is_running (site_mgr running_site) = true
  /\ player_last_seen
       (site_mgr (snd (send_command (py "say ]: Kai left the game") None 9
                         running_site)))
     !! py "Kai" = Some 9.
Proof.
  split; [reflexivity|].
  exact (proj2 (echoed_command_is_parsed_for_events
                  (py "say ]: Kai left the game") 9 running_site (py "Kai")
                  eq_refl echo_reads_as_leave)).
Defined.

Lemma watcher_restarts_crashed_server_witness :
  process (site_mgr crashed_site) = Some {| pid := 0; returncode := Some 1 |}
  /\ fst (watcher_round None 1 2 3 crashed_site) = Ok Break.
Proof.
  split; [reflexivity|].
  exact (proj1 (watcher_restarts_crashed_server 1 2 3 crashed_site
                  {| pid := 0; returncode := Some 1 |} 1
                  eq_refl eq_refl eq_refl eq_refl)).
Defined.

Lemma requested_stop_is_not_undone_witness :
  in_step running_site
  /\ fst (call_stop 4 running_site) = true.
Proof.
  split; [exact running_site_in_step|].
  exact (proj1 (requested_stop_is_not_undone 4
                  [(py "[12:00:00 INFO]: Stopping the server", 5)] 0 None
                  6 7 8 running_site first_child
                  running_site_in_step eq_refl eq_refl)).
Defined.

Lemma stop_kept_site_in_step : in_step (snd (call_stop 4 running_site)).
Proof.
  split.
  - intros p [x Hx]. cbn in Hx. rewrite lookup_empty in Hx. discriminate.
  - unfold call_stop, stop. cbn [running_site site_mgr process with_process
      set_running poll returncode first_child snd with_mgr site_os].
    destruct (add_log_line_kept (py "[PANEL] Stop requested.") 4
      (set_stop_requested true
         (threads_started
            (set_running true (with_process (Some first_child) (mgr configured)))
            ++ [StopWorker first_child])
         (set_running true (with_process (Some first_child) (mgr configured)))))
      as (-> & _).
    cbn. split; [lia|]. symmetry. apply lookup_empty.
Qed.

Lemma stop_kept_site_handle :
  process (site_mgr (snd (call_stop 4 running_site))) = Some first_child
  /\ user_requested_stop (site_mgr (snd (call_stop 4 running_site))) = true.
Proof.
  unfold call_stop, stop. cbn [running_site site_mgr process with_process
    set_running poll returncode first_child snd with_mgr].
  destruct (add_log_line_kept (py "[PANEL] Stop requested.") 4
    (set_stop_requested true
       (threads_started
          (set_running true (with_process (Some first_child) (mgr configured)))
          ++ [StopWorker first_child])
       (set_running true (with_process (Some first_child) (mgr configured)))))
    as (-> & _ & -> & _).
  split; reflexivity.
Qed.

Lemma scheduled_restart_refused_while_child_runs_witness :
  process (site_mgr running_site) = Some first_child
  /\ fst (scheduled_restart 4 (fun s => s) None 5 6 running_site) = Ok false.
Proof.
  split; [reflexivity|].
  exact (f_equal fst
           (proj1 (scheduled_restart_refused_while_child_runs 4 (fun s => s)
                     None 5 6 running_site first_child 0 None 7 8 9
                     eq_refl eq_refl stop_kept_site_in_step
                     (proj1 stop_kept_site_handle)
                     (proj2 stop_kept_site_handle)))).
Defined.

Lemma stop_worker_kills_after_thirty_polls_witness :
  in_step running_site
  /\ killed (site_os (_stop_worker first_child None 1 2 3 (fun _ s => s)
                        running_site))
     = killed (site_os running_site) ++ [pid first_child].
Proof.
  split; [exact running_site_in_step|].
  exact (proj1 (stop_worker_kills_after_thirty_polls first_child None 1 2 3
                  (fun _ s => s) running_site running_site_in_step
                  eq_refl eq_refl (nothing_happens_survives first_child))).
Defined.

Lemma stop_worker_waits_for_shutdown_witness :
  in_step running_site
  /\ stdin_log
       (site_os (_stop_worker first_child None 1 2 3
                   (only_at 7 (child_exits (pid first_child) 0))
                   running_site))
     = stdin_log (site_os running_site)
         ++ [(pid first_child, py "stop" ++ [10])].
Proof.
  split; [exact running_site_in_step|].
  assert (Hk : (7 < 30)%nat) by lia.
  exact (proj1 (stop_worker_waits_for_shutdown first_child 1 2 3 7 0
                  running_site running_site_in_step eq_refl eq_refl Hk)).
Defined.

Lemma stop_worker_spares_restarted_server_witness :
  in_step running_site
  /\ process
       (site_mgr
          (_stop_worker first_child None 1 2 3
             (only_at 7
                (fun s0 => snd (start None 8 9
                                  (child_exits (pid first_child) 0 s0))))
             running_site))
     = Some {| pid := launched (site_os running_site); returncode := None |}.
Proof.
  split; [exact running_site_in_step|].
  assert (Hk : (7 < 30)%nat) by lia.
  exact (proj1 (stop_worker_spares_restarted_server first_child 1 2 3 7 0 8 9
                  running_site running_site_in_step eq_refl eq_refl Hk)).
Defined.


End LifeExamples.
